(** * Sequential windowed replay buffer

    A shallow embedding of
    [src/dynamics_toolbox/rl/buffers/sequential_buffer.py]
    (classes [SequentialReplayBuffer] and [SequentialOfflineReplayBuffer])
    and the properties of its windowing, ring storage and sampling; then
    of [src/dynamics_toolbox/utils/pytorch/fc_network.py] (class
    [FCNetwork]) and the properties of its chain of layers.

    Conventions of the embedding.
    - Python integers are [Z]; list positions are converted with [Z.to_nat]
      only after the Python slice rules have clamped them.
    - A numpy array is a list along each of its leading axes.  The trailing
      feature axis is kept abstract: a row of an observation array is a value
      of type [Obs] (a float64 vector of extent [obs_dim]), a row of an action
      array a value of type [Act], a row of a reward array a value of type
      [Rew]; [obs0], [act0], [rew0] are the rows [np.zeros] allocates.  The
      buffer only copies such rows, it never computes with them.
    - Rows of the [terminals] and [masks] arrays are integers; the storage
      arrays have dtype uint8, so a store reduces modulo 256.
    - A method is a computation in a state-and-exception monad over the
      object's attributes: a raised exception keeps the writes made so far. *)

From stdpp Require Import prelude strings pretty gmap.

Set Default Proof Using "Type".

#[local] Open Scope Z_scope.

(** ** Python and numpy primitives *)

Inductive exn : Set :=
  | IndexError
  | ValueError
  | ZeroDivisionError
  | AttributeError
  | NotImplementedError.

#[global] Instance exn_eq_dec : EqDecision exn.
Proof. solve_decision. Defined.

(** The length of a sequence, [len(l)]. *)
Definition len {A} (l : list A) : Z := Z.of_nat (length l).

(** [range(lo, hi)]. *)
Definition py_range (lo hi : Z) : list Z := seqZ lo (hi - lo).

(** A slice bound [i] against an axis of extent [n]: a negative bound counts
    from the end, and every bound is clamped to [0 .. n]. *)
Definition slice_bound (n i : Z) : Z :=
  if decide (i < 0) then Z.max (n + i) 0 else Z.min i n.

(** The half-open position range that [lo:hi] selects on an axis of extent
    [n]: its first position and its number of positions. *)
Definition slice_range (n lo hi : Z) : nat * nat :=
  let a := slice_bound n lo in
  let b := Z.max (slice_bound n hi) a in
  (Z.to_nat a, Z.to_nat (b - a)).

(** [l[lo:hi]]. *)
Definition py_slice {A} (l : list A) (lo hi : Z) : list A :=
  let '(a, k) := slice_range (len l) lo hi in
  take k (drop a l).

(** [l[i]] with an integer index: negative indices count from the end,
    anything outside raises [IndexError]. *)
Definition index_pos (n i : Z) : exn + nat :=
  let j := if decide (i < 0) then i + n else i in
  if decide (0 <= j < n) then inr (Z.to_nat j) else inl IndexError.

Definition py_index {A} (l : list A) (i : Z) : exn + A :=
  match index_pos (len l) i with
  | inl e => inl e
  | inr j => match l !! j with Some x => inr x | None => inl IndexError end
  end.

(** [row[lo:hi] = x] for a scalar [x]: every selected position is set. *)
Definition fill_slice {A} (row : list A) (lo hi : Z) (x : A) : list A :=
  let '(a, k) := slice_range (len row) lo hi in
  take a row ++ replicate k x ++ drop (a + k)%nat row.

(** [row[lo:hi] = src] for an array [src]: the leading extent of [src] must
    equal the number of selected positions or be one (numpy broadcasting),
    otherwise numpy raises [ValueError]. *)
Definition assign_slice {A} (row : list A) (lo hi : Z) (src : list A)
  : exn + list A :=
  let '(a, k) := slice_range (len row) lo hi in
  if decide (length src = k) then inr (take a row ++ src ++ drop (a + k)%nat row)
  else match src with
       | [x] => inr (take a row ++ replicate k x ++ drop (a + k)%nat row)
       | _ => inl ValueError
       end.

(** [buff[top, lo:hi] = src]. *)
Definition set_rows {A} (buff : list (list A)) (top lo hi : Z) (src : list A)
  : exn + list (list A) :=
  match index_pos (len buff) top with
  | inl e => inl e
  | inr j =>
      match buff !! j with
      | None => inl IndexError
      | Some row =>
          match assign_slice row lo hi src with
          | inl e => inl e
          | inr row' => inr (<[j := row']> buff)
          end
      end
  end.

(** [buff[top, lo:hi] = x] for a scalar [x]. *)
Definition fill_rows {A} (buff : list (list A)) (top lo hi : Z) (x : A)
  : exn + list (list A) :=
  match index_pos (len buff) top with
  | inl e => inl e
  | inr j =>
      match buff !! j with
      | None => inl IndexError
      | Some row => inr (<[j := fill_slice row lo hi x]> buff)
      end
  end.

(** [buff[top, lo:] = x] for a scalar [x]: the slice runs to the end of the
    axis. *)
Definition fill_rows_tail {A} (buff : list (list A)) (top lo : Z) (x : A)
  : exn + list (list A) :=
  match index_pos (len buff) top with
  | inl e => inl e
  | inr j =>
      match buff !! j with
      | None => inl IndexError
      | Some row => inr (<[j := fill_slice row lo (len row) x]> buff)
      end
  end.

(** [arr[indices]] for an integer index array. *)
Fixpoint gather {A} (arr : list A) (indices : list Z) : exn + list A :=
  match indices with
  | [] => inr []
  | i :: rest =>
      match py_index arr i with
      | inl e => inl e
      | inr x =>
          match gather arr rest with
          | inl e => inl e
          | inr xs => inr (x :: xs)
          end
      end
  end.

(** A store into a uint8 array. *)
Definition to_uint8 (z : Z) : Z := z `mod` 256.

(** [np.random.randint(low, high, n)].  The generator's entropy is the
    explicit stream [rnd]; the [i]-th draw is reduced into [low .. high-1].
    A request for zero draws returns the empty array before the bounds are
    looked at; otherwise an empty range or a negative count raises
    [ValueError]. *)
Definition randint (rnd : nat → Z) (low high n : Z) : exn + list Z :=
  if decide (n = 0) then inr []
  else if decide (high <= low) then inl ValueError
  else if decide (n < 0) then inl ValueError
  else inr ((λ i, low + rnd i `mod` (high - low)) <$> seq 0 (Z.to_nat n)).

(** [np.argwhere(masks - 1).flatten()[0]], when that array is not empty:
    the first position whose mask is not one. *)
Definition first_unmasked (ms : list Z) : option Z :=
  match list_find (λ m, m - 1 ≠ 0) ms with
  | Some (i, _) => Some (Z.of_nat i)
  | None => None
  end.

(** [np.zeros((n, l, d))], the rows of extent [d] being copies of [x]: a
    negative extent [n] or [l] raises [ValueError].  The feature extent [d]
    ([obs_dim], [act_dim], 1) is the extent of the row type and is not an
    argument: the model covers the allocations whose feature extent is not
    negative and that numpy can make.  An extent from [2^63] on (another
    [ValueError]) and an array that does not fit into memory
    ([MemoryError]) are left out, so a result [inr] stands for "returns,
    when the allocation fits". *)
Definition np_zeros2 {A} (n l : Z) (x : A) : exn + list (list A) :=
  if decide (n < 0 ∨ l < 0) then inl ValueError
  else inr (replicate (Z.to_nat n) (replicate (Z.to_nat l) x)).

Section Buffer.

Context {Obs Act Rew : Type}.
Context (obs0 : Obs) (act0 : Act) (rew0 : Rew).

(** ** The object state

    The attributes of a [SequentialReplayBuffer].  [_obs_dim] and [_act_dim]
    only fix the extent of the abstract rows and are not repeated here.
    [_starts] is the extra attribute of the subclass
    [SequentialOfflineReplayBuffer]; the base class leaves it unset. *)
Record buffer : Type := Buffer {
  _max_size : Z;
  _lookback : Z;
  _observations : list (list Obs);
  _next_observations : list (list Obs);
  _actions : list (list Act);
  _rewards : list (list Rew);
  _terminals : list (list Z);
  _masks : list (list Z);
  _top : Z;
  _size : Z;
  _starts : option (list Obs);
}.

Definition with_observations (v : list (list Obs)) (b : buffer) : buffer :=
  Buffer (_max_size b) (_lookback b) v (_next_observations b) (_actions b)
    (_rewards b) (_terminals b) (_masks b) (_top b) (_size b) (_starts b).
Definition with_next_observations (v : list (list Obs)) (b : buffer) : buffer :=
  Buffer (_max_size b) (_lookback b) (_observations b) v (_actions b)
    (_rewards b) (_terminals b) (_masks b) (_top b) (_size b) (_starts b).
Definition with_actions (v : list (list Act)) (b : buffer) : buffer :=
  Buffer (_max_size b) (_lookback b) (_observations b) (_next_observations b) v
    (_rewards b) (_terminals b) (_masks b) (_top b) (_size b) (_starts b).
Definition with_rewards (v : list (list Rew)) (b : buffer) : buffer :=
  Buffer (_max_size b) (_lookback b) (_observations b) (_next_observations b)
    (_actions b) v (_terminals b) (_masks b) (_top b) (_size b) (_starts b).
Definition with_terminals (v : list (list Z)) (b : buffer) : buffer :=
  Buffer (_max_size b) (_lookback b) (_observations b) (_next_observations b)
    (_actions b) (_rewards b) v (_masks b) (_top b) (_size b) (_starts b).
Definition with_masks (v : list (list Z)) (b : buffer) : buffer :=
  Buffer (_max_size b) (_lookback b) (_observations b) (_next_observations b)
    (_actions b) (_rewards b) (_terminals b) v (_top b) (_size b) (_starts b).
Definition with_top (v : Z) (b : buffer) : buffer :=
  Buffer (_max_size b) (_lookback b) (_observations b) (_next_observations b)
    (_actions b) (_rewards b) (_terminals b) (_masks b) v (_size b) (_starts b).
Definition with_size (v : Z) (b : buffer) : buffer :=
  Buffer (_max_size b) (_lookback b) (_observations b) (_next_observations b)
    (_actions b) (_rewards b) (_terminals b) (_masks b) (_top b) v (_starts b).
Definition with_starts (v : option (list Obs)) (b : buffer) : buffer :=
  Buffer (_max_size b) (_lookback b) (_observations b) (_next_observations b)
    (_actions b) (_rewards b) (_terminals b) (_masks b) (_top b) (_size b) v.

(** ** The method monad: state of [self], and exceptions *)

Definition M (A : Type) : Type := buffer → buffer * (exn + A).

Definition ret {A} (a : A) : M A := λ b, (b, inr a).
Definition raise {A} (e : exn) : M A := λ b, (b, inl e).
Definition bind {A B} (m : M A) (k : A → M B) : M B :=
  λ b, match m b with
       | (b', inl e) => (b', inl e)
       | (b', inr a) => k a b'
       end.
Definition gets {A} (f : buffer → A) : M A := λ b, (b, inr (f b)).
Definition modify (f : buffer → buffer) : M unit := λ b, (f b, inr tt).
Definition lift {A} (r : exn + A) : M A := λ b, (b, r).

Notation "'do' x <~ m ; k" := (bind m (λ x, k))
  (at level 10, x name, m at level 99, k at level 200,
   format "'[v' 'do'  x  <~  m ; '/' k ']'").
Notation "m ;; k" := (bind m (λ _, k))
  (at level 100, k at level 200, right associativity).

(** [for x in xs: body(x)]. *)
Fixpoint for_ {X} (xs : list X) (body : X → M unit) : M unit :=
  match xs with
  | [] => ret tt
  | x :: rest => body x ;; for_ rest body
  end.

(** ** [SequentialReplayBuffer] *)

(** [clear_buffer]: the six storage arrays are reallocated as zeros, in the
    order of the source, then [_top] and [_size] are reset. *)
Definition clear_buffer : M unit :=
  do n <~ gets _max_size;
  do l <~ gets _lookback;
  do o <~ lift (np_zeros2 n l obs0);
  modify (with_observations o) ;;
  do o' <~ lift (np_zeros2 n l obs0);
  modify (with_next_observations o') ;;
  do a <~ lift (np_zeros2 n (l + 1) act0);
  modify (with_actions a) ;;
  do r <~ lift (np_zeros2 n (l + 1) rew0);
  modify (with_rewards r) ;;
  do t <~ lift (np_zeros2 n l 0);
  modify (with_terminals t) ;;
  do m <~ lift (np_zeros2 n l 0);
  modify (with_masks m) ;;
  modify (with_top 0) ;;
  modify (with_size 0).

(** An object on which no attribute has been assigned yet. *)
Definition blank : buffer := Buffer 0 0 [] [] [] [] [] [] 0 0 None.

(** [__init__(obs_dim, act_dim, max_buffer_size, lookback)] on [self]. *)
Definition init_self (max_buffer_size lookback : Z) : M unit :=
  modify (λ b, Buffer max_buffer_size lookback (_observations b)
                 (_next_observations b) (_actions b) (_rewards b)
                 (_terminals b) (_masks b) (_top b) (_size b) (_starts b)) ;;
  clear_buffer.

(** [SequentialReplayBuffer(obs_dim, act_dim, max_buffer_size, lookback)]:
    an exception in the constructor leaves no object. *)
Definition init (max_buffer_size lookback : Z) : exn + buffer :=
  match init_self max_buffer_size lookback blank with
  | (b, inr _) => inr b
  | (_, inl e) => inl e
  end.

(** [_advance]. *)
Definition _advance : M unit :=
  do top <~ gets _top;
  do n <~ gets _max_size;
  (if decide (n = 0) then raise ZeroDivisionError
   else modify (with_top ((top + 1) `mod` n))) ;;
  do size <~ gets _size;
  do n' <~ gets _max_size;
  if decide (size < n') then modify (with_size (size + 1)) else ret tt.

(** The argument of [add_paths] for one path: the arrays of the dictionary
    under the keys [observations], [actions], [rewards], [terminals] and,
    when present, [masks], with shapes [(horizon + 1, obs_dim)],
    [(horizon, act_dim)], [(horizon, 1)].  A key [info] is skipped by the
    source, and a key [next_observations] is overwritten by it before it is
    read; neither is part of the record. *)
Record path_arrays : Type := PathArrays {
  observations : list Obs;
  actions : list Act;
  rewards : list Rew;
  terminals : list Z;
  masks : option (list Z);
}.

(** The same dictionary for a batch: every array has a leading axis
    [num_paths]. *)
Record paths_arrays : Type := PathsArrays {
  observations_b : list (list Obs);
  actions_b : list (list Act);
  rewards_b : list (list Rew);
  terminals_b : list (list Z);
  masks_b : option (list (list Z));
}.

(** [add_paths] decides between the two on the rank of [paths['actions']]. *)
Inductive paths_arg : Type :=
  | OnePath (p : path_arrays)
  | Batch (ps : paths_arrays).

(** [{k: v[np.newaxis] for k, v in paths.items()}]. *)
Definition newaxis (p : path_arrays) : paths_arrays :=
  PathsArrays [observations p] [actions p] [rewards p] [terminals p]
    (match masks p with Some m => Some [m] | None => None end).

(** The dictionary [path] that the loop over [pidx] builds. *)
Record path : Type := Path {
  p_observations : list Obs;
  p_next_observations : list Obs;
  p_actions : list Act;
  p_rewards : list Rew;
  p_terminals : list Z;
  p_masks : option (list Z);
}.

(** [path[k] = v[pidx]] for every key, after
    [paths['next_observations'] = paths['observations'][:, 1:]] and
    [paths['observations'] = paths['observations'][:, :-1]]. *)
Definition get_path (ps : paths_arrays) (pidx : Z) : exn + path :=
  match py_index (observations_b ps) pidx, py_index (actions_b ps) pidx,
        py_index (rewards_b ps) pidx, py_index (terminals_b ps) pidx with
  | inr o, inr a, inr r, inr t =>
      let obs := py_slice o 0 (-1) in
      let nxt := py_slice o 1 (len o) in
      match masks_b ps with
      | None => inr (Path obs nxt a r t None)
      | Some ms =>
          match py_index ms pidx with
          | inr m => inr (Path obs nxt a r t (Some m))
          | inl e => inl e
          end
      end
  | _, _, _, _ => inl IndexError
  end.

(** The value of [length] after lines 112-118. *)
Definition path_length (p : path) : Z :=
  match p_masks p with
  | Some ms =>
      match first_unmasked ms with
      | Some i => i
      | None => len (p_actions p)
      end
  | None => len (p_actions p)
  end.

(** The body of the loop over [strt] (lines 120-133): one window is written
    at [_top], then [_advance] is called. *)
Definition write_window (p : path) (length strt : Z) : M unit :=
  do l <~ gets _lookback;
  let end_ := Z.min (strt + l) (strt + length) in
  do top <~ gets _top;
  do a <~ gets _actions;
  do a' <~ lift (set_rows a top 1 (end_ - strt + 1) (py_slice (p_actions p) strt end_));
  modify (with_actions a') ;;
  do r <~ gets _rewards;
  do r' <~ lift (set_rows r top 1 (end_ - strt + 1) (py_slice (p_rewards p) strt end_));
  modify (with_rewards r') ;;
  do o <~ gets _observations;
  do o' <~ lift (set_rows o top 0 (end_ - strt) (py_slice (p_observations p) strt end_));
  modify (with_observations o') ;;
  do n <~ gets _next_observations;
  do n' <~ lift (set_rows n top 0 (end_ - strt) (py_slice (p_next_observations p) strt end_));
  modify (with_next_observations n') ;;
  do t <~ gets _terminals;
  do t' <~ lift (set_rows t top 0 (end_ - strt)
                   (to_uint8 <$> py_slice (p_terminals p) strt end_));
  modify (with_terminals t') ;;
  do m <~ gets _masks;
  do m' <~ lift (match p_masks p with
                 | Some ms => set_rows m top 0 (end_ - strt)
                                (to_uint8 <$> py_slice ms strt end_)
                 | None => fill_rows m top 0 (end_ - strt) 1
                 end);
  modify (with_masks m') ;;
  do m1 <~ gets _masks;
  do m2 <~ lift (fill_rows_tail m1 top (end_ - strt) 0);
  modify (with_masks m2) ;;
  _advance.

(** The loop over [strt] for one path (lines 112-133). *)
Definition add_path (p : path) : M unit :=
  let length := path_length p in
  do l <~ gets _lookback;
  for_ (py_range 0 (Z.max (length - l + 1) 1)) (write_window p length).

(** [add_paths(paths)]. *)
Definition add_paths (arg : paths_arg) : M unit :=
  let ps := match arg with OnePath p => newaxis p | Batch ps => ps end in
  for_ (py_range 0 (len (actions_b ps)))
    (λ pidx, do p <~ lift (get_path ps pidx); add_path p).

(** The dictionary that the caller still holds after [add_paths(paths)].
    For a single path, line 104 rebinds the local name to a new dictionary
    and the caller's is left alone.  For a batch, lines 105-106 assign to the
    keys of the caller's dictionary itself: its observations lose their last
    step (the key [next_observations] that is added is assigned again by
    every call, so it is not kept here). *)
Definition paths_after (arg : paths_arg) : paths_arg :=
  match arg with
  | OnePath p => OnePath p
  | Batch ps =>
      Batch (PathsArrays ((λ o, py_slice o 0 (-1)) <$> observations_b ps)
               (actions_b ps) (rewards_b ps) (terminals_b ps) (masks_b ps))
  end.

(** [sample_batch] returns a dictionary of six arrays. *)
Record batch : Type := BatchOf {
  b_observations : list (list Obs);
  b_next_observations : list (list Obs);
  b_actions : list (list Act);
  b_rewards : list (list Rew);
  b_terminals : list (list Z);
  b_masks : list (list Z);
}.

(** [sample_batch(num_samples)], with the entropy [rnd] of the global
    generator made explicit. *)
Definition sample_batch (rnd : nat → Z) (num_samples : Z) : M batch :=
  do size <~ gets _size;
  do indices <~ lift (randint rnd 0 size num_samples);
  do o <~ gets (λ b, gather (_observations b) indices);
  do o' <~ lift o;
  do n <~ gets (λ b, gather (_next_observations b) indices);
  do n' <~ lift n;
  do a <~ gets (λ b, gather (_actions b) indices);
  do a' <~ lift a;
  do r <~ gets (λ b, gather (_rewards b) indices);
  do r' <~ lift r;
  do t <~ gets (λ b, gather (_terminals b) indices);
  do t' <~ lift t;
  do m <~ gets (λ b, gather (_masks b) indices);
  do m' <~ lift m;
  ret (BatchOf o' n' a' r' t' m').

(** [w[:, 0]] on the gathered windows [w] of shape
    [(num_samples, lookback, obs_dim)]: position 0 of the second axis, which
    has extent [lookback] whatever the number of windows. *)
Fixpoint column0 (w : list (list Obs)) : exn + list Obs :=
  match w with
  | [] => inr []
  | row :: rest =>
      match py_index row 0 with
      | inl e => inl e
      | inr x =>
          match column0 rest with
          | inl e => inl e
          | inr xs => inr (x :: xs)
          end
      end
  end.

Definition first_rows (lookback : Z) (w : list (list Obs)) : exn + list Obs :=
  match index_pos lookback 0 with
  | inl e => inl e
  | inr _ => column0 w
  end.

(** [sample_starts(num_samples)] of the base class. *)
Definition sample_starts (rnd : nat → Z) (num_samples : Z) : M (list Obs) :=
  do size <~ gets _size;
  do indices <~ lift (randint rnd 0 size num_samples);
  do o <~ gets (λ b, gather (_observations b) indices);
  do o' <~ lift o;
  do l <~ gets _lookback;
  lift (first_rows l o').

(** [add_step(obs, nxt, act, rew, terminal)]. *)
Definition add_step (obs nxt : Obs) (act : Act) (rew : Rew) (terminal : Z)
  : M unit :=
  raise NotImplementedError.

(** ** [SequentialOfflineReplayBuffer] *)

(** The flat dataset [data]; a trajectory returned by
    [parse_into_trajectories] is a dictionary with the same keys. *)
Record dataset : Type := Dataset {
  d_observations : list Obs;
  d_next_observations : list Obs;
  d_actions : list Act;
  d_rewards : list Rew;
  d_terminals : list Z;
}.

(** [__init__(data, lookback)] of the subclass.  [parse] stands for
    [parse_into_trajectories], which is imported from another module.  The
    two [reshape(-1, 1)] calls only normalise the trailing axis, which the
    rows of the model already have. *)
Definition offline_init_self (parse : dataset → list dataset)
    (data : dataset) (lookback : Z) : M unit :=
  init_self (len (d_actions data)) lookback ;;
  modify (with_starts (Some (d_observations data))) ;;
  for_ (parse data)
    (λ tr,
       do nxt0 <~ lift (gather (d_next_observations tr) [0]);
       add_paths (OnePath (PathArrays (d_observations tr ++ nxt0)
                             (d_actions tr) (d_rewards tr) (d_terminals tr)
                             None))).

Definition offline_init (parse : dataset → list dataset)
    (data : dataset) (lookback : Z) : exn + buffer :=
  match offline_init_self parse data lookback blank with
  | (b, inr _) => inr b
  | (_, inl e) => inl e
  end.

(** [sample_starts(num_samples)] of the subclass. *)
Definition offline_sample_starts (rnd : nat → Z) (num_samples : Z)
  : M (list Obs) :=
  do s <~ gets _starts;
  match s with
  | None => raise AttributeError
  | Some starts =>
      do indices <~ lift (randint rnd 0 (len starts) num_samples);
      lift (gather starts indices)
  end.

(** *** Trajectories of a flat dataset *)

Record transition : Type := Transition {
  t_obs : Obs;
  t_next : Obs;
  t_act : Act;
  t_rew : Rew;
  t_term : Z;
}.

Definition transitions (d : dataset) : list transition :=
  zip_with (λ '(o, n, a) '(r, t), Transition o n a r t)
    (zip (zip (d_observations d) (d_next_observations d)) (d_actions d))
    (zip (d_rewards d) (d_terminals d)).

Definition of_transitions (ts : list transition) : dataset :=
  Dataset (t_obs <$> ts) (t_next <$> ts) (t_act <$> ts) (t_rew <$> ts)
    (t_term <$> ts).

Context `{!EqDecision Obs}.

(** An episode ends after transition [t] when [t] is terminal, when the
    stream ends, or when the next transition does not start where [t] led. *)
Definition boundary (t : transition) (rest : list transition) : bool :=
  bool_decide (t_term t ≠ 0)
  || match rest with
     | [] => true
     | t' :: _ => bool_decide (t_next t ≠ t_obs t')
     end.

Fixpoint episodes_from (cur ts : list transition) : list (list transition) :=
  match ts with
  | [] => match cur with [] => [] | _ => [cur] end
  | t :: rest =>
      if boundary t rest then (cur ++ [t]) :: episodes_from [] rest
      else episodes_from (cur ++ [t]) rest
  end.

(** Modelled from the spec: [parse_into_trajectories], defined in
    [dynamics_toolbox/utils/sarsa_data_util.py], which is not among the
    sources.  The spec has it reconstruct the episodes of the flat stream,
    an episode boundary being inferred from the terminal flags and from a
    discontinuity between [next_observations[t]] and [observations[t+1]];
    each trajectory is a dictionary with the keys of the dataset. *)
Definition parse_into_trajectories (d : dataset) : list dataset :=
  of_transitions <$> episodes_from [] (transitions d).

End Buffer.

Arguments buffer : clear implicits.
Arguments M : clear implicits.
Arguments path_arrays : clear implicits.
Arguments paths_arrays : clear implicits.
Arguments paths_arg : clear implicits.
Arguments path : clear implicits.
Arguments batch : clear implicits.
Arguments dataset : clear implicits.
Arguments transition : clear implicits.

(** * The fully connected network

    A shallow embedding of
    [src/dynamics_toolbox/utils/pytorch/fc_network.py] (class [FCNetwork]).
    What torch supplies is a parameter of the model: the type of tensors,
    the parameters that [torch.nn.Linear] draws for a new layer, and the
    affine map that a layer computes.  The class itself only builds layers
    from the sizes it is given, registers them under the names
    ['linear_%d'], and chains them. *)

Module FCNetwork.

(** An exception of Python, or torch's [RuntimeError]. *)
Inductive error : Set :=
  | Py (e : exn)
  | RuntimeError.

Definition ebind {A B} (m : error + A) (k : A → error + B) : error + B :=
  match m with
  | inl e => inl e
  | inr a => k a
  end.

Notation "'do' x <~ m ; k" := (ebind m (λ x, k))
  (at level 10, x name, m at level 99, k at level 200,
   format "'[v' 'do'  x  <~  m ; '/' k ']'").

(** [l[i]] for the Python list [hidden_sizes]. *)
Definition item {A} (l : list A) (i : Z) : error + A :=
  match py_index l i with
  | inl e => inl (Py e)
  | inr x => inr x
  end.

(** ['linear_%d' % layer_num]. *)
Definition layer_name (layer_num : Z) : string := "linear_" +:+ pretty layer_num.

Section Network.

(** [Tensor]: the tensors; [Params]: the weight and bias of one layer. *)
Context {Tensor Params : Type}.

(** A [torch.nn.Linear] object. *)
Record Linear : Type := LinearOf {
  in_features : Z;
  out_features : Z;
  parameters : Params;
}.

(** [draw k]: the parameters that torch draws for the layer constructed
    after [k] others.  [linear_call layer x]: the call [layer(x)]. *)
Context (draw : nat → Params).
Context (linear_call : Linear → Tensor → error + Tensor).

(** [torch.nn.Linear(lin_in, lin_out)]: torch refuses to allocate a weight
    with a negative dimension. *)
Definition new_linear (params : Params) (lin_in lin_out : Z) : error + Linear :=
  if decide (lin_in < 0 ∨ lin_out < 0) then inl RuntimeError
  else inr (LinearOf lin_in lin_out params).

(** The object under construction: the registered submodules, and the
    number of layers constructed so far. *)
Record building : Type := Building {
  b_modules : gmap string Linear;
  b_drawn : nat;
}.

(** [_add_linear_layer(lin_in, lin_out, layer_num)]. *)
Definition _add_linear_layer (lin_in lin_out layer_num : Z) (s : building)
  : error + building :=
  do layer <~ new_linear (draw (b_drawn s)) lin_in lin_out;
  inr (Building (<[layer_name layer_num := layer]> (b_modules s))
         (S (b_drawn s))).

(** The loop [for hidx in range(len(hidden_sizes) - 1)] of [__init__]. *)
Fixpoint add_hidden_layers (hidden_sizes : list Z) (hidxs : list Z)
    (s : building) : error + building :=
  match hidxs with
  | [] => inr s
  | hidx :: rest =>
      do lin_in <~ item hidden_sizes hidx;
      do lin_out <~ item hidden_sizes (hidx + 1);
      do s' <~ _add_linear_layer lin_in lin_out (hidx + 1) s;
      add_hidden_layers hidden_sizes rest s'
  end.

(** A constructed [FCNetwork]. *)
Record network : Type := Network {
  _modules : gmap string Linear;
  _n_layers : Z;
  _hidden_activation : Tensor → error + Tensor;
  _out_activation : option (Tensor → error + Tensor);
}.

(** [FCNetwork(input_dim, output_dim, hidden_sizes, hidden_activation,
    out_activation)]: an exception in the constructor leaves no object. *)
Definition init (input_dim output_dim : Z) (hidden_sizes : list Z)
    (hidden_activation : Tensor → error + Tensor)
    (out_activation : option (Tensor → error + Tensor)) : error + network :=
  let s0 := Building ∅ 0 in
  if decide (len hidden_sizes = 0) then
    do s <~ _add_linear_layer input_dim output_dim 0 s0;
    inr (Network (b_modules s) 1 hidden_activation out_activation)
  else
    do h0 <~ item hidden_sizes 0;
    do s1 <~ _add_linear_layer input_dim h0 0 s0;
    do s2 <~ add_hidden_layers hidden_sizes
                (py_range 0 (len hidden_sizes - 1)) s1;
    do hl <~ item hidden_sizes (-1);
    do s3 <~ _add_linear_layer hl output_dim (len hidden_sizes) s2;
    inr (Network (b_modules s3) (len hidden_sizes + 1) hidden_activation
           out_activation).

(** [getattr(self, name)] for the name of a submodule. *)
Definition getattr (net : network) (name : string) : error + Linear :=
  match _modules net !! name with
  | Some layer => inr layer
  | None => inl (Py AttributeError)
  end.

(** The loop [for layer_num in range(self._n_layers - 1)] of [forward]. *)
Fixpoint hidden_pass (net : network) (layer_nums : list Z) (curr : Tensor)
  : error + Tensor :=
  match layer_nums with
  | [] => inr curr
  | layer_num :: rest =>
      do layer <~ getattr net (layer_name layer_num);
      do curr1 <~ linear_call layer curr;
      do curr2 <~ _hidden_activation net curr1;
      hidden_pass net rest curr2
  end.

(** [forward(net_in)]. *)
Definition forward (net : network) (net_in : Tensor) : error + Tensor :=
  do curr <~ hidden_pass net (py_range 0 (_n_layers net - 1)) net_in;
  do layer <~ getattr net (layer_name (_n_layers net - 1));
  do curr' <~ linear_call layer curr;
  match _out_activation net with
  | Some out_activation => out_activation curr'
  | None => inr curr'
  end.

(** The property [n_layers]. *)
Definition n_layers (net : network) : Z := _n_layers net.

(** ** Vocabulary of the network properties *)

(** The sizes along the chain of layers: the input dimension, the hidden
    sizes, the output dimension. *)
Definition sizes (input_dim output_dim : Z) (hidden_sizes : list Z) : list Z :=
  input_dim :: hidden_sizes ++ [output_dim].

(** [net] has layer [k], from size [k] to size [k + 1] of the chain, with
    the parameters drawn for the [k]-th layer constructed. *)
Definition has_layer (ms : gmap string Linear) (szs : list Z) (k : nat)
  : Prop :=
  ∃ i o, szs !! k = Some i ∧ szs !! S k = Some o
       ∧ ms !! layer_name (Z.of_nat k) = Some (LinearOf i o (draw k)).

(** [ms] holds the layers [0 .. n - 1] of the chain and nothing else. *)
Definition layers_upto (ms : gmap string Linear) (szs : list Z) (n : nat)
  : Prop :=
  (∀ k : nat, (k < n)%nat → has_layer ms szs k)
  ∧ ∀ name, is_Some (ms !! name) →
      ∃ k : nat, (k < n)%nat ∧ name = layer_name (Z.of_nat k).

End Network.

Arguments Linear : clear implicits.
Arguments building : clear implicits.
Arguments network : clear implicits.

End FCNetwork.

(** * Vocabulary of the properties

    The definitions below are not part of the source: they name the states,
    arguments and slots that the properties speak of. *)

(** [overwrite lo src row] is [row] with the [length src] positions from
    [lo] on replaced by [src]. *)
Definition overwrite {A} (lo : nat) (src row : list A) : list A :=
  take lo row ++ src ++ drop (lo + length src)%nat row.

(** A two-dimensional array of [n] rows of extent [l]. *)
Definition shape2 {A} (n l : Z) (arr : list (list A)) : Prop :=
  len arr = n ∧ Forall (λ row, len row = l) arr.

Section Vocabulary.

Context {Obs Act Rew : Type}.
Context (obs0 : Obs) (act0 : Act) (rew0 : Rew).

#[local] Abbreviation buffer := (buffer Obs Act Rew).
#[local] Abbreviation path := (path Obs Act Rew).
#[local] Abbreviation path_arrays := (path_arrays Obs Act Rew).
#[local] Abbreviation paths_arg := (paths_arg Obs Act Rew).
#[local] Abbreviation batch := (batch Obs Act Rew).
#[local] Abbreviation dataset := (dataset Obs Act Rew).

(** ** States and arguments *)

(** The shape of the storage that [clear_buffer] allocates, with a write
    cursor inside a non-empty ring. *)
Record shaped (b : buffer) : Prop := Shaped {
  shaped_max_size : 0 < _max_size b;
  shaped_lookback : 0 <= _lookback b;
  shaped_observations : shape2 (_max_size b) (_lookback b) (_observations b);
  shaped_next_observations :
    shape2 (_max_size b) (_lookback b) (_next_observations b);
  shaped_actions : shape2 (_max_size b) (_lookback b + 1) (_actions b);
  shaped_rewards : shape2 (_max_size b) (_lookback b + 1) (_rewards b);
  shaped_terminals : shape2 (_max_size b) (_lookback b) (_terminals b);
  shaped_masks : shape2 (_max_size b) (_lookback b) (_masks b);
  shaped_top : 0 <= _top b < _max_size b;
  shaped_size : 0 <= _size b <= _max_size b;
}.

(** The input contract of [add_paths] for one path, after the split of the
    observations: every array has one row per step. *)
Record path_ok (p : path) : Prop := PathOk {
  ok_observations : len (p_observations p) = len (p_actions p);
  ok_next_observations : len (p_next_observations p) = len (p_actions p);
  ok_rewards : len (p_rewards p) = len (p_actions p);
  ok_terminals : len (p_terminals p) = len (p_actions p);
  ok_masks : ∀ ms, p_masks p = Some ms → len ms = len (p_actions p);
}.

(** The start offsets that the loop over [strt] visits. *)
Definition window_starts (lookback : Z) (p : path) : list Z :=
  py_range 0 (Z.max (path_length p - lookback + 1) 1).

(** The number of rows of a window that hold data of the episode,
    [end - strt] in the source. *)
Definition extent (lookback length : Z) : Z := Z.min lookback length.

(** The state that one window write leaves when nothing raises: in the
    slot under the cursor the slices of the path overwrite the leading rows,
    the mask is rewritten, and the cursor and the size advance. *)
Definition written (p : path) (length strt : Z) (b : buffer) : buffer :=
  let e := extent (_lookback b) length in
  let j := Z.to_nat (_top b) in
  Buffer (_max_size b) (_lookback b)
    (alter (overwrite 0 (py_slice (p_observations p) strt (strt + e))) j
       (_observations b))
    (alter (overwrite 0 (py_slice (p_next_observations p) strt (strt + e))) j
       (_next_observations b))
    (alter (overwrite 1 (py_slice (p_actions p) strt (strt + e))) j
       (_actions b))
    (alter (overwrite 1 (py_slice (p_rewards p) strt (strt + e))) j
       (_rewards b))
    (alter (overwrite 0 (to_uint8 <$> py_slice (p_terminals p) strt (strt + e)))
       j (_terminals b))
    (alter (λ _, replicate (Z.to_nat e) 1
                 ++ replicate (Z.to_nat (_lookback b - e)) 0) j (_masks b))
    ((_top b + 1) `mod` _max_size b)
    (if decide (_size b < _max_size b) then _size b + 1 else _size b)
    (_starts b).

(** What a window write needs of the path: each slice that it copies has
    [extent] rows, and the supplied masks of the slice are ones. *)
Record slices_ok (lookback : Z) (p : path) (length strt : Z) : Prop := SlicesOk {
  so_extent : 0 <= extent lookback length;
  so_actions :
    List.length (py_slice (p_actions p) strt (strt + extent lookback length))
    = Z.to_nat (extent lookback length);
  so_rewards :
    List.length (py_slice (p_rewards p) strt (strt + extent lookback length))
    = Z.to_nat (extent lookback length);
  so_observations :
    List.length (py_slice (p_observations p) strt (strt + extent lookback length))
    = Z.to_nat (extent lookback length);
  so_next_observations :
    List.length
      (py_slice (p_next_observations p) strt (strt + extent lookback length))
    = Z.to_nat (extent lookback length);
  so_terminals :
    List.length (py_slice (p_terminals p) strt (strt + extent lookback length))
    = Z.to_nat (extent lookback length);
  so_masks : ∀ ms, p_masks p = Some ms →
    to_uint8 <$> py_slice ms strt (strt + extent lookback length)
    = replicate (Z.to_nat (extent lookback length)) 1;
}.

(** ** Slots and windows *)

(** One slot of the ring: row [i] of each of the six storage arrays.  This
    is what [sample_batch] returns for the index [i]. *)
Record window : Type := Window {
  w_observations : list Obs;
  w_next_observations : list Obs;
  w_actions : list Act;
  w_rewards : list Rew;
  w_terminals : list Z;
  w_masks : list Z;
}.

(** Slot [i] of the buffer, when [i] is inside every storage array. *)
Definition slot (b : buffer) (i : nat) : option window :=
  match _observations b !! i, _next_observations b !! i, _actions b !! i,
        _rewards b !! i, _terminals b !! i, _masks b !! i with
  | Some o, Some n, Some a, Some r, Some t, Some m => Some (Window o n a r t m)
  | _, _, _, _, _, _ => None
  end.

(** The shape of a slot for lookback [l]. *)
Record window_shaped (l : Z) (w : window) : Prop := WindowShaped {
  ws_observations : len (w_observations w) = l;
  ws_next_observations : len (w_next_observations w) = l;
  ws_actions : len (w_actions w) = l + 1;
  ws_rewards : len (w_rewards w) = l + 1;
  ws_terminals : len (w_terminals w) = l;
  ws_masks : len (w_masks w) = l;
}.

(** The slot that a window write leaves behind, from the slot [old] it
    found: the first [extent] rows are the slices of the path, one position
    later for actions and rewards; the mask is rewritten over its whole
    extent; no other row is touched. *)
Definition overlay (lookback : Z) (p : path) (length strt : Z) (old : window)
  : window :=
  let e := extent lookback length in
  Window
    (overwrite 0 (py_slice (p_observations p) strt (strt + e))
       (w_observations old))
    (overwrite 0 (py_slice (p_next_observations p) strt (strt + e))
       (w_next_observations old))
    (overwrite 1 (py_slice (p_actions p) strt (strt + e)) (w_actions old))
    (overwrite 1 (py_slice (p_rewards p) strt (strt + e)) (w_rewards old))
    (overwrite 0 (to_uint8 <$> py_slice (p_terminals p) strt (strt + e))
       (w_terminals old))
    (replicate (Z.to_nat e) 1 ++ replicate (Z.to_nat (lookback - e)) 0).

(** A window to write: the path and the start offset. *)
Definition source : Type := path * Z.

(** The state after the window [w] has been written. *)
Definition step (b : buffer) (w : source) : buffer :=
  written w.1 (path_length w.1) w.2 b.

(** The windows of a path, in the order of the loop over [strt]. *)
Definition sources (lookback : Z) (p : path) : list source :=
  (λ strt, (p, strt)) <$> window_starts lookback p.

(** A window of a well-formed path whose slices end inside the true length
    of the path, as every window of the loop over [strt] does. *)
Record source_ok (lookback : Z) (w : source) : Prop := SourceOk {
  src_path : path_ok w.1;
  src_start : 0 <= w.2;
  src_end : w.2 + extent lookback (path_length w.1) <= path_length w.1;
}.

(** The input contract of [add_paths] for one episode: [horizon + 1]
    observations, and [horizon] rows in every other array. *)
Record arrays_ok (ep : path_arrays) : Prop := ArraysOk {
  aok_observations : len (observations ep) = len (actions ep) + 1;
  aok_rewards : len (rewards ep) = len (actions ep);
  aok_terminals : len (terminals ep) = len (actions ep);
  aok_masks : ∀ ms, masks ep = Some ms → len ms = len (actions ep);
}.

(** The dictionary [path] built from one episode. *)
Definition split_path (ep : path_arrays) : path :=
  Path (py_slice (observations ep) 0 (-1))
       (py_slice (observations ep) 1 (len (observations ep)))
       (actions ep) (rewards ep) (terminals ep) (masks ep).

(** The true length of an episode: the position of the first mask that is
    not one, and the number of steps when there is none. *)
Definition true_length (ep : path_arrays) : Z := path_length (split_path ep).

(** The state after the first [k] windows of a path have been written. *)
Definition after (p : path) (k : Z) (b : buffer) : buffer :=
  foldl step b ((λ strt, (p, strt)) <$> seqZ 0 k).

(** Window [j] of a sampled batch. *)
Definition batch_window (bt : batch) (j : nat) : option window :=
  match b_observations bt !! j, b_next_observations bt !! j,
        b_actions bt !! j, b_rewards bt !! j, b_terminals bt !! j,
        b_masks bt !! j with
  | Some o, Some n, Some a, Some r, Some t, Some m => Some (Window o n a r t m)
  | _, _, _, _, _, _ => None
  end.

(** The indices that [randint] draws from [0 .. size-1]. *)
Definition draws (rnd : nat → Z) (size n : Z) : list Z :=
  (λ i, 0 + rnd i `mod` (size - 0)) <$> seq 0 (Z.to_nat n).

(** ** Invariants of the ring *)

(** The write cursor of a ring that has not wrapped yet is its size. *)
Definition cursor_ok (b : buffer) : Prop :=
  _size b < _max_size b → _top b = _size b.

(** The padding position 0 of the action and reward rows is zero. *)
Definition padded (b : buffer) : Prop :=
  Forall (λ row, row !! 0%nat = Some act0) (_actions b)
  ∧ Forall (λ row, row !! 0%nat = Some rew0) (_rewards b).

(** The slot that [clear_buffer] leaves everywhere. *)
Definition zero_window (l : Z) : window :=
  Window (replicate (Z.to_nat l) obs0) (replicate (Z.to_nat l) obs0)
    (replicate (Z.to_nat (l + 1)) act0) (replicate (Z.to_nat (l + 1)) rew0)
    (replicate (Z.to_nat l) 0) (replicate (Z.to_nat l) 0).

(** The state that the constructor leaves. *)
Definition fresh (n l : Z) : buffer :=
  Buffer n l
    (replicate (Z.to_nat n) (replicate (Z.to_nat l) obs0))
    (replicate (Z.to_nat n) (replicate (Z.to_nat l) obs0))
    (replicate (Z.to_nat n) (replicate (Z.to_nat (l + 1)) act0))
    (replicate (Z.to_nat n) (replicate (Z.to_nat (l + 1)) rew0))
    (replicate (Z.to_nat n) (replicate (Z.to_nat l) 0))
    (replicate (Z.to_nat n) (replicate (Z.to_nat l) 0))
    0 0 None.

(** A mask row is a run of ones followed by a run of zeros. *)
Definition mask_row_ok (row : list Z) : Prop :=
  ∃ ones zeros : nat, row = replicate ones 1 ++ replicate zeros 0.

(** Every mask row of the ring is of this form. *)
Definition masks_ok (b : buffer) : Prop := Forall mask_row_ok (_masks b).

(** A slot stores a window: its first [extent] rows are the slices of the
    path from the start offset (from position 1 on for actions and rewards,
    position 0 being the zero padding) and its mask marks exactly these
    rows.  Rows past the extent are not constrained. *)
Definition stores (l : Z) (src : source) (w : window) : Prop :=
  let p := src.1 in
  let strt := src.2 in
  let e := extent l (path_length p) in
  take (Z.to_nat e) (w_observations w)
  = py_slice (p_observations p) strt (strt + e)
  ∧ take (Z.to_nat e) (w_next_observations w)
    = py_slice (p_next_observations p) strt (strt + e)
  ∧ w_actions w !! 0%nat = Some act0
  ∧ take (Z.to_nat e) (drop 1 (w_actions w))
    = py_slice (p_actions p) strt (strt + e)
  ∧ w_rewards w !! 0%nat = Some rew0
  ∧ take (Z.to_nat e) (drop 1 (w_rewards w))
    = py_slice (p_rewards p) strt (strt + e)
  ∧ take (Z.to_nat e) (w_terminals w)
    = to_uint8 <$> py_slice (p_terminals p) strt (strt + e)
  ∧ w_masks w = replicate (Z.to_nat e) 1 ++ replicate (Z.to_nat (l - e)) 0.

(** The state of the ring after the windows of [log] have been written, in
    this order, since the last [clear_buffer]: the cursor and the size count
    them, and each of the last [_max_size] of them is stored in the slot of
    its index modulo the capacity. *)
Record ring_inv (log : list source) (b : buffer) : Prop := RingInv {
  ring_shaped : shaped b;
  ring_padded : padded b;
  ring_top : _top b = len log `mod` _max_size b;
  ring_size : _size b = Z.min (len log) (_max_size b);
  ring_slots : ∀ (i : nat) src,
    log !! i = Some src → len log - _max_size b <= Z.of_nat i →
    ∃ w, slot b (Z.to_nat (Z.of_nat i `mod` _max_size b)) = Some w
       ∧ stores (_lookback b) src w;
}.

(** The arrays that the loop over [pidx] reads: those of the batch, or the
    one path behind a new leading axis. *)
Definition arrays_of (arg : paths_arg) : paths_arrays Obs Act Rew :=
  match arg with OnePath ep => newaxis ep | Batch ps => ps end.

(** [ingests arg ps]: the loop over [pidx] reads the paths [ps] out of the
    argument, in this order, and each of them meets the input contract. *)
Definition ingests (arg : paths_arg) (ps : list path) : Prop :=
  Forall2 (λ pidx p, get_path (arrays_of arg) pidx = inr p ∧ path_ok p)
    (py_range 0 (len (actions_b (arrays_of arg)))) ps.

(** The windows of the paths of one call, and of a sequence of calls, in
    the order in which they are written. *)
Definition windows_of (l : Z) (ps : list path) : list source :=
  concat (sources l <$> ps).

(** A batch of episodes of one horizon and without masks, as [add_paths]
    receives it: the arrays of the episodes stacked along a new leading
    axis. *)
Definition stack (eps : list path_arrays) : paths_arrays Obs Act Rew :=
  PathsArrays (observations <$> eps) (actions <$> eps) (rewards <$> eps)
    (terminals <$> eps) None.

(** ** The offline buffer and its dataset *)

(** A computation that leaves [_starts] as it found it, whether it returns
    or raises. *)
Definition keeps_starts {A} (m : M Obs Act Rew A) : Prop :=
  ∀ b, _starts (m b).1 = _starts b.

(** The rows of [starts] at the indices [idxs]. *)
Definition rows_at (starts : list Obs) (idxs : list Z) : list (option Obs) :=
  (λ i, starts !! Z.to_nat i) <$> idxs.

(** The transitions of one episode as a flat dataset: observation [t] with
    next observation [t + 1]. *)
Definition flat_episode (ep : path_arrays) : dataset :=
  Dataset (py_slice (observations ep) 0 (-1))
    (py_slice (observations ep) 1 (len (observations ep)))
    (actions ep) (rewards ep) (terminals ep).

(** The concatenation of the episodes [eps]. *)
Definition flat (eps : list path_arrays) : dataset :=
  Dataset (concat (d_observations ∘ flat_episode <$> eps))
    (concat (d_next_observations ∘ flat_episode <$> eps))
    (concat (actions <$> eps)) (concat (rewards <$> eps))
    (concat (terminals <$> eps)).

(** The first observation of each episode. *)
Definition episode_starts (eps : list path_arrays) : list Obs :=
  omap (λ ep, head (observations ep)) eps.

(** ** Invariants for every argument *)

(** What every state reached from the constructor satisfies, also after a
    call that raised: the storage has its shape, position 0 of the action
    and reward rows is zero, every mask row is ones then zeros, and the
    cursor follows the size until the ring is full. *)
Record sound (b : buffer) : Prop := Sound {
  sound_shaped : shaped b;
  sound_padded : padded b;
  sound_masks : masks_ok b;
  sound_cursor : cursor_ok b;
}.

(** [b'] is a later state of the same ring as [b]: same capacity, lookback
    and retained starts, and a size that has not shrunk. *)
Record extends (b b' : buffer) : Prop := Extends {
  ext_max_size : _max_size b' = _max_size b;
  ext_lookback : _lookback b' = _lookback b;
  ext_starts : _starts b' = _starts b;
  ext_size : _size b <= _size b';
}.

(** The state after the calls [add_paths(arg)] for [arg] in [calls], made
    one after another on the same buffer by a caller that goes on after a
    call that raised. *)
Definition history (calls : list paths_arg) (b : buffer) : buffer :=
  foldl (λ b arg, (add_paths arg b).1) b calls.

(** ** Reading, masking and the offline constructor *)

(** A computation that leaves the whole buffer as it found it, whether it
    returns or raises. *)
Definition reads_only {A} (m : M Obs Act Rew A) : Prop := ∀ b, (m b).1 = b.

(** The first [t] steps of an episode, without masks: [t + 1] observations
    and [t] rows of every other array. *)
Definition truncate (t : Z) (ep : path_arrays) : path_arrays :=
  PathArrays (take (Z.to_nat (t + 1)) (observations ep))
    (take (Z.to_nat t) (actions ep)) (take (Z.to_nat t) (rewards ep))
    (take (Z.to_nat t) (terminals ep)) None.

(** The episode that the offline constructor hands to [add_paths] for the
    trajectory [tr]: its observations followed by row 0 of its next
    observations. *)
Definition offline_path (tr : dataset) : path_arrays :=
  PathArrays (d_observations tr ++ take 1 (d_next_observations tr))
    (d_actions tr) (d_rewards tr) (d_terminals tr) None.

(** A trajectory with at least one transition and one row per transition
    in each of its arrays. *)
Record trajectory_ok (tr : dataset) : Prop := TrajectoryOk {
  tok_steps : 0 < len (d_actions tr);
  tok_observations : len (d_observations tr) = len (d_actions tr);
  tok_next_observations : len (d_next_observations tr) = len (d_actions tr);
  tok_rewards : len (d_rewards tr) = len (d_actions tr);
  tok_terminals : len (d_terminals tr) = len (d_actions tr);
}.

(** ** The window writes of a history *)

(** The window writes [ws] made one after another: for each, the body of
    the loop over [strt]. *)
Definition writes (ws : list source) : M Obs Act Rew unit :=
  for_ ws (λ src, write_window src.1 (path_length src.1) src.2).

(** [slot_holds n l log d w]: [w] is, row for row, what slot [d] of a ring
    of capacity [n] and lookback [l] holds after the window writes [log],
    from the constructor on.  The slot was last written by window [i], the
    newest one of index [d] modulo [n], and [w] is that window laid over
    [old], the slot as write [i] found it: inside the extent of window [i]
    the rows are its rows and the mask is its mask; past the extent the
    rows are those of [old].  [old] is the zero slot of the constructor when
    [i] is the first write to the slot, and otherwise it stored window
    [i - n], which write [i] evicted. *)
Definition slot_holds (n l : Z) (log : list source) (d : Z) (w : window)
  : Prop :=
  ∃ (i : Z) (src : source) (b_i : buffer) (old : window),
    Z.max 0 (len log - n) <= i < len log ∧ i `mod` n = d
    ∧ log !! Z.to_nat i = Some src
    ∧ writes (take (Z.to_nat i) log) (fresh n l) = (b_i, inr tt)
    ∧ slot b_i (Z.to_nat d) = Some old
    ∧ w = overlay l src.1 (path_length src.1) src.2 old
    ∧ stores l src w
    ∧ (i < n → old = zero_window l)
    ∧ (n <= i →
         ∃ src', log !! Z.to_nat (i - n) = Some src' ∧ stores l src' old).

End Vocabulary.

Arguments window : clear implicits.
Arguments source : clear implicits.

(** ** Concrete data

    Scalar observations, actions and rewards: [Obs = Act = Rew = Z], the
    zero rows being [0]. *)

(** Three steps, no mask. *)
Definition ep_long : path_arrays Z Z Z :=
  PathArrays [10; 11; 12; 13] [1; 2; 3] [21; 22; 23] [0; 0; 1] None.

(** Two steps, no mask. *)
Definition ep_full : path_arrays Z Z Z :=
  PathArrays [10; 11; 12] [1; 2] [21; 22] [0; 1] None.

(** One step, no mask. *)
Definition ep_short : path_arrays Z Z Z :=
  PathArrays [50; 51] [5] [25] [1] None.

(** Two steps in the container, masked out from the first step on. *)
Definition ep_masked : path_arrays Z Z Z :=
  PathArrays [70; 71; 72] [7; 8] [27; 28] [0; 0] (Some [0; 0]).

Definition fresh_2_2 : buffer Z Z Z := fresh 0 0 0 2 2.

(** A ring of one slot and lookback 2 into which [ep_full] has been
    ingested, and the same after [ep_short] has been ingested as well. *)
Definition wrapped_full : buffer Z Z Z :=
  Buffer 1 2 [[10; 11]] [[11; 12]] [[0; 1; 2]] [[0; 21; 22]] [[0; 1]] [[1; 1]]
    0 1 None.

Definition wrapped_short : buffer Z Z Z :=
  Buffer 1 2 [[50; 11]] [[51; 12]] [[0; 5; 2]] [[0; 25; 22]] [[1; 1]] [[1; 0]]
    0 1 None.

(** The offline buffer built from the two transitions of [ep_full] with
    lookback 2. *)
Definition offline_full : buffer Z Z Z :=
  Buffer 2 2 [[10; 11]; [0; 0]] [[11; 11]; [0; 0]] [[0; 1; 2]; [0; 0; 0]]
    [[0; 21; 22]; [0; 0; 0]] [[0; 1]; [0; 0]] [[1; 1]; [0; 0]] 1 1
    (Some [10; 11]).

(** The online buffer of the same capacity into which [ep_full] has been
    ingested. *)
Definition online_full : buffer Z Z Z :=
  Buffer 2 2 [[10; 11]; [0; 0]] [[11; 12]; [0; 0]] [[0; 1; 2]; [0; 0; 0]]
    [[0; 21; 22]; [0; 0; 0]] [[0; 1]; [0; 0]] [[1; 1]; [0; 0]] 1 1 None.

(** Two steps whose rewards are missing. *)
Definition ep_no_rewards : path_arrays Z Z Z :=
  PathArrays [10; 11; 12] [1; 2] [] [0; 1] None.

(** Two steps, no mask: a second episode of the horizon of [ep_full]. *)
Definition ep_other : path_arrays Z Z Z :=
  PathArrays [30; 31; 32] [3; 4] [23; 24] [0; 1] None.

(** Three steps in the container, masked out from the third step on. *)
Definition ep_cut : path_arrays Z Z Z :=
  PathArrays [70; 71; 72; 73] [7; 8; 9] [27; 28; 29] [0; 0; 1] (Some [1; 1; 0]).

(** The parser that takes the whole dataset for one trajectory. *)
Definition one_trajectory (d : dataset Z Z Z) : list (dataset Z Z Z) := [d].

(** *** A network on integer vectors *)

(** Tensors are lists of integers and their extent is their length; a
    layer has no parameters and returns zeros of its output size, refusing
    an input of another size than its own; the activation is the
    elementwise maximum with 0. *)
Definition no_params (k : nat) : unit := tt.

Definition zero_call (ly : FCNetwork.Linear unit) (x : list Z)
  : FCNetwork.error + list Z :=
  if decide (len x = FCNetwork.in_features ly)
  then inr (replicate (Z.to_nat (FCNetwork.out_features ly)) 0)
  else inl FCNetwork.RuntimeError.

Definition relu (x : list Z) : FCNetwork.error + list Z :=
  inr (Z.max 0 <$> x).

(** * Properties *)

(** ** Slices inside their axis *)

Lemma len_nonneg {A} (l : list A) : 0 <= len l.
Proof. unfold len. lia. Qed.

Lemma slice_range_in n lo hi :
  0 <= lo <= hi → hi <= n →
  slice_range n lo hi = (Z.to_nat lo, Z.to_nat (hi - lo)).
Proof.
  intros Hlo Hhi. unfold slice_range, slice_bound.
  repeat case_decide; f_equal; lia.
Qed.

Lemma py_slice_in {A} (l : list A) s e :
  0 <= s <= e → e <= len l →
  py_slice l s e = take (Z.to_nat (e - s)) (drop (Z.to_nat s) l).
Proof.
  intros Hs He. unfold py_slice. by rewrite slice_range_in.
Qed.

Lemma length_py_slice_in {A} (l : list A) s e :
  0 <= s <= e → e <= len l →
  length (py_slice l s e) = Z.to_nat (e - s).
Proof.
  intros Hs He. rewrite py_slice_in by done.
  rewrite length_take, length_drop. unfold len in He. lia.
Qed.

Lemma lookup_py_slice_in {A} (l : list A) s e (i : nat) :
  0 <= s <= e → e <= len l → (i < Z.to_nat (e - s))%nat →
  py_slice l s e !! i = l !! (Z.to_nat s + i)%nat.
Proof.
  intros Hs He Hi. rewrite py_slice_in by done.
  by rewrite lookup_take_lt, lookup_drop.
Qed.

Lemma length_overwrite {A} lo (src row : list A) :
  (lo + length src <= length row)%nat →
  length (overwrite lo src row) = length row.
Proof.
  intros H. unfold overwrite.
  rewrite !length_app, length_take, length_drop. lia.
Qed.

Lemma assign_slice_in {A} (row src : list A) lo hi :
  0 <= lo <= hi → hi <= len row → length src = Z.to_nat (hi - lo) →
  assign_slice row lo hi src = inr (overwrite (Z.to_nat lo) src row).
Proof.
  intros Hlo Hhi Hsrc. unfold assign_slice.
  rewrite slice_range_in by done.
  rewrite decide_True by done. unfold overwrite. by rewrite Hsrc.
Qed.

Lemma fill_slice_in {A} (row : list A) lo hi x :
  0 <= lo <= hi → hi <= len row →
  fill_slice row lo hi x
  = overwrite (Z.to_nat lo) (replicate (Z.to_nat (hi - lo)) x) row.
Proof.
  intros Hlo Hhi. unfold fill_slice, overwrite.
  rewrite slice_range_in by done. by rewrite length_replicate.
Qed.

Lemma index_pos_in n i : 0 <= i < n → index_pos n i = inr (Z.to_nat i).
Proof.
  intros H. unfold index_pos.
  repeat case_decide; (done || lia).
Qed.

Lemma py_index_in {A} (l : list A) i x :
  0 <= i → l !! Z.to_nat i = Some x → py_index l i = inr x.
Proof.
  intros Hi Hx. unfold py_index.
  apply lookup_lt_Some in Hx as Hlt.
  rewrite index_pos_in by (unfold len; lia). by rewrite Hx.
Qed.

Lemma shape2_lookup {A} n l (arr : list (list A)) i :
  shape2 n l arr → 0 <= i < n → ∃ row, arr !! Z.to_nat i = Some row ∧ len row = l.
Proof.
  intros [Hn Hrows] Hi.
  destruct (lookup_lt_is_Some_2 arr (Z.to_nat i)) as [row Hrow].
  { unfold len in Hn. lia. }
  exists row. split; [done|].
  by eapply (Forall_lookup_1 _ _ _ _ Hrows).
Qed.

Lemma shape2_alter {A} n l (arr : list (list A)) f j :
  shape2 n l arr → (∀ row, len row = l → len (f row) = l) →
  shape2 n l (alter f j arr).
Proof.
  intros [Hn Hrows] Hf. split.
  - unfold len in *. by rewrite length_alter.
  - apply Forall_alter; [done|]. intros row _. apply Hf.
Qed.

Lemma shape2_zeros {A} n l (x : A) :
  0 <= n → 0 <= l →
  np_zeros2 n l x = inr (replicate (Z.to_nat n) (replicate (Z.to_nat l) x))
  ∧ shape2 n l (replicate (Z.to_nat n) (replicate (Z.to_nat l) x)).
Proof.
  intros Hn Hl. unfold np_zeros2. rewrite decide_False by lia.
  split; [done|]. split.
  - unfold len. rewrite length_replicate. lia.
  - apply Forall_replicate. unfold len. rewrite length_replicate. lia.
Qed.

Lemma set_rows_in {A} (buff : list (list A)) n l top lo hi src :
  shape2 n l buff → 0 <= top < n → 0 <= lo <= hi → hi <= l →
  length src = Z.to_nat (hi - lo) →
  set_rows buff top lo hi src
  = inr (alter (overwrite (Z.to_nat lo) src) (Z.to_nat top) buff).
Proof.
  intros Hsh Htop Hlo Hhi Hsrc.
  destruct (shape2_lookup _ _ _ _ Hsh Htop) as (row & Hrow & Hlen).
  unfold set_rows. destruct Hsh as [Hn _].
  rewrite index_pos_in by lia. rewrite Hrow.
  rewrite assign_slice_in by (done || lia).
  f_equal. rewrite list_insert_alter.
  apply list_alter_ext; [|done]. intros row' Hrow'. congruence.
Qed.

Lemma fill_rows_in {A} (buff : list (list A)) n l top lo hi x :
  shape2 n l buff → 0 <= top < n → 0 <= lo <= hi → hi <= l →
  fill_rows buff top lo hi x
  = inr (alter (overwrite (Z.to_nat lo) (replicate (Z.to_nat (hi - lo)) x))
           (Z.to_nat top) buff).
Proof.
  intros Hsh Htop Hlo Hhi.
  destruct (shape2_lookup _ _ _ _ Hsh Htop) as (row & Hrow & Hlen).
  unfold fill_rows. destruct Hsh as [Hn _].
  rewrite index_pos_in by lia. rewrite Hrow.
  f_equal. rewrite list_insert_alter.
  apply list_alter_ext; [|done]. intros row' Hrow'.
  assert (row' = row) as -> by congruence.
  by rewrite fill_slice_in by lia.
Qed.

Lemma fill_rows_tail_in {A} (buff : list (list A)) n l top lo x :
  shape2 n l buff → 0 <= top < n → 0 <= lo <= l →
  fill_rows_tail buff top lo x
  = inr (alter (overwrite (Z.to_nat lo) (replicate (Z.to_nat (l - lo)) x))
           (Z.to_nat top) buff).
Proof.
  intros Hsh Htop Hlo.
  destruct (shape2_lookup _ _ _ _ Hsh Htop) as (row & Hrow & Hlen).
  unfold fill_rows_tail. destruct Hsh as [Hn _].
  rewrite index_pos_in by lia. rewrite Hrow.
  f_equal. rewrite list_insert_alter.
  apply list_alter_ext; [|done]. intros row' Hrow'.
  assert (row' = row) as -> by congruence.
  rewrite fill_slice_in by lia. by rewrite Hlen.
Qed.

(** ** Slice assignments, whatever their arguments *)

Lemma slice_bound_range n i : 0 <= n → 0 <= slice_bound n i <= n.
Proof. intros Hn. unfold slice_bound. case_decide; lia. Qed.

Lemma slice_range_inside n lo hi a k :
  0 <= n → slice_range n lo hi = (a, k) → (a + k <= Z.to_nat n)%nat.
Proof.
  intros Hn. unfold slice_range. intros [= <- <-].
  pose proof (slice_bound_range n lo Hn). pose proof (slice_bound_range n hi Hn).
  lia.
Qed.

(** A slice assignment that returns has replaced the selected positions
    by as many rows, taken from the source. *)
Lemma assign_slice_inr {A} (row src row' : list A) lo hi :
  assign_slice row lo hi src = inr row' →
  ∃ src', row' = take (slice_range (len row) lo hi).1 row ++ src'
                 ++ drop ((slice_range (len row) lo hi).1
                          + (slice_range (len row) lo hi).2)%nat row
        ∧ length src' = (slice_range (len row) lo hi).2
        ∧ ∀ P : A → Prop, Forall P src → Forall P src'.
Proof.
  unfold assign_slice. destruct (slice_range (len row) lo hi) as [a k]. simpl.
  case_decide as Hlen.
  - intros [= <-]. by exists src.
  - destruct src as [|x [|??]]; [done| |done]. intros [= <-].
    exists (replicate k x). split_and!; [done|by rewrite length_replicate|].
    intros P HP. apply Forall_replicate. by inversion HP.
Qed.

Lemma length_assign_slice {A} (row src row' : list A) lo hi :
  assign_slice row lo hi src = inr row' → length row' = length row.
Proof.
  intros H. apply assign_slice_inr in H as (src' & -> & Hlen & _).
  destruct (slice_range (len row) lo hi) as [a k] eqn:Hr. simpl in *.
  pose proof (slice_range_inside (len row) lo hi a k (len_nonneg row) Hr) as Hin.
  unfold len in Hin. rewrite !length_app, length_take, length_drop, Hlen. lia.
Qed.

Lemma length_fill_slice {A} (row : list A) lo hi x :
  length (fill_slice row lo hi x) = length row.
Proof.
  unfold fill_slice.
  destruct (slice_range (len row) lo hi) as [a k] eqn:Hr.
  pose proof (slice_range_inside (len row) lo hi a k (len_nonneg row) Hr) as Hin.
  unfold len in Hin.
  rewrite !length_app, length_take, length_drop, length_replicate. lia.
Qed.

Lemma set_rows_inr {A} (buff buff' : list (list A)) top lo hi src :
  set_rows buff top lo hi src = inr buff' →
  ∃ j row row', index_pos (len buff) top = inr j ∧ buff !! j = Some row
              ∧ assign_slice row lo hi src = inr row'
              ∧ buff' = <[j := row']> buff.
Proof.
  unfold set_rows. destruct (index_pos (len buff) top) as [e|j]; [done|].
  destruct (buff !! j) as [row|] eqn:Hrow; [|done].
  destruct (assign_slice row lo hi src) as [e|row'] eqn:Hassign; [done|].
  intros [= <-]. by exists j, row, row'.
Qed.

Lemma fill_rows_inr {A} (buff buff' : list (list A)) top lo hi x :
  fill_rows buff top lo hi x = inr buff' →
  ∃ j row, index_pos (len buff) top = inr j ∧ buff !! j = Some row
         ∧ buff' = <[j := fill_slice row lo hi x]> buff.
Proof.
  unfold fill_rows. destruct (index_pos (len buff) top) as [e|j]; [done|].
  destruct (buff !! j) as [row|] eqn:Hrow; [|done].
  intros [= <-]. by exists j, row.
Qed.

Lemma fill_rows_tail_inr {A} (buff buff' : list (list A)) top lo x :
  fill_rows_tail buff top lo x = inr buff' →
  ∃ j row, index_pos (len buff) top = inr j ∧ buff !! j = Some row
         ∧ buff' = <[j := fill_slice row lo (len row) x]> buff.
Proof.
  unfold fill_rows_tail. destruct (index_pos (len buff) top) as [e|j]; [done|].
  destruct (buff !! j) as [row|] eqn:Hrow; [|done].
  intros [= <-]. by exists j, row.
Qed.

Lemma shape2_insert {A} n l (arr : list (list A)) j row :
  shape2 n l arr → len row = l → shape2 n l (<[j := row]> arr).
Proof.
  intros [Hn Hrows] Hrow. split.
  - unfold len in *. by rewrite length_insert.
  - by apply Forall_insert.
Qed.

Lemma set_rows_shape {A} n l (buff buff' : list (list A)) top lo hi src :
  shape2 n l buff → set_rows buff top lo hi src = inr buff' → shape2 n l buff'.
Proof.
  intros Hsh H. apply set_rows_inr in H as (j & row & row' & _ & Hrow & Hassign & ->).
  apply shape2_insert; [done|]. apply length_assign_slice in Hassign.
  destruct Hsh as [_ Hrows]. unfold len. rewrite Hassign.
  by apply (Forall_lookup_1 _ _ _ _ Hrows Hrow).
Qed.

Lemma fill_rows_shape {A} n l (buff buff' : list (list A)) top lo hi x :
  shape2 n l buff → fill_rows buff top lo hi x = inr buff' → shape2 n l buff'.
Proof.
  intros Hsh H. apply fill_rows_inr in H as (j & row & _ & Hrow & ->).
  apply shape2_insert; [done|]. unfold len. rewrite length_fill_slice.
  destruct Hsh as [_ Hrows]. by apply (Forall_lookup_1 _ _ _ _ Hrows Hrow).
Qed.

Lemma fill_rows_tail_shape {A} n l (buff buff' : list (list A)) top lo x :
  shape2 n l buff → fill_rows_tail buff top lo x = inr buff' → shape2 n l buff'.
Proof.
  intros Hsh H. apply fill_rows_tail_inr in H as (j & row & _ & Hrow & ->).
  apply shape2_insert; [done|]. unfold len. rewrite length_fill_slice.
  destruct Hsh as [_ Hrows]. by apply (Forall_lookup_1 _ _ _ _ Hrows Hrow).
Qed.

(** An assignment from position 1 on leaves position 0 of the row alone. *)
Lemma set_rows_head {A} (buff buff' : list (list A)) top hi src x :
  Forall (λ row, row !! 0%nat = Some x) buff →
  set_rows buff top 1 hi src = inr buff' →
  Forall (λ row, row !! 0%nat = Some x) buff'.
Proof.
  intros Hall H.
  apply set_rows_inr in H as (j & row & row' & _ & Hrow & Hassign & ->).
  apply Forall_insert; [done|].
  pose proof (Forall_lookup_1 _ _ _ _ Hall Hrow) as Hx. simpl in Hx.
  apply assign_slice_inr in Hassign as (src' & -> & _ & _).
  destruct row as [|y row]; [done|]. simpl in Hx. injection Hx as ->.
  assert ((slice_range (len (x :: row)) 1 hi).1 = 1%nat) as ->; [|done].
  unfold slice_range, slice_bound, len. simpl length.
  case_decide; simpl; lia.
Qed.

(** The elements of a slice with bounds that are not negative lie between
    the bounds. *)
Lemma py_slice_lookup {A} (l : list A) s e (i : nat) x :
  0 <= s → 0 <= e → py_slice l s e !! i = Some x →
  ∃ k : nat, l !! k = Some x ∧ s <= Z.of_nat k < e.
Proof.
  intros Hs He. unfold py_slice, slice_range, slice_bound.
  rewrite !decide_False by lia.
  intros H. apply lookup_take_Some in H as [H Hi].
  rewrite lookup_drop in H. apply lookup_lt_Some in H as Hlt.
  exists (Z.to_nat (Z.min s (len l)) + i)%nat. split; [done|].
  unfold len in *. lia.
Qed.

Lemma py_slice_take {A} (xs : list A) (t s e : Z) :
  0 <= s → 0 <= e → s + e <= t → t <= len xs →
  py_slice (take (Z.to_nat t) xs) s (s + e) = py_slice xs s (s + e).
Proof.
  intros Hs He Hse Ht.
  assert (len (take (Z.to_nat t) xs) = t) as Hlen.
  { unfold len in *. rewrite length_take. lia. }
  rewrite !py_slice_in by lia.
  rewrite skipn_firstn_comm, take_take. f_equal. lia.
Qed.

Section Properties.

Context {Obs Act Rew : Type}.
Context (obs0 : Obs) (act0 : Act) (rew0 : Rew).

#[local] Abbreviation buffer := (buffer Obs Act Rew).
#[local] Abbreviation path := (path Obs Act Rew).
#[local] Abbreviation path_arrays := (path_arrays Obs Act Rew).
#[local] Abbreviation paths_arg := (paths_arg Obs Act Rew).
#[local] Abbreviation batch := (batch Obs Act Rew).
#[local] Abbreviation dataset := (dataset Obs Act Rew).
#[local] Abbreviation window := (window Obs Act Rew).
#[local] Abbreviation source := (source Obs Act Rew).
#[local] Abbreviation keeps_starts :=
  (keeps_starts (Obs := Obs) (Act := Act) (Rew := Rew)).

(** ** What one window write does *)

Lemma first_unmasked_Some ms i :
  first_unmasked ms = Some i →
  0 <= i < len ms ∧ ∀ k : nat, Z.of_nat k < i → ms !! k = Some 1.
Proof.
  unfold first_unmasked. destruct (list_find _ ms) as [[j x]|] eqn:Hfind; [|done].
  intros [= <-]. apply list_find_Some in Hfind as (Hj & _ & Hbefore).
  apply lookup_lt_Some in Hj as Hlt. split; [unfold len; lia|].
  intros k Hk.
  destruct (lookup_lt_is_Some_2 ms k) as [y Hy]; [lia|].
  rewrite Hy. f_equal.
  destruct (decide (y - 1 = 0)) as [|Hne]; [lia|].
  exfalso. eapply (Hbefore k y); [done|lia|done].
Qed.

Lemma first_unmasked_None ms k x :
  first_unmasked ms = None → ms !! k = Some x → x = 1.
Proof.
  unfold first_unmasked. destruct (list_find _ ms) as [[j y]|] eqn:Hfind; [done|].
  intros _ Hx. apply list_find_None in Hfind.
  apply list_elem_of_lookup_2 in Hx.
  rewrite Forall_forall in Hfind. specialize (Hfind x Hx).
  destruct (decide (x - 1 = 0)); [lia|done].
Qed.

Lemma path_length_bounds (p : path) :
  path_ok p → 0 <= path_length p <= len (p_actions p).
Proof.
  intros Hok. unfold path_length.
  destruct (p_masks p) as [ms|] eqn:Hms; [|unfold len; lia].
  destruct (first_unmasked ms) as [i|] eqn:Hi; [|unfold len; lia].
  apply first_unmasked_Some in Hi as [Hi _].
  rewrite <- (ok_masks p Hok ms Hms). lia.
Qed.

(** Inside the true length every supplied mask is one. *)
Lemma path_length_masked (p : path) ms (k : nat) :
  p_masks p = Some ms → Z.of_nat k < path_length p → (k < length ms)%nat →
  ms !! k = Some 1.
Proof.
  intros Hms Hk Hlt. unfold path_length in Hk. rewrite Hms in Hk.
  destruct (first_unmasked ms) as [i|] eqn:Hi.
  - apply first_unmasked_Some in Hi as [_ Hi]. by apply Hi.
  - destruct (lookup_lt_is_Some_2 ms k Hlt) as [x Hx].
    rewrite Hx. f_equal. by eapply first_unmasked_None.
Qed.

Lemma mask_slice_ones (p : path) ms strt e :
  path_ok p → p_masks p = Some ms →
  0 <= strt → 0 <= e → strt + e <= path_length p →
  to_uint8 <$> py_slice ms strt (strt + e) = replicate (Z.to_nat e) 1.
Proof.
  intros Hok Hms Hs He Hend.
  pose proof (path_length_bounds p Hok) as Hlen.
  pose proof (ok_masks p Hok ms Hms) as Hmlen.
  apply list_eq. intros i.
  destruct (decide (i < Z.to_nat e)%nat) as [Hi|Hi].
  - rewrite list_lookup_fmap, lookup_py_slice_in by lia.
    rewrite (path_length_masked p ms) by (done || unfold len in *; lia).
    by rewrite lookup_replicate_2.
  - rewrite lookup_ge_None_2.
    + symmetry. apply lookup_replicate_None. lia.
    + rewrite length_fmap, length_py_slice_in by lia. lia.
Qed.

Lemma min_add_l strt l length :
  Z.min (strt + l) (strt + length) = strt + Z.min l length.
Proof. lia. Qed.

Lemma path_slices_ok l (p : path) strt :
  path_ok p → 0 <= l →
  0 <= strt → strt + extent l (path_length p) <= path_length p →
  slices_ok l p (path_length p) strt.
Proof.
  intros Hp Hl Hs Hend.
  pose proof (path_length_bounds p Hp) as Hlen.
  pose proof Hp as [Hpo Hpn Hpr Hpt Hpm].
  set (e := extent l (path_length p)) in *.
  assert (0 <= e) as He by (unfold e, extent; lia).
  assert (∀ {A} (xs : list A), len xs = len (p_actions p) →
            length (py_slice xs strt (strt + e)) = Z.to_nat e) as Hslice.
  { intros A xs Hxs. rewrite length_py_slice_in by lia. f_equal. lia. }
  split; try (by apply Hslice); [done|].
  intros ms Hms. by apply (mask_slice_ones p).
Qed.

(** On a well-shaped buffer, a window whose slices lie inside the path is
    written without an exception, and the state afterwards is [written]. *)
Lemma write_window_slices (p : path) length strt (b : buffer) :
  shaped b → slices_ok (_lookback b) p length strt →
  write_window p length strt b = (written p length strt b, inr tt).
Proof.
  intros Hb [He0 Hsa Hsr Hso Hsn Hst Hsm].
  destruct Hb as [HN HL Ho Hn Ha Hr Ht Hm Htop Hsize].
  set (e := extent (_lookback b) length) in *.
  assert (0 <= e <= _lookback b) as He by (unfold e, extent in *; lia).
  unfold write_window, bind, gets, lift, modify. simpl.
  rewrite min_add_l. fold (extent (_lookback b) length). fold e.
  replace (strt + e - strt + 1) with (e + 1) by lia.
  replace (strt + e - strt) with e by lia.
  rewrite (set_rows_in _ _ _ _ _ _ _ Ha) by (rewrite ?Hsa; (done || lia)).
  rewrite (set_rows_in _ _ _ _ _ _ _ Hr) by (rewrite ?Hsr; (done || lia)).
  rewrite (set_rows_in _ _ _ _ _ _ _ Ho) by (rewrite ?Hso; (done || lia)).
  rewrite (set_rows_in _ _ _ _ _ _ _ Hn) by (rewrite ?Hsn; (done || lia)).
  rewrite (set_rows_in _ _ _ _ _ _ _ Ht)
    by (rewrite ?length_fmap, ?Hst; (done || lia)).
  assert (match p_masks p with
          | Some ms => set_rows (_masks b) (_top b) 0 e
                         (to_uint8 <$> py_slice ms strt (strt + e))
          | None => fill_rows (_masks b) (_top b) 0 e 1
          end
          = inr (alter (overwrite 0 (replicate (Z.to_nat e) 1))
                   (Z.to_nat (_top b)) (_masks b))) as ->.
  { destruct (p_masks p) as [ms|] eqn:Hms.
    - rewrite (Hsm ms) by done.
      rewrite (set_rows_in _ _ _ _ _ _ _ Hm)
        by (rewrite ?length_replicate; (done || lia)).
      done.
    - rewrite (fill_rows_in _ _ _ _ _ _ _ Hm) by lia.
      by replace (e - 0) with e by lia. }
  simpl.
  rewrite (fill_rows_tail_in _ (_max_size b) (_lookback b)); [|  |lia|lia].
  2:{ apply shape2_alter; [done|]. intros row Hrow. unfold len in *.
      rewrite length_overwrite; rewrite ?length_replicate; lia. }
  simpl. unfold _advance, bind, gets, modify, ret, raise. simpl.
  rewrite decide_False by lia. simpl.
  unfold written. fold e. simpl.
  rewrite list_alter_alter_eq.
  assert (alter (overwrite (Z.to_nat e) (replicate (Z.to_nat (_lookback b - e)) 0)
                 ∘ overwrite 0 (replicate (Z.to_nat e) 1))
            (Z.to_nat (_top b)) (_masks b)
          = alter (λ _, replicate (Z.to_nat e) 1
                        ++ replicate (Z.to_nat (_lookback b - e)) 0)
              (Z.to_nat (_top b)) (_masks b)) as ->.
  { apply list_alter_ext; [|done]. intros row Hrow. simpl.
    assert (len row = _lookback b) as Hrl.
    { destruct Hm as [_ Hm]. by eapply (Forall_lookup_1 _ _ _ _ Hm). }
    unfold overwrite, len in *. rewrite !length_replicate. simpl.
    rewrite take_app_length' by (rewrite length_replicate; lia).
    rewrite (drop_ge _ (_ + _)%nat).
    2:{ rewrite length_app, length_replicate, length_drop. lia. }
    by rewrite app_nil_r. }
  by destruct (decide (_size b < _max_size b)).
Qed.

Lemma write_window_written (p : path) strt (b : buffer) :
  shaped b → path_ok p →
  0 <= strt → strt + extent (_lookback b) (path_length p) <= path_length p →
  write_window p (path_length p) strt b
  = (written p (path_length p) strt b, inr tt).
Proof.
  intros Hb Hp Hs Hend. apply write_window_slices; [done|].
  apply path_slices_ok; [done| |done|done]. by destruct Hb.
Qed.

(** ** Slots of the ring *)

Lemma shaped_slot (b : buffer) j :
  shaped b → 0 <= j < _max_size b →
  ∃ w, slot b (Z.to_nat j) = Some w ∧ window_shaped (_lookback b) w.
Proof.
  intros [HN HL Ho Hn Ha Hr Ht Hm Htop Hsize] Hj.
  destruct (shape2_lookup _ _ _ _ Ho Hj) as (o & Heo & Hlo).
  destruct (shape2_lookup _ _ _ _ Hn Hj) as (n & Hen & Hln).
  destruct (shape2_lookup _ _ _ _ Ha Hj) as (a & Hea & Hla).
  destruct (shape2_lookup _ _ _ _ Hr Hj) as (r & Her & Hlr).
  destruct (shape2_lookup _ _ _ _ Ht Hj) as (t & Het & Hlt).
  destruct (shape2_lookup _ _ _ _ Hm Hj) as (m & Hem & Hlm).
  exists (Window o n a r t m). unfold slot.
  rewrite Heo, Hen, Hea, Her, Het, Hem. by split.
Qed.

Lemma slot_written_top (p : path) length strt (b : buffer) old :
  slot b (Z.to_nat (_top b)) = Some old →
  slot (written p length strt b) (Z.to_nat (_top b))
  = Some (overlay (_lookback b) p length strt old).
Proof.
  unfold slot, written. simpl. rewrite !list_lookup_alter_eq.
  destruct (_observations b !! _) as [o|]; [|done].
  destruct (_next_observations b !! _) as [n|]; [|done].
  destruct (_actions b !! _) as [a|]; [|done].
  destruct (_rewards b !! _) as [r|]; [|done].
  destruct (_terminals b !! _) as [t|]; [|done].
  destruct (_masks b !! _) as [m|]; [|done].
  by intros [= <-].
Qed.

Lemma slot_written_other (p : path) length strt (b : buffer) (j : nat) :
  j ≠ Z.to_nat (_top b) →
  slot (written p length strt b) j = slot b j.
Proof.
  intros Hj. unfold slot, written. simpl.
  by rewrite !list_lookup_alter_ne.
Qed.

(** Window writes leave every slot alone that the cursor does not pass. *)
Lemma steps_frame (ws : list source) (b : buffer) (j : nat) :
  0 <= _top b < _max_size b →
  (∀ k, 0 <= k < len ws → (_top b + k) `mod` _max_size b ≠ Z.of_nat j) →
  slot (foldl step b ws) j = slot b j.
Proof.
  revert b. induction ws as [|w ws IH]; intros b Htop Hj; [done|].
  assert (len (w :: ws) = len ws + 1) as Hlen by (unfold len; simpl; lia).
  simpl. rewrite IH.
  - apply slot_written_other. intros ->.
    apply (Hj 0); [pose proof (len_nonneg ws); lia|].
    rewrite Z.add_0_r, Z.mod_small by done. lia.
  - simpl. apply Z.mod_pos_bound. lia.
  - simpl. intros k Hk. rewrite Zplus_mod_idemp_l.
    replace (_top b + 1 + k) with (_top b + (k + 1)) by lia.
    apply Hj. lia.
Qed.

Lemma shaped_written_slices (p : path) length strt (b : buffer) :
  shaped b → slices_ok (_lookback b) p length strt →
  shaped (written p length strt b).
Proof.
  intros Hb [He0 Hsa Hsr Hso Hsn Hst Hsm].
  destruct Hb as [HN HL Ho Hn Ha Hr Ht Hm Htop Hsize].
  set (e := extent (_lookback b) length) in *.
  assert (0 <= e <= _lookback b) as He by (unfold e, extent in *; lia).
  unfold written. fold e.
  split; simpl; try done; try lia.
  - apply shape2_alter; [done|]. intros row Hrow. unfold len in *.
    rewrite length_overwrite; rewrite ?Hso; (done || lia).
  - apply shape2_alter; [done|]. intros row Hrow. unfold len in *.
    rewrite length_overwrite; rewrite ?Hsn; (done || lia).
  - apply shape2_alter; [done|]. intros row Hrow. unfold len in *.
    rewrite length_overwrite; rewrite ?Hsa; (done || lia).
  - apply shape2_alter; [done|]. intros row Hrow. unfold len in *.
    rewrite length_overwrite; rewrite ?Hsr; (done || lia).
  - apply shape2_alter; [done|]. intros row Hrow. unfold len in *.
    rewrite length_overwrite; rewrite ?length_fmap, ?Hst; (done || lia).
  - apply shape2_alter; [done|]. intros row Hrow. unfold len in *.
    rewrite length_app, !length_replicate. lia.
  - apply Z.mod_pos_bound. lia.
  - case_decide; lia.
Qed.

Lemma shaped_written (p : path) strt (b : buffer) :
  shaped b → path_ok p →
  0 <= strt → strt + extent (_lookback b) (path_length p) <= path_length p →
  shaped (written p (path_length p) strt b).
Proof.
  intros Hb Hp Hs Hend. apply shaped_written_slices; [done|].
  apply path_slices_ok; [done| |done|done]. by destruct Hb.
Qed.

(** ** Loops that raise nothing *)

Lemma for_foldl {X} (xs : list X) (body : X → M Obs Act Rew unit)
    (f : buffer → X → buffer) (P : buffer → Prop) (Q : X → Prop) :
  Forall Q xs →
  (∀ x b, Q x → P b → body x b = (f b x, inr tt) ∧ P (f b x)) →
  ∀ b, P b → for_ xs body b = (foldl f b xs, inr tt) ∧ P (foldl f b xs).
Proof.
  intros Hxs Hbody. induction Hxs as [|x xs Hx _ IH]; intros b Hb; [done|].
  destruct (Hbody x b Hx Hb) as [Heq Hb']. simpl.
  unfold bind. rewrite Heq. by apply IH.
Qed.

(** ** The windows of a path *)

Lemma window_starts_lookup lookback (p : path) (k : nat) strt :
  window_starts lookback p !! k = Some strt →
  strt = Z.of_nat k ∧ strt <= Z.max (path_length p - lookback) 0.
Proof.
  unfold window_starts, py_range. intros H.
  apply lookup_seqZ in H. lia.
Qed.

Lemma sources_ok lookback (p : path) :
  path_ok p → 0 <= lookback → Forall (source_ok lookback) (sources lookback p).
Proof.
  intros Hp HL. pose proof (path_length_bounds p Hp) as Hlen.
  unfold sources. apply Forall_fmap, Forall_lookup_2. intros k strt Hk.
  apply window_starts_lookup in Hk as [-> Hk].
  split; simpl; [done|lia|unfold extent; lia].
Qed.

Lemma step_lookback (b : buffer) w : _lookback (step b w) = _lookback b.
Proof. done. Qed.

Lemma step_max_size (b : buffer) w : _max_size (step b w) = _max_size b.
Proof. done. Qed.

Lemma step_starts (b : buffer) w : _starts (step b w) = _starts b.
Proof. done. Qed.

Lemma write_window_step (w : source) (b : buffer) :
  shaped b → source_ok (_lookback b) w →
  write_window w.1 (path_length w.1) w.2 b = (step b w, inr tt)
  ∧ shaped (step b w).
Proof.
  intros Hb [Hp Hs He]. split.
  - by apply write_window_written.
  - by apply shaped_written.
Qed.

Lemma foldl_step_fixed (ws : list source) (b : buffer) :
  _lookback (foldl step b ws) = _lookback b
  ∧ _max_size (foldl step b ws) = _max_size b
  ∧ _starts (foldl step b ws) = _starts b.
Proof.
  revert b. induction ws as [|w ws IH]; intros b; [done|].
  simpl. destruct (IH (step b w)) as (-> & -> & ->). done.
Qed.

Lemma steps_shaped l (ws : list source) (b : buffer) :
  shaped b → _lookback b = l → Forall (source_ok l) ws →
  shaped (foldl step b ws).
Proof.
  intros Hb Hl Hws. revert b Hb Hl.
  induction Hws as [|w ws Hw _ IH]; intros b Hb Hl; [done|].
  simpl. apply IH; [|done]. subst l. by apply write_window_step.
Qed.

(** The loop over [strt] is the sequence of its window writes. *)
Lemma for_write_windows l (p : path) (starts : list Z) (b : buffer) :
  shaped b → _lookback b = l →
  Forall (source_ok l) ((λ strt, (p, strt)) <$> starts) →
  for_ starts (write_window p (path_length p)) b
  = (foldl step b ((λ strt, (p, strt)) <$> starts), inr tt).
Proof.
  intros Hb Hl Hws.
  destruct (for_foldl starts (write_window p (path_length p))
              (λ b strt, step b (p, strt))
              (λ b, shaped b ∧ _lookback b = l)
              (λ strt, source_ok l (p, strt))) with (b := b) as [Heq _].
  - rewrite Forall_fmap in Hws. exact Hws.
  - intros strt b' Hs [Hb' Hl']. rewrite <- Hl' in Hs.
    destruct (write_window_step (p, strt) b' Hb' Hs) as [Heq Hsh].
    simpl in Heq. split; [exact Heq|]. split; [exact Hsh|exact Hl'].
  - done.
  - rewrite Heq. f_equal. by rewrite foldl_fmap.
Qed.

Lemma add_path_steps (p : path) (b : buffer) :
  shaped b → path_ok p →
  add_path p b = (foldl step b (sources (_lookback b) p), inr tt).
Proof.
  intros Hb Hp. unfold add_path, bind, gets. simpl.
  apply (for_write_windows (_lookback b)); [done|done|].
  apply sources_ok; [done|]. by destruct Hb.
Qed.

Lemma steps_top (ws : list source) (b : buffer) :
  0 <= _top b < _max_size b →
  _top (foldl step b ws) = (_top b + len ws) `mod` _max_size b.
Proof.
  revert b. induction ws as [|w ws IH]; intros b Hb.
  - simpl. unfold len. simpl. rewrite Z.add_0_r. by rewrite Z.mod_small.
  - simpl. rewrite IH.
    + simpl. rewrite Zplus_mod_idemp_l. f_equal. unfold len. simpl. lia.
    + simpl. apply Z.mod_pos_bound. lia.
Qed.

Lemma steps_size (ws : list source) (b : buffer) :
  0 <= _size b <= _max_size b →
  _size (foldl step b ws) = Z.min (_size b + len ws) (_max_size b).
Proof.
  revert b. induction ws as [|w ws IH]; intros b Hb.
  - simpl. unfold len. simpl. lia.
  - simpl. rewrite IH; simpl; unfold len; simpl; case_decide; lia.
Qed.

(** ** One episode handed to [add_paths] *)

Lemma py_slice_init {A} (l : list A) :
  py_slice l 0 (-1) = take (length l - 1) l.
Proof.
  unfold py_slice, slice_range, slice_bound, len.
  repeat case_decide; try lia.
  replace (Z.to_nat (Z.min 0 (Z.of_nat (length l)))) with 0%nat by lia.
  rewrite drop_0. f_equal. lia.
Qed.

Lemma py_slice_tail {A} (l : list A) : py_slice l 1 (len l) = drop 1 l.
Proof.
  unfold py_slice, slice_range, slice_bound.
  repeat case_decide; try (unfold len in *; lia).
  destruct l as [|x l]; [done|].
  replace (Z.to_nat (Z.min 1 (len (x :: l)))) with 1%nat
    by (unfold len; simpl; lia).
  apply take_ge. rewrite length_drop. unfold len. simpl. lia.
Qed.

Lemma split_path_ok (ep : path_arrays) : arrays_ok ep → path_ok (split_path ep).
Proof.
  intros [Ho Hr Ht Hm]. split; simpl; try done.
  - rewrite py_slice_init. unfold len in *. rewrite length_take. lia.
  - rewrite py_slice_tail. unfold len in *. rewrite length_drop. lia.
Qed.

Lemma get_path_newaxis (ep : path_arrays) :
  get_path (newaxis ep) 0 = inr (split_path ep).
Proof. unfold get_path, newaxis, split_path. simpl. by destruct (masks ep). Qed.

Lemma add_paths_one (ep : path_arrays) (b : buffer) :
  add_paths (OnePath ep) b = add_path (split_path ep) b.
Proof.
  unfold add_paths. simpl. unfold bind, lift.
  rewrite get_path_newaxis.
  destruct (add_path (split_path ep) b) as [b' [e|[]]]; done.
Qed.

(** Slices of the two halves of the observations, as slices of the
    episode's [horizon + 1] observations. *)
Lemma slice_observations (ep : path_arrays) s e :
  0 <= s <= e → e <= len (observations ep) - 1 →
  py_slice (p_observations (split_path ep)) s e
  = py_slice (observations ep) s e.
Proof.
  intros Hs He. simpl. rewrite py_slice_init.
  assert (len (take (length (observations ep) - 1) (observations ep))
          = len (observations ep) - 1) as Hl.
  { unfold len in *. rewrite length_take. lia. }
  rewrite !py_slice_in by lia.
  rewrite !take_drop_commute, take_take.
  f_equal. f_equal. unfold len in *. lia.
Qed.

Lemma slice_next_observations (ep : path_arrays) s e :
  0 <= s <= e → e <= len (observations ep) - 1 →
  py_slice (p_next_observations (split_path ep)) s e
  = py_slice (observations ep) (s + 1) (e + 1).
Proof.
  intros Hs He. simpl. rewrite py_slice_tail.
  assert (len (drop 1 (observations ep)) = len (observations ep) - 1) as Hl.
  { unfold len in *. rewrite length_drop. lia. }
  rewrite !py_slice_in by lia.
  rewrite drop_drop. f_equal; [lia|]. f_equal. lia.
Qed.

Lemma after_succ (p : path) k (b : buffer) :
  0 <= k → after p (k + 1) b = step (after p k b) (p, k).
Proof.
  intros Hk. unfold after.
  rewrite seqZ_app by lia. rewrite fmap_app, foldl_app. done.
Qed.

Lemma after_sources_ok l (p : path) k :
  path_ok p → 0 <= l → k <= Z.max (path_length p - l) 0 + 1 →
  Forall (source_ok l) ((λ strt, (p, strt)) <$> seqZ 0 k).
Proof.
  intros Hp Hl Hk. pose proof (path_length_bounds p Hp) as Hlen.
  apply Forall_fmap, Forall_lookup_2. intros i strt Hi.
  apply lookup_seqZ in Hi as [-> Hi].
  split; simpl; [done|lia|unfold extent; lia].
Qed.

Lemma after_shaped (p : path) k (b : buffer) :
  shaped b → path_ok p → k <= Z.max (path_length p - _lookback b) 0 + 1 →
  shaped (after p k b)
  ∧ _lookback (after p k b) = _lookback b
  ∧ _max_size (after p k b) = _max_size b
  ∧ _top (after p k b) = (_top b + Z.max k 0) `mod` _max_size b.
Proof.
  intros Hb Hp Hk. unfold after.
  destruct (foldl_step_fixed ((λ strt, (p, strt)) <$> seqZ 0 k) b)
    as (Hl & Hn & _).
  split_and!; [|done|done|].
  - apply (steps_shaped (_lookback b)); [done|done|].
    apply after_sources_ok; [done| |done]. by destruct Hb.
  - rewrite steps_top by (by destruct Hb).
    unfold len. rewrite length_fmap, length_seqZ. do 2 f_equal. lia.
Qed.

Lemma overwrite_full {A} (src row : list A) :
  length src = length row → overwrite 0 src row = src.
Proof.
  intros H. unfold overwrite. rewrite take_0. simpl.
  rewrite drop_ge by lia. by rewrite app_nil_r.
Qed.

Lemma drop1_overwrite_full {A} (src row : list A) :
  length row = S (length src) → drop 1 (overwrite 1 src row) = src.
Proof.
  intros H. unfold overwrite.
  destruct row as [|x row]; [done|]. simpl in *.
  rewrite drop_0. rewrite drop_ge by lia. by rewrite app_nil_r.
Qed.

(** C1. An episode of true length [T >= L], handed to [add_paths] on a
    well-shaped buffer, makes the loop visit exactly the start offsets
    [0 .. T-L], that is [T-L+1] of them; [add_paths] raises nothing and is
    the sequence of these window writes; and the [k]-th write fills the
    slot under the write cursor with the [L] rows of the episode that begin
    at offset [k] (one position later for actions and rewards), under a
    mask of [L] ones. *)
Theorem add_paths_coverage (ep : path_arrays) (b : buffer) :
  shaped b → arrays_ok ep → _lookback b <= true_length ep →
  let l := _lookback b in
  let t := true_length ep in
  let p := split_path ep in
  window_starts l p = seqZ 0 (t - l + 1)
  ∧ len (window_starts l p) = t - l + 1
  ∧ add_paths (OnePath ep) b = (after p (t - l + 1) b, inr tt)
  ∧ ∀ k, 0 <= k <= t - l →
      write_window p t k (after p k b) = (after p (k + 1) b, inr tt)
      ∧ _top (after p k b) = (_top b + k) `mod` _max_size b
      ∧ ∃ w, slot (after p (k + 1) b) (Z.to_nat (_top (after p k b))) = Some w
          ∧ w_observations w = py_slice (observations ep) k (k + l)
          ∧ w_next_observations w
            = py_slice (observations ep) (k + 1) (k + l + 1)
          ∧ drop 1 (w_actions w) = py_slice (actions ep) k (k + l)
          ∧ drop 1 (w_rewards w) = py_slice (rewards ep) k (k + l)
          ∧ w_terminals w = to_uint8 <$> py_slice (terminals ep) k (k + l)
          ∧ w_masks w = replicate (Z.to_nat l) 1.
Proof.
  intros Hb Hep Hlt l t p. subst l t. unfold true_length in *. fold p in Hlt |- *.
  pose proof (split_path_ok ep Hep) as Hp. fold p in Hp.
  pose proof (path_length_bounds p Hp) as Hlen.
  assert (0 <= _lookback b) as Hl by (by destruct Hb).
  remember (_lookback b) as l eqn:El. remember (path_length p) as t eqn:Et.
  assert (window_starts l p = seqZ 0 (t - l + 1)) as Hstarts.
  { unfold window_starts, py_range. rewrite <- Et. f_equal. lia. }
  split_and!; [done| | |].
  - rewrite Hstarts. unfold len. rewrite length_seqZ. lia.
  - rewrite add_paths_one. fold p. rewrite add_path_steps by done.
    unfold sources, after. rewrite <- El. by rewrite Hstarts.
  - intros k Hk.
    destruct (after_shaped p k b Hb Hp) as (Hsh & Hlk & Hnk & Htopk);
      [rewrite <- El, <- Et; lia|].
    assert (source_ok (_lookback (after p k b)) (p, k)) as Hsrc.
    { rewrite Hlk, <- El. split; simpl; [done|lia|rewrite <- Et; unfold extent; lia]. }
    destruct (write_window_step (p, k) _ Hsh Hsrc) as [Hw _]. simpl in Hw.
    rewrite <- Et in Hw. rewrite after_succ by lia.
    split_and!; [done|rewrite Htopk; do 2 f_equal; lia|].
    destruct (shaped_slot (after p k b) (_top (after p k b)) Hsh)
      as (old & Hold & Hos); [by destruct Hsh|].
    rewrite Hlk, <- El in Hos. destruct Hos as [Ho Hn Ha Hr Ht Hm].
    eexists. split; [by apply slot_written_top|].
    cbn [fst snd]. rewrite Hlk, <- El, <- Et. unfold overlay.
    replace (extent l t) with l by (unfold extent; lia). cbn [p_observations
      p_next_observations p_actions p_rewards p_terminals w_observations
      w_next_observations w_actions w_rewards w_terminals w_masks].
    destruct Hep as [Heo Her Het Hem]. destruct Hp as [Hpo Hpn Hpr Hpt Hpm].
    assert (len (p_actions p) = len (actions ep)) as Hact by done.
    assert (len (p_rewards p) = len (rewards ep)) as Hrew by done.
    assert (len (p_terminals p) = len (terminals ep)) as Hterm by done.
    split_and!.
    + rewrite overwrite_full.
      * apply slice_observations; lia.
      * rewrite length_py_slice_in by lia. unfold len in Ho. lia.
    + rewrite overwrite_full.
      * change (p_next_observations p)
          with (p_next_observations (split_path ep)).
        by rewrite slice_next_observations by lia.
      * rewrite length_py_slice_in by lia. unfold len in Hn. lia.
    + apply drop1_overwrite_full.
      rewrite length_py_slice_in by lia. unfold len in Ha. lia.
    + apply drop1_overwrite_full.
      rewrite length_py_slice_in by lia. unfold len in Hr. lia.
    + apply overwrite_full.
      rewrite length_fmap, length_py_slice_in by lia. unfold len in Ht. lia.
    + replace (Z.to_nat (l - l)) with 0%nat by lia. simpl. by rewrite app_nil_r.
Qed.

(** ** Sampling *)

Lemma randint_draws rnd size n :
  0 < n → 0 < size → randint rnd 0 size n = inr (draws rnd size n).
Proof.
  intros Hn Hs. unfold randint. repeat case_decide; (done || lia).
Qed.

Lemma randint_empty_range rnd size n :
  0 < n → size <= 0 → randint rnd 0 size n = inl ValueError.
Proof.
  intros Hn Hs. unfold randint. repeat case_decide; (done || lia).
Qed.

Lemma draws_lookup rnd size n (j : nat) i :
  0 < size → draws rnd size n !! j = Some i →
  0 <= i < size ∧ i = rnd j `mod` size ∧ Z.of_nat j < n.
Proof.
  intros Hs. unfold draws. rewrite list_lookup_fmap.
  destruct (seq 0 (Z.to_nat n) !! j) as [k|] eqn:Hk; [|done].
  apply lookup_seq in Hk as [-> Hk]. simpl. intros [= <-].
  rewrite Z.sub_0_r. pose proof (Z.mod_pos_bound (rnd j) size Hs). lia.
Qed.

Lemma length_draws rnd size n : length (draws rnd size n) = Z.to_nat n.
Proof. unfold draws. by rewrite length_fmap, length_seq. Qed.

Lemma gather_in {A} (arr : list A) (indices : list Z) :
  Forall (λ i, 0 <= i < len arr) indices →
  ∃ rows, gather arr indices = inr rows
        ∧ length rows = length indices
        ∧ ∀ (j : nat) i, indices !! j = Some i → rows !! j = arr !! Z.to_nat i.
Proof.
  induction 1 as [|i indices Hi _ (rows & Hrows & Hlen & Hlook)].
  - exists []. by split_and!.
  - destruct (lookup_lt_is_Some_2 arr (Z.to_nat i)) as [x Hx].
    { unfold len in Hi. lia. }
    exists (x :: rows). simpl.
    rewrite (py_index_in arr i x) by (done || lia). rewrite Hrows.
    split_and!; [done|simpl; lia|].
    intros [|j] i'; simpl; [by intros [= <-]|apply Hlook].
Qed.

(** A draw of at least one index from a non-empty buffer raises nothing and
    returns, for each drawn index, the slot under that index. *)
Lemma sample_batch_slots rnd n (b : buffer) :
  shaped b → 0 < n → 0 < _size b →
  ∃ bt, sample_batch rnd n b = (b, inr bt)
      ∧ len (b_observations bt) = n
      ∧ ∀ (j : nat) i, draws rnd (_size b) n !! j = Some i →
          batch_window bt j = slot b (Z.to_nat i).
Proof.
  intros [HN HL Ho Hn Ha Hr Ht Hm Htop Hsize] Hcount Hpos.
  assert (∀ {A} l (arr : list (list A)), shape2 (_max_size b) l arr →
            Forall (λ i, 0 <= i < len arr) (draws rnd (_size b) n)) as Hin.
  { intros A l arr [Hlen _]. apply Forall_lookup_2. intros j i Hj.
    apply draws_lookup in Hj; [|done]. lia. }
  destruct (gather_in _ _ (Hin _ _ _ Ho)) as (o & Heo & Hlo & Hko).
  destruct (gather_in _ _ (Hin _ _ _ Hn)) as (nx & Hen & Hln & Hkn).
  destruct (gather_in _ _ (Hin _ _ _ Ha)) as (a & Hea & Hla & Hka).
  destruct (gather_in _ _ (Hin _ _ _ Hr)) as (r & Her & Hlr & Hkr).
  destruct (gather_in _ _ (Hin _ _ _ Ht)) as (t & Het & Hlt & Hkt).
  destruct (gather_in _ _ (Hin _ _ _ Hm)) as (m & Hem & Hlm & Hkm).
  exists (BatchOf o nx a r t m).
  unfold sample_batch, bind, gets, lift, ret. simpl.
  rewrite randint_draws by done. simpl.
  rewrite Heo, Hen, Hea, Her, Het, Hem. split_and!; [done| |].
  - simpl. unfold len. rewrite Hlo, length_draws. lia.
  - intros j i Hj. unfold batch_window, slot. simpl.
    by rewrite (Hko j i), (Hkn j i), (Hka j i), (Hkr j i), (Hkt j i),
      (Hkm j i).
Qed.

(** ** Episodes shorter than the lookback *)

Lemma range_short l t : t <= l → py_range 0 (Z.max (t - l + 1) 1) = [0].
Proof.
  intros H. unfold py_range.
  by replace (Z.max (t - l + 1) 1 - 0) with 1 by lia.
Qed.

Lemma window_starts_short l (p : path) :
  path_length p <= l → window_starts l p = [0].
Proof. apply range_short. Qed.

Lemma for_singleton {X} (x : X) (body : X → M Obs Act Rew unit) (b : buffer) :
  for_ [x] body b = body x b.
Proof.
  simpl. unfold bind, ret. by destruct (body x b) as [b' [e|[]]].
Qed.

Lemma first_unmasked_head ms m :
  ms !! 0%nat = Some m → m ≠ 1 → first_unmasked ms = Some 0.
Proof.
  destruct ms as [|m' ms]; [done|]. simpl. intros [= ->] Hm.
  unfold first_unmasked. simpl. rewrite decide_True by lia. done.
Qed.

Lemma py_slice_empty {A} (xs : list A) s : 0 <= s → py_slice xs s (s + 0) = [].
Proof.
  intros Hs. rewrite Z.add_0_r. unfold py_slice, slice_range.
  replace (Z.to_nat (_ - _)) with 0%nat by lia. done.
Qed.

Lemma slices_ok_empty l (p : path) strt :
  0 <= l → 0 <= strt → slices_ok l p 0 strt.
Proof.
  intros Hl Hs. assert (extent l 0 = 0) as He by (unfold extent; lia).
  split; rewrite ?He; try (by rewrite py_slice_empty); [lia|].
  intros ms _. by rewrite py_slice_empty.
Qed.

Lemma alter_overwrite_nil {A} lo j (arr : list (list A)) :
  alter (overwrite lo []) j arr = arr.
Proof.
  apply list_alter_id. intros row. unfold overwrite. simpl.
  rewrite Nat.add_0_r. apply take_drop.
Qed.

(** C10. An episode whose supplied mask is zero at index 0 has true length
    0.  [add_paths] still visits one start offset and raises nothing: the
    observation, action, reward and terminal storage is left as it was, the
    mask of the slot under the write cursor becomes all zeros, the cursor
    advances and the size grows up to the capacity.  The slot is then below
    the size, and a draw of [sample_batch] returns it. *)
Theorem add_paths_empty_episode (ep : path_arrays) (b : buffer) ms :
  shaped b → cursor_ok b → masks ep = Some ms → ms !! 0%nat = Some 0 →
  true_length ep = 0
  ∧ window_starts (_lookback b) (split_path ep) = [0]
  ∧ ∃ b', add_paths (OnePath ep) b = (b', inr tt)
      ∧ _observations b' = _observations b
      ∧ _next_observations b' = _next_observations b
      ∧ _actions b' = _actions b
      ∧ _rewards b' = _rewards b
      ∧ _terminals b' = _terminals b
      ∧ _masks b' !! Z.to_nat (_top b)
        = Some (replicate (Z.to_nat (_lookback b)) 0)
      ∧ (∀ j, j ≠ Z.to_nat (_top b) → _masks b' !! j = _masks b !! j)
      ∧ _top b' = (_top b + 1) `mod` _max_size b
      ∧ _size b' = Z.min (_size b + 1) (_max_size b)
      ∧ 0 <= _top b < _size b'
      ∧ ∃ bt w, sample_batch (λ _, _top b) 1 b' = (b', inr bt)
          ∧ batch_window bt 0 = Some w
          ∧ slot b' (Z.to_nat (_top b)) = Some w
          ∧ w_masks w = replicate (Z.to_nat (_lookback b)) 0.
Proof.
  intros Hb Hc Hms H0.
  assert (true_length ep = 0) as Hlen.
  { unfold true_length, path_length. simpl. rewrite Hms.
    by rewrite (first_unmasked_head ms 0). }
  assert (0 <= _lookback b) as Hl by (by destruct Hb).
  pose proof (slices_ok_empty (_lookback b) (split_path ep) 0 Hl (Z.le_refl 0))
    as Hok.
  split_and!; [done|apply window_starts_short; fold (true_length ep); lia|].
  exists (written (split_path ep) 0 0 b).
  assert (shaped (written (split_path ep) 0 0 b)) as Hb'
    by (by apply shaped_written_slices).
  pose proof Hb as [HN _ _ _ _ _ _ Hm Htop Hsize].
  assert (extent (_lookback b) 0 = 0) as He by (unfold extent; lia).
  assert (_size (written (split_path ep) 0 0 b)
          = Z.min (_size b + 1) (_max_size b)) as Hsz.
  { simpl. case_decide; lia. }
  assert (0 <= _top b < _size (written (split_path ep) 0 0 b)) as Hreach.
  { rewrite Hsz. unfold cursor_ok in Hc. lia. }
  destruct (shape2_lookup _ _ _ _ Hm Htop) as (row & Hrow & _).
  assert (_masks (written (split_path ep) 0 0 b) !! Z.to_nat (_top b)
          = Some (replicate (Z.to_nat (_lookback b)) 0)) as Hmask.
  { unfold written. cbn [_masks]. rewrite list_lookup_alter_eq, Hrow, He.
    simpl. do 3 f_equal. lia. }
  split_and!.
  - rewrite add_paths_one. unfold add_path, bind, gets. simpl.
    fold (true_length ep). rewrite Hlen.
    rewrite range_short by lia.
    rewrite for_singleton. by apply write_window_slices.
  - unfold written. cbn [_observations]. rewrite He. simpl.
    by rewrite py_slice_empty, alter_overwrite_nil.
  - unfold written. cbn [_next_observations]. rewrite He. simpl.
    by rewrite py_slice_empty, alter_overwrite_nil.
  - unfold written. cbn [_actions]. rewrite He. simpl.
    by rewrite py_slice_empty, alter_overwrite_nil.
  - unfold written. cbn [_rewards]. rewrite He. simpl.
    by rewrite py_slice_empty, alter_overwrite_nil.
  - unfold written. cbn [_terminals]. rewrite He. simpl.
    rewrite py_slice_empty by lia. simpl. by rewrite alter_overwrite_nil.
  - done.
  - intros j Hj. unfold written. cbn [_masks].
    by rewrite list_lookup_alter_ne.
  - reflexivity.
  - exact Hsz.
  - apply Hreach.
  - apply Hreach.
  - destruct (sample_batch_slots (λ _, _top b) 1 _ Hb') as (bt & Hbt & _ & Hw);
      [lia|lia|].
    destruct (shaped_slot _ (_top b) Hb') as (w & Hslot & _); [done|].
    exists bt, w. split_and!; [done| |done|].
    + rewrite (Hw 0%nat (_top b)); [done|].
      unfold draws. simpl. f_equal. rewrite Z.sub_0_r.
      apply Z.mod_small. unfold cursor_ok in Hc. case_decide; lia.
    + unfold slot in Hslot. rewrite Hmask in Hslot.
      repeat case_match; try done. by injection Hslot as <-.
Qed.

(** ** Rows of an overwritten slot *)

Lemma take_overwrite0 {A} (src row : list A) :
  take (length src) (overwrite 0 src row) = src.
Proof. unfold overwrite. simpl. by rewrite take_app_length. Qed.

Lemma drop_overwrite0 {A} (src row : list A) :
  drop (length src) (overwrite 0 src row) = drop (length src) row.
Proof. unfold overwrite. simpl. by rewrite drop_app_length. Qed.

Lemma head_overwrite1 {A} (src row : list A) x :
  row !! 0%nat = Some x → overwrite 1 src row !! 0%nat = Some x.
Proof. unfold overwrite. by destruct row. Qed.

Lemma take_drop1_overwrite1 {A} (src row : list A) :
  (1 <= length row)%nat →
  take (length src) (drop 1 (overwrite 1 src row)) = src.
Proof.
  intros H. unfold overwrite. destruct row as [|x row]; [simpl in H; lia|].
  simpl. rewrite ?drop_0. by rewrite take_app_length.
Qed.

Lemma drop_overwrite1 {A} (src row : list A) :
  (1 <= length row)%nat →
  drop (1 + length src) (overwrite 1 src row) = drop (1 + length src) row.
Proof.
  intros H. unfold overwrite. destruct row as [|x row]; [simpl in H; lia|].
  simpl. rewrite ?drop_0. by rewrite drop_app_length.
Qed.

Lemma padded_step (b : buffer) (w : source) : padded act0 rew0 b → padded act0 rew0 (step b w).
Proof.
  intros [Ha Hr]. unfold padded, step, written. simpl. split.
  - apply Forall_alter; [done|]. intros row _ H. by apply head_overwrite1.
  - apply Forall_alter; [done|]. intros row _ H. by apply head_overwrite1.
Qed.

Lemma padded_steps (ws : list source) (b : buffer) :
  padded act0 rew0 b → padded act0 rew0 (foldl step b ws).
Proof.
  revert b. induction ws as [|w ws IH]; intros b Hb; [done|].
  simpl. by apply IH, padded_step.
Qed.

Lemma padded_slot (b : buffer) j w :
  padded act0 rew0 b → slot b j = Some w →
  w_actions w !! 0%nat = Some act0 ∧ w_rewards w !! 0%nat = Some rew0.
Proof.
  intros [Ha Hr]. unfold slot. intros H.
  repeat case_match; try done. injection H as <-. simpl. split.
  - by eapply (Forall_lookup_1 _ _ _ _ Ha).
  - by eapply (Forall_lookup_1 _ _ _ _ Hr).
Qed.

Lemma init_fresh n l :
  0 <= n → 0 <= l → init obs0 act0 rew0 n l = inr (fresh obs0 act0 rew0 n l).
Proof.
  intros Hn Hl. unfold init, init_self, clear_buffer, bind, gets, lift, modify.
  simpl. unfold np_zeros2.
  rewrite !decide_False by lia. done.
Qed.

Lemma init_negative n l :
  n < 0 ∨ l < 0 → init obs0 act0 rew0 n l = inl ValueError.
Proof.
  intros H. unfold init, init_self, clear_buffer, bind, gets, lift, modify.
  simpl. unfold np_zeros2. by rewrite decide_True.
Qed.

Lemma fresh_shaped n l : 0 < n → 0 <= l → shaped (fresh obs0 act0 rew0 n l).
Proof.
  intros Hn Hl. split; simpl; try lia;
    by apply shape2_zeros; lia.
Qed.

Lemma fresh_padded n l : 0 <= l → padded act0 rew0 (fresh obs0 act0 rew0 n l).
Proof.
  intros Hl. split; simpl; apply Forall_replicate;
    apply lookup_replicate_2; lia.
Qed.

Lemma fresh_cursor n l : cursor_ok (fresh obs0 act0 rew0 n l).
Proof. done. Qed.

Lemma cursor_ok_step (b : buffer) (w : source) :
  shaped b → cursor_ok b → cursor_ok (step b w).
Proof.
  intros [HN _ _ _ _ _ _ _ Htop Hsize] Hc. unfold cursor_ok, step in *.
  simpl. case_decide; [|lia]. intros Hlt. rewrite Hc by done.
  apply Z.mod_small. lia.
Qed.

Lemma fresh_slot n l (j : nat) :
  (j < Z.to_nat n)%nat → slot (fresh obs0 act0 rew0 n l) j = Some (zero_window obs0 act0 rew0 l).
Proof.
  intros Hj. unfold slot, fresh. simpl.
  by rewrite !lookup_replicate_2 by done.
Qed.

(** The [k]-th window write of an episode: it finds a well-shaped slot
    under the cursor and leaves its [overlay] there. *)
Lemma kth_write (p : path) (b : buffer) k :
  shaped b → path_ok p →
  0 <= k <= Z.max (path_length p - _lookback b) 0 →
  shaped (after p k b)
  ∧ _lookback (after p k b) = _lookback b
  ∧ _max_size (after p k b) = _max_size b
  ∧ _top (after p k b) = (_top b + k) `mod` _max_size b
  ∧ write_window p (path_length p) k (after p k b)
    = (after p (k + 1) b, inr tt)
  ∧ ∃ old, slot (after p k b) (Z.to_nat (_top (after p k b))) = Some old
         ∧ window_shaped (_lookback b) old
         ∧ slot (after p (k + 1) b) (Z.to_nat (_top (after p k b)))
           = Some (overlay (_lookback b) p (path_length p) k old).
Proof.
  intros Hb Hp Hk.
  pose proof (path_length_bounds p Hp) as Hlen.
  assert (0 <= _lookback b) as Hl by (by destruct Hb).
  destruct (after_shaped p k b Hb Hp) as (Hsh & Hlk & Hnk & Htopk); [lia|].
  assert (source_ok (_lookback (after p k b)) (p, k)) as Hsrc.
  { rewrite Hlk. split; simpl; [done|lia|unfold extent; lia]. }
  destruct (write_window_step (p, k) _ Hsh Hsrc) as [Hw _]. simpl in Hw.
  rewrite after_succ by lia.
  split_and!; [done|done|done|rewrite Htopk; do 2 f_equal; lia|done|].
  destruct (shaped_slot (after p k b) (_top (after p k b)) Hsh)
    as (old & Hold & Hos); [by destruct Hsh|].
  rewrite Hlk in Hos. exists old. split_and!; [done|done|].
  rewrite <- Hlk. by apply slot_written_top.
Qed.

Lemma length_window_starts l (p : path) :
  len (window_starts l p) = Z.max (path_length p - l + 1) 1.
Proof.
  unfold window_starts, py_range, len. rewrite length_seqZ. lia.
Qed.

Lemma add_paths_after (ep : path_arrays) (b : buffer) :
  shaped b → arrays_ok ep →
  add_paths (OnePath ep) b
  = (after (split_path ep)
       (len (window_starts (_lookback b) (split_path ep))) b, inr tt).
Proof.
  intros Hb Hep. rewrite add_paths_one.
  rewrite add_path_steps by (done || by apply split_path_ok).
  unfold after, sources. do 3 f_equal.
  rewrite length_window_starts. unfold window_starts, py_range.
  f_equal. lia.
Qed.

(** C6, as the code has it.  Every window that [add_paths] writes for an
    episode, the [k]-th say, finds a slot [old] under the cursor and leaves
    a slot [w] such that: position 0 of the actions and of the rewards is
    zero; positions [1 .. end-strt] hold the slice of the episode from
    offset [k]; every later position is left as [old] had it. *)
Theorem add_paths_action_padding (ep : path_arrays) (b : buffer) k :
  shaped b → padded act0 rew0 b → arrays_ok ep →
  0 <= k < len (window_starts (_lookback b) (split_path ep)) →
  let p := split_path ep in
  let e := extent (_lookback b) (true_length ep) in
  ∃ old w,
    slot (after p k b) (Z.to_nat (_top (after p k b))) = Some old
    ∧ write_window p (true_length ep) k (after p k b)
      = (after p (k + 1) b, inr tt)
    ∧ slot (after p (k + 1) b) (Z.to_nat (_top (after p k b))) = Some w
    ∧ w_actions w !! 0%nat = Some act0
    ∧ w_rewards w !! 0%nat = Some rew0
    ∧ take (Z.to_nat e) (drop 1 (w_actions w)) = py_slice (actions ep) k (k + e)
    ∧ take (Z.to_nat e) (drop 1 (w_rewards w)) = py_slice (rewards ep) k (k + e)
    ∧ drop (1 + Z.to_nat e) (w_actions w) = drop (1 + Z.to_nat e) (w_actions old)
    ∧ drop (1 + Z.to_nat e) (w_rewards w)
      = drop (1 + Z.to_nat e) (w_rewards old).
Proof.
  intros Hb Hpad Hep Hk p e.
  pose proof (split_path_ok ep Hep) as Hp. fold p in Hp.
  pose proof (path_length_bounds p Hp) as Hlen.
  rewrite length_window_starts in Hk. fold p in Hk.
  assert (0 <= _lookback b) as Hl by (by destruct Hb).
  destruct (kth_write p b k Hb Hp) as (Hsh & Hlk & Hnk & Htopk & Hw & old & Hold
                                        & Hos & Hnew); [lia|].
  assert (padded act0 rew0 (after p k b)) as Hpadk by (by apply padded_steps).
  destruct (padded_slot _ _ _ Hpadk Hold) as [Ha0 Hr0].
  destruct Hos as [_ _ Hla Hlr _ _].
  assert (0 <= e) as He by (unfold e, extent, true_length; fold p; lia).
  assert (k + e <= len (p_actions p)) as Hend
    by (unfold e, extent, true_length; fold p; lia).
  assert (length (py_slice (actions ep) k (k + e)) = Z.to_nat e) as Hsa.
  { rewrite length_py_slice_in; [f_equal; lia|lia|done]. }
  assert (length (py_slice (rewards ep) k (k + e)) = Z.to_nat e) as Hsr.
  { rewrite length_py_slice_in; [f_equal; lia|lia|].
    destruct Hp as [_ _ Hpr _ _]. simpl in Hpr, Hend. lia. }
  exists old, (overlay (_lookback b) p (path_length p) k old).
  unfold overlay. fold (true_length ep). fold e. simpl.
  split_and!; [done|done|done| | | | | |].
  - by apply head_overwrite1.
  - by apply head_overwrite1.
  - rewrite <- Hsa at 1. apply take_drop1_overwrite1. unfold len in Hla. lia.
  - rewrite <- Hsr at 1. apply take_drop1_overwrite1. unfold len in Hlr. lia.
  - rewrite <- Hsa. apply drop_overwrite1. unfold len in Hla. lia.
  - rewrite <- Hsr. apply drop_overwrite1. unfold len in Hlr. lia.
Qed.

(** C4, as the code has it.  An episode of true length [T < L] makes
    [add_paths] write exactly one window, into the slot under the cursor and
    into no other: its mask is [T] ones followed by [L - T] zeros, its first
    [T] rows are the episode's, and its observation, next-observation and
    terminal rows from position [T] on are the rows that the slot held
    before the write; they are zero when the slot was a cleared one. *)
Theorem add_paths_short_episode (ep : path_arrays) (b : buffer) :
  shaped b → arrays_ok ep → true_length ep < _lookback b →
  let l := _lookback b in
  let t := true_length ep in
  let top := Z.to_nat (_top b) in
  window_starts l (split_path ep) = [0]
  ∧ ∃ b' old w,
      add_paths (OnePath ep) b = (b', inr tt)
      ∧ _top b' = (_top b + 1) `mod` _max_size b
      ∧ _size b' = Z.min (_size b + 1) (_max_size b)
      ∧ (∀ j, j ≠ top → slot b' j = slot b j)
      ∧ slot b top = Some old
      ∧ slot b' top = Some w
      ∧ w_masks w = replicate (Z.to_nat t) 1 ++ replicate (Z.to_nat (l - t)) 0
      ∧ take (Z.to_nat t) (w_observations w) = py_slice (observations ep) 0 t
      ∧ take (Z.to_nat t) (w_next_observations w)
        = py_slice (observations ep) 1 (t + 1)
      ∧ take (Z.to_nat t) (w_terminals w)
        = to_uint8 <$> py_slice (terminals ep) 0 t
      ∧ drop (Z.to_nat t) (w_observations w)
        = drop (Z.to_nat t) (w_observations old)
      ∧ drop (Z.to_nat t) (w_next_observations w)
        = drop (Z.to_nat t) (w_next_observations old)
      ∧ drop (Z.to_nat t) (w_terminals w)
        = drop (Z.to_nat t) (w_terminals old)
      ∧ (old = zero_window obs0 act0 rew0 l →
         drop (Z.to_nat t) (w_observations w)
         = replicate (Z.to_nat (l - t)) obs0
         ∧ drop (Z.to_nat t) (w_next_observations w)
           = replicate (Z.to_nat (l - t)) obs0
         ∧ drop (Z.to_nat t) (w_terminals w) = replicate (Z.to_nat (l - t)) 0).
Proof.
  intros Hb Hep Hlt l t top. subst l t top. unfold true_length in *.
  set (p := split_path ep) in *.
  pose proof (split_path_ok ep Hep) as Hp. fold p in Hp.
  pose proof (path_length_bounds p Hp) as Hlen.
  assert (window_starts (_lookback b) p = [0]) as Hstarts
    by (apply window_starts_short; lia).
  split; [done|].
  destruct (kth_write p b 0 Hb Hp) as (_ & _ & _ & _ & Hw & old & Hold & Hos
                                        & Hnew); [lia|].
  change (after p 0 b) with b in Hw, Hold, Hnew.
  change (after p (0 + 1) b) with (step b (p, 0)) in Hw, Hnew.
  assert (extent (_lookback b) (path_length p) = path_length p) as He
    by (unfold extent; lia).
  exists (step b (p, 0)), old, (overlay (_lookback b) p (path_length p) 0 old).
  destruct Hos as [Hlo Hln _ _ Hlt' _].
  pose proof Hep as [Heo Her Het Hem]. pose proof Hp as [Hpo Hpn Hpr Hpt Hpm].
  assert (len (p_actions p) = len (actions ep)) as Hact by done.
  assert (length (py_slice (p_observations p) 0 (path_length p))
          = Z.to_nat (path_length p)) as Hso.
  { rewrite length_py_slice_in by lia. f_equal. lia. }
  assert (length (py_slice (p_next_observations p) 0 (path_length p))
          = Z.to_nat (path_length p)) as Hsn.
  { rewrite length_py_slice_in by lia. f_equal. lia. }
  assert (length (to_uint8 <$> py_slice (p_terminals p) 0 (path_length p))
          = Z.to_nat (path_length p)) as Hst.
  { rewrite length_fmap, length_py_slice_in by lia. f_equal. lia. }
  assert (py_slice (p_observations p) 0 (path_length p)
          = py_slice (observations ep) 0 (path_length p)) as Hobs
    by (apply slice_observations; lia).
  assert (py_slice (p_next_observations p) 0 (path_length p)
          = py_slice (observations ep) 1 (path_length p + 1)) as Hnxt
    by (apply (slice_next_observations ep 0); lia).
  unfold overlay. rewrite He. cbn [w_observations w_next_observations
    w_terminals w_masks]. rewrite !Z.add_0_l.
  assert (drop (Z.to_nat (path_length p))
            (overwrite 0 (py_slice (p_observations p) 0 (path_length p))
               (w_observations old))
          = drop (Z.to_nat (path_length p)) (w_observations old)) as Hdo.
  { rewrite <- Hso. apply drop_overwrite0. }
  assert (drop (Z.to_nat (path_length p))
            (overwrite 0 (py_slice (p_next_observations p) 0 (path_length p))
               (w_next_observations old))
          = drop (Z.to_nat (path_length p)) (w_next_observations old)) as Hdn.
  { rewrite <- Hsn. apply drop_overwrite0. }
  assert (drop (Z.to_nat (path_length p))
            (overwrite 0 (to_uint8 <$> py_slice (p_terminals p) 0 (path_length p))
               (w_terminals old))
          = drop (Z.to_nat (path_length p)) (w_terminals old)) as Hdt.
  { rewrite <- Hst. apply drop_overwrite0. }
  split_and!; try done.
  - rewrite add_paths_one. fold p. rewrite add_path_steps by done.
    unfold sources. by rewrite Hstarts.
  - pose proof (shaped_size b Hb). simpl. case_decide; lia.
  - intros j Hj. by apply slot_written_other.
  - rewrite Hnew. unfold overlay. rewrite He. by rewrite !Z.add_0_l.
  - rewrite <- Hobs. rewrite <- Hso at 1. apply take_overwrite0.
  - rewrite <- Hnxt. rewrite <- Hsn at 1. apply take_overwrite0.
  - rewrite <- Hst at 1. apply take_overwrite0.
  - intros ->. rewrite Hdo, Hdn, Hdt. simpl.
    rewrite !drop_replicate. split_and!; f_equal; lia.
Qed.

(** ** Masks *)

Lemma mask_row_no_one_after_zero row (i j : nat) :
  mask_row_ok row → (i < j)%nat → row !! i = Some 0 → row !! j ≠ Some 1.
Proof.
  intros (ones & zeros & ->) Hij Hi Hj.
  destruct (decide (i < ones)%nat) as [Hlt|Hge].
  - rewrite lookup_app_l in Hi by (rewrite length_replicate; lia).
    apply lookup_replicate in Hi as [Hi _]. done.
  - rewrite lookup_app_r in Hj by (rewrite length_replicate; lia).
    apply lookup_replicate in Hj as [Hj _]. done.
Qed.

Lemma masks_ok_step (b : buffer) (w : source) : masks_ok b → masks_ok (step b w).
Proof.
  intros Hb. unfold masks_ok, step, written. simpl.
  apply Forall_alter; [done|]. intros row _ _. by eexists _, _.
Qed.

Lemma masks_ok_steps (ws : list source) (b : buffer) :
  masks_ok b → masks_ok (foldl step b ws).
Proof.
  revert b. induction ws as [|w ws IH]; intros b Hb; [done|].
  simpl. by apply IH, masks_ok_step.
Qed.

Lemma fresh_masks_ok n l : masks_ok (fresh obs0 act0 rew0 n l).
Proof.
  unfold masks_ok. simpl. apply Forall_replicate.
  by exists 0%nat, (Z.to_nat l).
Qed.

(** C5. Every window that [add_paths] writes for an episode, whatever mask
    is supplied, leaves under the cursor a mask of [end - strt] ones
    followed by zeros up to the lookback: within it a one never comes after
    a zero.  All mask rows of the ring stay of this form. *)
Theorem add_paths_mask_prefix (ep : path_arrays) (b : buffer) k :
  shaped b → masks_ok b → arrays_ok ep →
  0 <= k < len (window_starts (_lookback b) (split_path ep)) →
  let p := split_path ep in
  let e := extent (_lookback b) (true_length ep) in
  ∃ w,
    write_window p (true_length ep) k (after p k b)
    = (after p (k + 1) b, inr tt)
    ∧ slot (after p (k + 1) b) (Z.to_nat (_top (after p k b))) = Some w
    ∧ w_masks w
      = replicate (Z.to_nat e) 1 ++ replicate (Z.to_nat (_lookback b - e)) 0
    ∧ (∀ i j : nat, (i < j)%nat →
         w_masks w !! i = Some 0 → w_masks w !! j ≠ Some 1)
    ∧ masks_ok (after p (k + 1) b).
Proof.
  intros Hb Hm Hep Hk p e.
  pose proof (split_path_ok ep Hep) as Hp. fold p in Hp.
  rewrite length_window_starts in Hk. fold p in Hk.
  destruct (kth_write p b k Hb Hp) as (_ & _ & _ & _ & Hw & old & _ & _ & Hnew);
    [lia|].
  exists (overlay (_lookback b) p (path_length p) k old).
  split_and!; [done|done|done| |by apply masks_ok_steps].
  intros i j Hij. apply mask_row_no_one_after_zero; [|done].
  by eexists _, _.
Qed.

(** ** The ring *)

Lemma overlay_stores l (src : source) (old : window) :
  0 <= l → source_ok l src → window_shaped l old →
  w_actions old !! 0%nat = Some act0 → w_rewards old !! 0%nat = Some rew0 →
  stores act0 rew0 l src (overlay l src.1 (path_length src.1) src.2 old).
Proof.
  intros Hl [Hp Hs Hend] [Hlo Hln Hla Hlr Hlt Hlm] Ha0 Hr0.
  destruct (path_slices_ok l src.1 src.2 Hp Hl Hs Hend)
    as [He Hsa Hsr Hso Hsn Hst _].
  unfold stores, overlay. simpl. split_and!.
  - rewrite <- Hso at 1. apply take_overwrite0.
  - rewrite <- Hsn at 1. apply take_overwrite0.
  - by apply head_overwrite1.
  - rewrite <- Hsa at 1. apply take_drop1_overwrite1. unfold len in Hla. lia.
  - by apply head_overwrite1.
  - rewrite <- Hsr at 1. apply take_drop1_overwrite1. unfold len in Hlr. lia.
  - rewrite <- Hst at 1. rewrite <- (length_fmap to_uint8).
    apply take_overwrite0.
  - done.
Qed.

Lemma mod_apart n i m : 0 < n → i < m → m - n < i → i `mod` n ≠ m `mod` n.
Proof.
  intros Hn Him Hmi Heq.
  assert ((m - i) `mod` n = 0) as H0.
  { rewrite Zminus_mod, Heq, Z.sub_diag. by apply Z.mod_0_l, Z.neq_sym, Z.lt_neq. }
  rewrite Z.mod_small in H0 by lia. lia.
Qed.

Lemma ring_fresh n l : 0 < n → 0 <= l → ring_inv act0 rew0 [] (fresh obs0 act0 rew0 n l).
Proof.
  intros Hn Hl. split.
  - by apply fresh_shaped.
  - by apply fresh_padded.
  - simpl. by rewrite Z.mod_0_l by lia.
  - simpl. unfold len. simpl. lia.
  - intros i src Hi. done.
Qed.

Lemma ring_step (log : list source) (b : buffer) (src : source) :
  ring_inv act0 rew0 log b → source_ok (_lookback b) src →
  ring_inv act0 rew0 (log ++ [src]) (step b src).
Proof.
  intros [Hb Hpad Htop Hsize Hslots] Hsrc.
  pose proof Hb as [HN HL _ _ _ _ _ _ Htopb Hsz].
  assert (len (log ++ [src]) = len log + 1) as Hlen.
  { unfold len. rewrite length_app. simpl. lia. }
  split.
  - by apply write_window_step.
  - by apply padded_step.
  - simpl. rewrite Htop, Hlen. by rewrite Zplus_mod_idemp_l.
  - simpl. rewrite Hsize, Hlen. case_decide; lia.
  - intros i src' Hi Hrecent. rewrite step_lookback, step_max_size in *.
    rewrite Hlen in Hrecent.
    destruct (decide (i = length log)) as [->|Hne].
    + rewrite list_lookup_middle in Hi by done. injection Hi as <-.
      fold (len log). rewrite <- Htop.
      destruct (shaped_slot b (_top b) Hb Htopb) as (old & Hold & Hos).
      destruct (padded_slot _ _ _ Hpad Hold) as [Ha0 Hr0].
      exists (overlay (_lookback b) src.1 (path_length src.1) src.2 old).
      split; [by apply slot_written_top|by apply overlay_stores].
    + apply lookup_lt_Some in Hi as Hlt.
      rewrite length_app in Hlt. simpl in Hlt.
      rewrite lookup_app_l in Hi by lia.
      destruct (Hslots i src' Hi) as (w & Hw & Hst); [unfold len in *; lia|].
      exists w. split; [|done].
      unfold step. rewrite slot_written_other; [done|].
      rewrite Htop. intros Heq.
      apply (mod_apart (_max_size b) (Z.of_nat i) (len log)); [done| | |].
      * unfold len. lia.
      * unfold len in *. lia.
      * pose proof (Z.mod_pos_bound (Z.of_nat i) (_max_size b) HN).
        pose proof (Z.mod_pos_bound (len log) (_max_size b) HN). lia.
Qed.

Lemma ring_steps l (ws log : list source) (b : buffer) :
  ring_inv act0 rew0 log b → _lookback b = l → Forall (source_ok l) ws →
  ring_inv act0 rew0 (log ++ ws) (foldl step b ws).
Proof.
  intros Hb Hl Hws. revert log b Hb Hl.
  induction Hws as [|w ws Hw _ IH]; intros log b Hb Hl.
  - by rewrite app_nil_r.
  - simpl. rewrite (cons_middle w log ws), app_assoc.
    apply IH; [|done]. apply ring_step; [done|]. by rewrite Hl.
Qed.

(** ** What a slot holds, row for row *)

Lemma writes_steps l (ws : list source) (b : buffer) :
  shaped b → _lookback b = l → Forall (source_ok l) ws →
  writes ws b = (foldl step b ws, inr tt).
Proof.
  intros Hb Hl Hws. unfold writes.
  destruct (for_foldl ws (λ src, write_window src.1 (path_length src.1) src.2)
              step (λ b, shaped b ∧ _lookback b = l) (source_ok l) Hws)
    with (b := b) as [Hrun _]; [|done|done].
  intros src b0 Hsrc [Hb0 Hl0]. rewrite <- Hl0 in Hsrc.
  destruct (write_window_step src b0 Hb0 Hsrc) as [Hrun Hsh].
  by split_and!.
Qed.

(** After the windows of [log] have been written into a constructed ring,
    a slot below the size was last written by the newest window [i] of its
    index modulo the capacity, and holds that window laid over what the slot
    held before write [i]: the zeros of the constructor when [i] is the
    first write to the slot, and otherwise a slot that stored window
    [i - n], the one that write [i] evicted. *)
Lemma written_slot n l (log : list source) (d : Z) :
  0 < n → 0 <= l → Forall (source_ok l) log →
  0 <= d < Z.min (len log) n →
  ∃ (i : Z) src (b_i : buffer) old,
    Z.max 0 (len log - n) <= i < len log ∧ i `mod` n = d
    ∧ log !! Z.to_nat i = Some src
    ∧ writes (take (Z.to_nat i) log) (fresh obs0 act0 rew0 n l) = (b_i, inr tt)
    ∧ slot b_i (Z.to_nat d) = Some old
    ∧ slot (foldl step (fresh obs0 act0 rew0 n l) log) (Z.to_nat d)
      = Some (overlay l src.1 (path_length src.1) src.2 old)
    ∧ stores act0 rew0 l src (overlay l src.1 (path_length src.1) src.2 old)
    ∧ (i < n → old = zero_window obs0 act0 rew0 l)
    ∧ (n <= i →
         ∃ src', log !! Z.to_nat (i - n) = Some src'
               ∧ stores act0 rew0 l src' old).
Proof.
  intros Hn Hl Hok Hd.
  remember (Z.max 0 (len log - n)) as k eqn:Hk.
  remember (k + (d - k) `mod` n) as i eqn:Hi.
  pose proof (Z.mod_pos_bound (d - k) n Hn) as Hmod.
  assert (i `mod` n = d) as Hid.
  { subst i. rewrite Zplus_mod_idemp_r.
    replace (k + (d - k)) with d by lia. apply Z.mod_small. lia. }
  assert (k <= i < len log) as Hrange.
  { split; [lia|]. destruct (decide (len log <= n)) as [Hle|Hgt]; [|lia].
    assert (k = 0) as -> by lia. rewrite Z.sub_0_r, Z.add_0_l in Hi.
    rewrite Z.mod_small in Hi by lia. lia. }
  destruct (lookup_lt_is_Some_2 log (Z.to_nat i)) as [src Hsrc].
  { unfold len in Hrange. lia. }
  remember (take (Z.to_nat i) log) as pre eqn:Hpre.
  remember (drop (S (Z.to_nat i)) log) as post eqn:Hpost.
  assert (log = pre ++ src :: post) as Hlog.
  { subst pre post. by rewrite take_drop_middle. }
  assert (len pre = i) as Hlen_pre.
  { subst pre. unfold len in *. rewrite length_take. lia. }
  assert (len post = len log - i - 1) as Hlen_post.
  { subst post. unfold len in *. rewrite length_drop. lia. }
  assert (Forall (source_ok l) pre) as Hok_pre by (subst pre; by apply Forall_take).
  assert (source_ok l src) as Hok_src by (by eapply (Forall_lookup_1 _ _ _ _ Hok)).
  pose proof (ring_steps l pre [] (fresh obs0 act0 rew0 n l)
                (ring_fresh n l Hn Hl) eq_refl Hok_pre)
    as [Hb Hpad Htop _ Hslots].
  destruct (foldl_step_fixed pre (fresh obs0 act0 rew0 n l)) as (Hlb & Hnb & _).
  simpl in Hlb, Hnb, Htop, Hslots.
  remember (foldl step (fresh obs0 act0 rew0 n l) pre) as b_i eqn:Hb_i.
  rewrite Hnb, Hlen_pre, Hid in Htop.
  destruct (shaped_slot b_i d Hb) as (old & Hold & Hshape); [lia|].
  rewrite Hlb in Hshape.
  exists i, src, b_i, old. rewrite <- Hpre.
  split_and!; [lia|lia|done|done| |done| | | |].
  - rewrite Hb_i. apply (writes_steps l); [by apply fresh_shaped|done|done].
  - rewrite Hlog, foldl_app. simpl. rewrite <- Hb_i.
    rewrite steps_frame.
    + unfold step. simpl. rewrite <- Htop, <- Hlb.
      apply slot_written_top. by rewrite Htop.
    + simpl. rewrite Hnb. apply Z.mod_pos_bound. lia.
    + simpl. rewrite Hnb, Htop, Hlen_post. intros k' Hk'.
      rewrite Zplus_mod_idemp_l.
      rewrite Z2Nat.id by lia. rewrite <- Hid at 2.
      rewrite <- Hid at 1. rewrite <- Z.add_assoc, Zplus_mod_idemp_l.
      apply not_eq_sym, mod_apart; lia.
  - apply overlay_stores; try done; by eapply padded_slot.
  - intros Hin.
    assert (d = i) as Hdi by (rewrite <- Hid; apply Z.mod_small; lia).
    rewrite Hb_i, steps_frame in Hold.
    + rewrite fresh_slot in Hold by lia. by injection Hold as <-.
    + simpl. lia.
    + simpl. intros k' Hk'. rewrite Z.add_0_l, Z.mod_small by lia. lia.
  - intros Hin.
    destruct (lookup_lt_is_Some_2 log (Z.to_nat (i - n))) as [src' Hsrc'].
    { unfold len in Hrange. lia. }
    exists src'. split; [done|].
    destruct (Hslots (Z.to_nat (i - n)) src') as (w & Hw & Hst).
    { subst pre. rewrite lookup_take_lt by lia. done. }
    { rewrite Hnb. lia. }
    rewrite Hnb, Hlb in *. rewrite Z2Nat.id in Hw by lia.
    replace (i - n) with (i + (-1) * n) in Hw by lia.
    rewrite Z.mod_add, Hid in Hw by lia.
    rewrite Hold in Hw. by injection Hw as <-.
Qed.

Lemma written_slot_holds n l (log : list source) (d : Z) :
  0 < n → 0 <= l → Forall (source_ok l) log →
  0 <= d < Z.min (len log) n →
  ∃ w, slot (foldl step (fresh obs0 act0 rew0 n l) log) (Z.to_nat d) = Some w
     ∧ slot_holds obs0 act0 rew0 n l log d w.
Proof.
  intros Hn Hl Hok Hd.
  destruct (written_slot n l log d Hn Hl Hok Hd)
    as (i & src & b_i & old & Hi & Hid & Hsrc & Hrun & Hold & Hslot & Hst
        & Hzero & Hevicted).
  eexists. split; [done|]. exists i, src, b_i, old.
  destruct Hi. by split_and!.
Qed.

(** A slot that no write has reached is as the constructor left it. *)
Lemma unwritten_slot n l (log : list source) (d : Z) :
  0 < n → len log <= d < n →
  slot (foldl step (fresh obs0 act0 rew0 n l) log) (Z.to_nat d)
  = Some (zero_window obs0 act0 rew0 l).
Proof.
  intros Hn Hd. pose proof (len_nonneg log) as Hlen.
  rewrite steps_frame.
  - apply fresh_slot. lia.
  - simpl. lia.
  - simpl. intros k Hk. rewrite Z.add_0_l, Z.mod_small by lia. lia.
Qed.

(** The windows of a batch drawn from a well-formed buffer are the slots at
    the indices drawn. *)
Lemma sample_batch_draws rnd c (b : buffer) :
  shaped b → 0 < c → 0 < _size b →
  ∃ bt, sample_batch rnd c b = (b, inr bt)
      ∧ len (b_observations bt) = c
      ∧ ∀ j : nat, Z.of_nat j < c →
          ∃ d w, draws rnd (_size b) c !! j = Some d ∧ 0 <= d < _size b
               ∧ slot b (Z.to_nat d) = Some w ∧ batch_window bt j = Some w.
Proof.
  intros Hb Hc Hsize.
  destruct (sample_batch_slots rnd c b Hb Hc Hsize) as (bt & Hbt & Hlen & Hwin).
  exists bt. split_and!; [done|done|]. intros j Hj.
  destruct (lookup_lt_is_Some_2 (draws rnd (_size b) c) j) as [d Hd];
    [rewrite length_draws; lia|].
  pose proof Hd as Hd'. apply draws_lookup in Hd' as (Hrange & _ & _); [|lia].
  pose proof Hb as [_ _ _ _ _ _ _ _ _ Hsz].
  destruct (shaped_slot b d Hb) as (w & Hw & _); [lia|].
  exists d, w. split_and!; [done|lia|lia|done|]. by rewrite (Hwin j d).
Qed.

(** ** Sequences of ingestions *)

Lemma ingests_one (ep : path_arrays) :
  arrays_ok ep → ingests (OnePath ep) [split_path ep].
Proof.
  intros Hep. unfold ingests. simpl.
  constructor; [|constructor].
  split; [apply get_path_newaxis|by apply split_path_ok].
Qed.

Lemma ingests_batch (eps : list path_arrays) :
  Forall arrays_ok eps → Forall (λ ep, masks ep = None) eps →
  ingests (Batch (stack eps)) (split_path <$> eps).
Proof.
  intros Hok Hnone. unfold ingests. simpl.
  apply Forall2_same_length_lookup_2.
  - unfold py_range, len. rewrite length_seqZ, !length_fmap. lia.
  - intros i pidx p Hpidx Hp.
    apply lookup_seqZ in Hpidx as [-> Hi].
    rewrite list_lookup_fmap in Hp.
    destruct (eps !! i) as [ep|] eqn:Hep; [|done]. injection Hp as <-.
    split; [|apply split_path_ok; by eapply (Forall_lookup_1 _ _ _ _ Hok)].
    unfold get_path, stack. simpl.
    rewrite (py_index_in _ (0 + Z.of_nat i) (observations ep))
      by (lia || by rewrite Z.add_0_l, Nat2Z.id, list_lookup_fmap, Hep).
    rewrite (py_index_in _ (0 + Z.of_nat i) (actions ep))
      by (lia || by rewrite Z.add_0_l, Nat2Z.id, list_lookup_fmap, Hep).
    rewrite (py_index_in _ (0 + Z.of_nat i) (rewards ep))
      by (lia || by rewrite Z.add_0_l, Nat2Z.id, list_lookup_fmap, Hep).
    rewrite (py_index_in _ (0 + Z.of_nat i) (terminals ep))
      by (lia || by rewrite Z.add_0_l, Nat2Z.id, list_lookup_fmap, Hep).
    unfold split_path. by rewrite (Forall_lookup_1 _ _ _ _ Hnone Hep).
Qed.

Lemma windows_of_ok l (ps : list path) :
  0 <= l → Forall path_ok ps → Forall (source_ok l) (windows_of l ps).
Proof.
  intros Hl Hps. unfold windows_of. apply Forall_concat, Forall_fmap.
  eapply Forall_impl; [done|]. intros p Hp. by apply sources_ok.
Qed.

Lemma for_paths_steps (arrs : paths_arrays Obs Act Rew) (idxs : list Z)
    (ps : list path) (b : buffer) :
  shaped b →
  Forall2 (λ pidx p, get_path arrs pidx = inr p ∧ path_ok p) idxs ps →
  for_ idxs (λ pidx, bind (lift (get_path arrs pidx)) add_path) b
  = (foldl step b (windows_of (_lookback b) ps), inr tt).
Proof.
  intros Hb Hps. revert b Hb.
  induction Hps as [|pidx p idxs ps [Hget Hp] _ IH]; intros b Hb; [done|].
  simpl. unfold bind at 1. unfold bind at 1. unfold lift. rewrite Hget.
  rewrite add_path_steps by done.
  assert (shaped (foldl step b (sources (_lookback b) p))) as Hb'.
  { apply (steps_shaped (_lookback b)); [done|done|].
    apply sources_ok; [done|]. by destruct Hb. }
  rewrite IH by done.
  destruct (foldl_step_fixed (sources (_lookback b) p) b) as (-> & _ & _).
  unfold windows_of. simpl. by rewrite foldl_app.
Qed.

Lemma add_paths_steps (arg : paths_arg) (ps : list path) (b : buffer) :
  shaped b → ingests arg ps →
  add_paths arg b = (foldl step b (windows_of (_lookback b) ps), inr tt).
Proof.
  intros Hb Hps. unfold add_paths. by apply for_paths_steps.
Qed.

Lemma ingests_paths_ok (arg : paths_arg) (ps : list path) :
  ingests arg ps → Forall path_ok ps.
Proof.
  unfold ingests. induction 1 as [|???? [_ ?]]; by constructor.
Qed.

(** A sequence of [add_paths] calls is the sequence of the window writes
    of all its paths. *)
Lemma ingestions_steps (calls : list paths_arg) (pss : list (list path))
    (b : buffer) :
  shaped b → Forall2 ingests calls pss →
  for_ calls add_paths b
  = (foldl step b (windows_of (_lookback b) (concat pss)), inr tt).
Proof.
  intros Hb Hcalls. revert b Hb.
  induction Hcalls as [|arg ps calls pss Harg _ IH]; intros b Hb; [done|].
  simpl. unfold bind at 1. rewrite (add_paths_steps arg ps) by done.
  assert (shaped (foldl step b (windows_of (_lookback b) ps))) as Hb'.
  { apply (steps_shaped (_lookback b)); [done|done|].
    apply windows_of_ok; [by destruct Hb|by eapply ingests_paths_ok]. }
  rewrite IH by done.
  destruct (foldl_step_fixed (windows_of (_lookback b) ps) b) as (-> & _ & _).
  unfold windows_of. by rewrite fmap_app, concat_app, foldl_app.
Qed.

(** C2, as the code has it.  A buffer of capacity [n] is constructed, and a
    sequence of [add_paths] calls then writes [n + k] windows, [k > 0].  No
    call raises;
    afterwards the size is [n] and the cursor is [(n + k) mod n].  Every
    slot [j] was last written by one of the [n] most recent windows, the
    window [i] with [k <= i < n + k] and [i mod n = j], and holds, row for
    row, that window laid over what the slot held before write [i]: the
    mask and the rows inside the extent of window [i] are its own, so the
    rows that the masks of the [k] oldest windows marked as real are gone
    where a newer window covers them; the rows past the extent are not
    written, and are those of the slot before, which stored the evicted
    window [i - n] when [i >= n].  Every window of every batch that
    [sample_batch] then draws is one of these [n] slots, whole: rows of
    evicted windows that lie past the extent of the newer window are
    returned with it, under a mask of zero. *)
Theorem ring_overwrite (n l k : Z) (calls : list paths_arg)
    (pss : list (list path)) :
  0 < n → 0 <= l → 0 < k →
  Forall2 ingests calls pss →
  let log := windows_of l (concat pss) in
  len log = n + k →
  ∃ b0 b,
    init obs0 act0 rew0 n l = inr b0
    ∧ for_ calls add_paths b0 = (b, inr tt)
    ∧ _size b = n
    ∧ _top b = (n + k) `mod` n
    ∧ (∀ j, 0 <= j < n →
         ∃ w, slot b (Z.to_nat j) = Some w
            ∧ slot_holds obs0 act0 rew0 n l log j w
            ∧ ∃ i src, k <= i < n + k ∧ i `mod` n = j
                     ∧ log !! Z.to_nat i = Some src
                     ∧ stores act0 rew0 l src w)
    ∧ (∀ rnd m, 0 < m →
         ∃ bt, sample_batch rnd m b = (b, inr bt)
             ∧ len (b_observations bt) = m
             ∧ ∀ j : nat, Z.of_nat j < m →
                 ∃ d w, draws rnd n m !! j = Some d ∧ 0 <= d < n
                      ∧ slot b (Z.to_nat d) = Some w
                      ∧ batch_window bt j = Some w
                      ∧ slot_holds obs0 act0 rew0 n l log d w
                      ∧ ∃ i src, k <= i < n + k ∧ i `mod` n = d
                               ∧ log !! Z.to_nat i = Some src
                               ∧ stores act0 rew0 l src w).
Proof.
  intros Hn Hl Hk Hcalls log Hlog.
  pose proof (fresh_shaped n l Hn Hl) as Hb0.
  assert (Forall (source_ok l) log) as Hok.
  { apply windows_of_ok; [done|]. apply Forall_concat.
    clear -Hcalls. induction Hcalls as [|???? Harg]; constructor; [|done].
    by eapply ingests_paths_ok. }
  pose proof (ring_steps l log [] (fresh obs0 act0 rew0 n l) (ring_fresh n l Hn Hl) eq_refl Hok)
    as [Hb Hpad Htop Hsize Hslots].
  destruct (foldl_step_fixed log (fresh obs0 act0 rew0 n l)) as (Hlb & Hnb & _).
  simpl in Hlb, Hnb, Htop, Hsize, Hslots. rewrite Hnb in *. rewrite Hlb in *.
  assert (∀ j, 0 <= j < n →
            ∃ w, slot (foldl step (fresh obs0 act0 rew0 n l) log) (Z.to_nat j)
                 = Some w
               ∧ slot_holds obs0 act0 rew0 n l log j w
               ∧ ∃ i src, k <= i < n + k ∧ i `mod` n = j
                        ∧ log !! Z.to_nat i = Some src
                        ∧ stores act0 rew0 l src w) as Hevery.
  { intros j Hj.
    destruct (written_slot_holds n l log j Hn Hl Hok) as (w & Hw & Hholds);
      [lia|].
    exists w. split_and!; [done|done|].
    destruct Hholds as (i & src & _ & _ & Hi & Hij & Hsrc & _ & _ & _ & Hst & _).
    exists i, src. split_and!; (done || lia). }
  exists (fresh obs0 act0 rew0 n l), (foldl step (fresh obs0 act0 rew0 n l) log).
  split_and!.
  - by apply init_fresh; lia.
  - by rewrite (ingestions_steps calls pss).
  - lia.
  - by rewrite Htop, Hlog.
  - done.
  - intros rnd m Hm.
    destruct (sample_batch_draws rnd m _ Hb Hm) as (bt & Hbt & Hlen & Hwin);
      [lia|].
    exists bt. split_and!; [done|done|]. intros j Hj.
    destruct (Hwin j Hj) as (d & w & Hd & Hrange & Hw & Hbw).
    rewrite Hsize in Hd, Hrange.
    replace (Z.min (len log) n) with n in Hd, Hrange by lia.
    destruct (Hevery d Hrange) as (w' & Hw' & Hholds & Hsrc).
    rewrite Hw in Hw'. injection Hw' as <-.
    exists d, w. split_and!; (done || lia).
Qed.

(** ** Sampling from an empty buffer *)

Lemma column0_in (ws : list (list Obs)) :
  Forall (λ row, 0 < len row) ws → ∃ st, column0 ws = inr st ∧ length st = length ws.
Proof.
  induction 1 as [|row ws Hrow _ (st & Hst & Hlen)].
  - by exists [].
  - destruct row as [|x row]; [unfold len in Hrow; simpl in Hrow; lia|].
    exists (x :: st). simpl. rewrite Hst. split; [done|simpl; lia].
Qed.

Lemma sample_batch_none rnd (b : buffer) :
  sample_batch rnd 0 b = (b, inr (BatchOf [] [] [] [] [] [])).
Proof. done. Qed.

(** C7, as the code has it.  For a sample count of at least one, on a
    well-shaped buffer: when the size is 0, [sample_batch] and the base
    [sample_starts] raise [ValueError] (the draw from an empty range) and
    leave the buffer as it was; when the size is positive, [sample_batch]
    returns a batch of that many windows, and [sample_starts] returns that
    many observations provided the lookback is at least one.  A sample
    count of 0 makes [sample_batch] return the empty batch whatever the size
    is. *)
Theorem sample_empty_iff (rnd : nat → Z) (n : Z) (b : buffer) :
  shaped b → 0 < n →
  (_size b = 0 →
     sample_batch rnd n b = (b, inl ValueError)
     ∧ sample_starts rnd n b = (b, inl ValueError))
  ∧ (0 < _size b →
       (∃ bt, sample_batch rnd n b = (b, inr bt) ∧ len (b_observations bt) = n)
       ∧ (0 < _lookback b →
            ∃ st, sample_starts rnd n b = (b, inr st) ∧ len st = n))
  ∧ sample_batch rnd 0 b = (b, inr (BatchOf [] [] [] [] [] [])).
Proof.
  intros Hb Hn. split; [|split; [|reflexivity]].
  - intros Hsize. unfold sample_batch, sample_starts, bind, gets, lift.
    rewrite Hsize. by rewrite randint_empty_range by lia.
  - intros Hsize. split.
    + destruct (sample_batch_slots rnd n b Hb Hn Hsize) as (bt & Hbt & Hlen & _).
      by exists bt.
    + intros Hl. pose proof Hb as [HN _ Ho _ _ _ _ _ _ Hsz].
      destruct (gather_in (_observations b) (draws rnd (_size b) n))
        as (ws & Hws & Hlen & Hlook).
      { apply Forall_lookup_2. intros j i Hj.
        apply draws_lookup in Hj; [|done]. destruct Ho as [-> _]. lia. }
      destruct (column0_in ws) as (st & Hst & Hlst).
      { apply Forall_lookup_2. intros j row Hrow.
        apply lookup_lt_Some in Hrow as Hj. rewrite Hlen in Hj.
        destruct (lookup_lt_is_Some_2 _ _ Hj) as [i Hi].
        rewrite (Hlook j i Hi) in Hrow.
        destruct Ho as [_ Ho]. rewrite (Forall_lookup_1 _ _ _ _ Ho Hrow). done. }
      exists st. unfold sample_starts, bind, gets, lift.
      rewrite randint_draws by done. rewrite Hws.
      unfold first_rows. rewrite index_pos_in by lia. rewrite Hst.
      split; [done|]. unfold len. rewrite Hlst, Hlen, length_draws. lia.
Qed.

(** C8. [add_step] raises [NotImplementedError] whatever its arguments and
    the state are, and the state it leaves is the state it found. *)
Theorem add_step_rejected (obs nxt : Obs) (act : Act) (rew : Rew)
    (terminal : Z) (b : buffer) :
  add_step obs nxt act rew terminal b = (b, inl NotImplementedError).
Proof. reflexivity. Qed.

(** ** The retained start states *)

Lemma keeps_ret {A} (a : A) : keeps_starts (ret a : M Obs Act Rew A).
Proof. done. Qed.

Lemma keeps_raise {A} e : keeps_starts (raise e : M Obs Act Rew A).
Proof. done. Qed.

Lemma keeps_lift {A} (r : exn + A) : keeps_starts (lift r : M Obs Act Rew A).
Proof. done. Qed.

Lemma keeps_gets {A} (f : buffer → A) : keeps_starts (gets f).
Proof. done. Qed.

Lemma keeps_modify (f : buffer → buffer) :
  (∀ b, _starts (f b) = _starts b) → keeps_starts (modify f).
Proof. intros Hf b. apply Hf. Qed.

Lemma keeps_bind {A B} (m : M Obs Act Rew A) (k : A → M Obs Act Rew B) :
  keeps_starts m → (∀ a, keeps_starts (k a)) → keeps_starts (bind m k).
Proof.
  intros Hm Hk b. unfold bind. specialize (Hm b).
  destruct (m b) as [b' [e|a]]; simpl in *; [done|].
  by rewrite Hk.
Qed.

Lemma keeps_for {X} (xs : list X) (body : X → M Obs Act Rew unit) :
  (∀ x, keeps_starts (body x)) → keeps_starts (for_ xs body).
Proof.
  intros Hbody. induction xs as [|x xs IH]; [done|].
  simpl. apply keeps_bind; [done|]. by intros _.
Qed.

Ltac keeps :=
  repeat first
    [ apply keeps_bind; [|intros ?]
    | apply keeps_for; intros ?
    | apply keeps_modify; intros ?; reflexivity
    | apply keeps_gets | apply keeps_lift | apply keeps_ret | apply keeps_raise
    | case_decide ].

Lemma keeps__advance : keeps_starts (_advance : M Obs Act Rew unit).
Proof. unfold _advance. keeps. Qed.

Lemma keeps_write_window (p : path) length strt :
  keeps_starts (write_window p length strt).
Proof. unfold write_window. keeps; apply keeps__advance. Qed.

Lemma keeps_add_path (p : path) : keeps_starts (add_path p).
Proof. unfold add_path. keeps; apply keeps_write_window. Qed.

Lemma keeps_add_paths (arg : paths_arg) : keeps_starts (add_paths arg).
Proof. unfold add_paths. keeps; apply keeps_add_path. Qed.

Lemma keeps_clear_buffer : keeps_starts (clear_buffer obs0 act0 rew0).
Proof. unfold clear_buffer. keeps. Qed.

Lemma keeps_sample_batch rnd n :
  keeps_starts (sample_batch rnd n : M Obs Act Rew batch).
Proof. unfold sample_batch. keeps. Qed.

Lemma keeps_sample_starts rnd n :
  keeps_starts (sample_starts rnd n : M Obs Act Rew (list Obs)).
Proof. unfold sample_starts. keeps. Qed.

Lemma keeps_offline_sample_starts rnd n :
  keeps_starts (offline_sample_starts rnd n : M Obs Act Rew (list Obs)).
Proof.
  unfold offline_sample_starts. apply keeps_bind; [apply keeps_gets|].
  intros [starts|]; keeps.
Qed.

(** The constructor of the offline buffer retains the whole flat
    [observations] array of the dataset. *)
Lemma offline_init_starts (parse : dataset → list dataset) (data : dataset)
    l (b : buffer) :
  offline_init obs0 act0 rew0 parse data l = inr b →
  _starts b = Some (d_observations data).
Proof.
  unfold offline_init, offline_init_self. unfold bind at 1.
  destruct (init_self _ _ _ _ _ blank) as [b1 [e|[]]]; [done|].
  unfold bind at 1. unfold modify at 1.
  match goal with |- context [for_ ?xs ?body ?b2] =>
    pose proof (keeps_for xs body) as Hkeep; specialize (Hkeep ltac:(
      intros tr; apply keeps_bind; [apply keeps_lift|];
      intros ?; apply keeps_add_paths) b2);
    destruct (for_ xs body b2) as [b3 [e|[]]]
  end; [done|].
  intros [= <-]. simpl in Hkeep. by rewrite Hkeep.
Qed.

(** C9, as the code has it.  The offline constructor retains in [_starts]
    the flat [observations] array of the dataset, that is the observation
    of every transition.  No method assigns or writes it, whether it
    returns or raises.  For a sample count of at least one and a non-empty
    dataset, [sample_starts] returns the rows of that array at indices drawn
    from [0 .. len(starts) - 1], and every such index is returned for some
    entropy of the generator. *)
Theorem offline_starts (parse : dataset → list dataset) (data : dataset) l
    (b : buffer) :
  offline_init obs0 act0 rew0 parse data l = inr b →
  _starts b = Some (d_observations data)
  ∧ (∀ arg, keeps_starts (add_paths arg))
  ∧ (∀ rnd n, keeps_starts (sample_batch rnd n)
              ∧ keeps_starts (sample_starts rnd n)
              ∧ keeps_starts (offline_sample_starts rnd n))
  ∧ keeps_starts (clear_buffer obs0 act0 rew0)
  ∧ (∀ rnd n, 0 < n → 0 < len (d_observations data) →
       ∃ st, offline_sample_starts rnd n b = (b, inr st)
           ∧ len st = n
           ∧ Some <$> st
             = rows_at (d_observations data)
                 (draws rnd (len (d_observations data)) n))
  ∧ (∀ i x, 0 <= i → d_observations data !! Z.to_nat i = Some x →
       offline_sample_starts (λ _, i) 1 b = (b, inr [x])).
Proof.
  intros Hinit. apply offline_init_starts in Hinit as Hstarts.
  split_and!; [done|apply keeps_add_paths| |apply keeps_clear_buffer| |].
  - intros rnd n. split_and!; [apply keeps_sample_batch|
      apply keeps_sample_starts|apply keeps_offline_sample_starts].
  - intros rnd n Hn Hlen.
    destruct (gather_in (d_observations data)
                (draws rnd (len (d_observations data)) n))
      as (st & Hst & Hlst & Hlook).
    { apply Forall_lookup_2. intros j i Hj.
      apply draws_lookup in Hj; [|done]. lia. }
    exists st. unfold offline_sample_starts, bind, gets, lift.
    rewrite Hstarts. rewrite randint_draws by done. rewrite Hst.
    split_and!; [done|unfold len; rewrite Hlst, length_draws; lia|].
    apply list_eq. intros j. unfold rows_at. rewrite !list_lookup_fmap.
    destruct (draws rnd _ n !! j) as [i|] eqn:Hj.
    + simpl. rewrite (Hlook j i Hj).
      destruct (gather_in (d_observations data) [i]) as (r & _ & _ & _).
      * constructor; [|done]. apply draws_lookup in Hj; [|done]. lia.
      * apply draws_lookup in Hj as (Hi & _ & _); [|done].
        destruct (lookup_lt_is_Some_2 (d_observations data) (Z.to_nat i))
          as [x Hx]; [unfold len in Hi; lia|].
        by rewrite Hx.
    + simpl. apply lookup_ge_None_1 in Hj. rewrite lookup_ge_None_2; [done|].
      lia.
  - intros i x Hi Hx. apply lookup_lt_Some in Hx as Hlt.
    unfold offline_sample_starts, bind, gets, lift.
    rewrite Hstarts. rewrite randint_draws by (unfold len; lia).
    unfold draws. simpl. rewrite Z.sub_0_r.
    rewrite Z.mod_small by (unfold len; lia).
    by rewrite (py_index_in _ i x).
Qed.

(** ** Invariants that no argument breaks *)

Lemma replicate_Forall_eq {A} (x : A) (l : list A) :
  Forall (λ y, y = x) l → l = replicate (length l) x.
Proof.
  induction 1 as [|y l -> _ IH]; [done|]. simpl. by rewrite <- IH.
Qed.

(** The two mask writes of a window, on any row: ones over [0 .. e), then
    zeros from [e] on, leave a run of ones followed by a run of zeros. *)
Lemma mask_rows_core (row src' : list Z) e :
  length src' = (slice_range (len row) 0 e).2 →
  Forall (λ m, m = 1) src' →
  mask_row_ok
    (fill_slice (take (slice_range (len row) 0 e).1 row ++ src'
                 ++ drop ((slice_range (len row) 0 e).1
                          + (slice_range (len row) 0 e).2)%nat row)
       e (len (take (slice_range (len row) 0 e).1 row ++ src'
               ++ drop ((slice_range (len row) 0 e).1
                        + (slice_range (len row) 0 e).2)%nat row)) 0).
Proof.
  intros Hlen Hones.
  pose proof (len_nonneg row) as Hn.
  pose proof (slice_bound_range (len row) e Hn) as Hb.
  assert (slice_range (len row) 0 e = (0%nat, Z.to_nat (slice_bound (len row) e)))
    as Hr.
  { unfold slice_range. replace (slice_bound (len row) 0) with 0
      by (unfold slice_bound; case_decide; lia).
    f_equal. lia. }
  rewrite Hr in *. simpl in *.
  set (c := Z.to_nat (slice_bound (len row) e)) in *.
  assert (len (src' ++ drop c row) = len row) as Hlen'.
  { unfold len in *. rewrite length_app, length_drop. lia. }
  unfold fill_slice. rewrite Hlen'.
  assert (slice_range (len row) e (len row)
          = (c, (Z.to_nat (len row) - c)%nat)) as ->.
  { unfold slice_range. replace (slice_bound (len row) (len row)) with (len row)
      by (unfold slice_bound; case_decide; lia).
    f_equal. lia. }
  rewrite take_app_length' by done.
  rewrite (drop_ge _ (c + _)%nat)
    by (unfold len in *; rewrite length_app, length_drop; lia).
  rewrite app_nil_r. rewrite (replicate_Forall_eq 1 src' Hones).
  by eexists _, _.
Qed.

Lemma mask_rows_assign (row row' src : list Z) e :
  Forall (λ m, m = 1) src → assign_slice row 0 e src = inr row' →
  mask_row_ok (fill_slice row' e (len row') 0).
Proof.
  intros Hones H. apply assign_slice_inr in H as (src' & -> & Hlen & Hall).
  apply mask_rows_core; [done|by apply Hall].
Qed.

Lemma mask_rows_fill (row : list Z) e :
  mask_row_ok (fill_slice (fill_slice row 0 e 1) e
                 (len (fill_slice row 0 e 1)) 0).
Proof.
  assert (fill_slice row 0 e 1
          = take (slice_range (len row) 0 e).1 row
            ++ replicate (slice_range (len row) 0 e).2 1
            ++ drop ((slice_range (len row) 0 e).1
                     + (slice_range (len row) 0 e).2)%nat row) as ->.
  { unfold fill_slice. by destruct (slice_range (len row) 0 e). }
  apply mask_rows_core.
  - by rewrite length_replicate.
  - by apply Forall_replicate.
Qed.

(** The masks that a window copies are ones: its slice ends before the
    first position whose mask is not one. *)
Lemma mask_slice_all_ones (p : path) ms strt e :
  p_masks p = Some ms → 0 <= strt → strt <= e → e <= path_length p →
  Forall (λ m, m = 1) (to_uint8 <$> py_slice ms strt e).
Proof.
  intros Hms Hs He Hend. apply Forall_fmap, Forall_lookup_2. intros i x Hx.
  apply py_slice_lookup in Hx as (k & Hk & Hrange); [|lia|lia].
  apply lookup_lt_Some in Hk as Hlt.
  rewrite (path_length_masked p ms k Hms) in Hk by lia.
  by injection Hk as <-.
Qed.

Lemma path_length_nonneg (p : path) : 0 <= path_length p.
Proof.
  unfold path_length. destruct (p_masks p) as [ms|]; [|apply len_nonneg].
  destruct (first_unmasked ms) as [i|] eqn:Hi; [|apply len_nonneg].
  apply first_unmasked_Some in Hi. lia.
Qed.

Lemma extends_refl (b : buffer) : extends b b.
Proof. by split. Qed.

Lemma sound_with_actions (b : buffer) a :
  sound act0 rew0 b → shape2 (_max_size b) (_lookback b + 1) a →
  Forall (λ row, row !! 0%nat = Some act0) a →
  sound act0 rew0 (with_actions a b).
Proof.
  intros [[] [] ? ?] Ha Hpad. split; [by split|split; [done|simpl; done]|done|done].
Qed.

Lemma sound_with_rewards (b : buffer) r :
  sound act0 rew0 b → shape2 (_max_size b) (_lookback b + 1) r →
  Forall (λ row, row !! 0%nat = Some rew0) r →
  sound act0 rew0 (with_rewards r b).
Proof.
  intros [[] [] ? ?] Hr Hpad. split; [by split|split; [simpl; done|done]|done|done].
Qed.

Lemma sound_with_observations (b : buffer) o :
  sound act0 rew0 b → shape2 (_max_size b) (_lookback b) o →
  sound act0 rew0 (with_observations o b).
Proof. intros [[] [] ? ?] Ho. split; [by split|by split|done|done]. Qed.

Lemma sound_with_next_observations (b : buffer) o :
  sound act0 rew0 b → shape2 (_max_size b) (_lookback b) o →
  sound act0 rew0 (with_next_observations o b).
Proof. intros [[] [] ? ?] Ho. split; [by split|by split|done|done]. Qed.

Lemma sound_with_terminals (b : buffer) t :
  sound act0 rew0 b → shape2 (_max_size b) (_lookback b) t →
  sound act0 rew0 (with_terminals t b).
Proof. intros [[] [] ? ?] Ht. split; [by split|by split|done|done]. Qed.

Lemma sound_with_masks (b : buffer) m :
  sound act0 rew0 b → shape2 (_max_size b) (_lookback b) m → Forall mask_row_ok m →
  sound act0 rew0 (with_masks m b).
Proof. intros [[] [] ? ?] Hm Hok. split; [by split|by split|done|done]. Qed.

Lemma sound__advance (b : buffer) :
  sound act0 rew0 b →
  ∃ b', _advance b = (b', inr tt) ∧ sound act0 rew0 b' ∧ extends b b'
      ∧ _top b' = (_top b + 1) `mod` _max_size b
      ∧ _size b' = Z.min (_size b + 1) (_max_size b).
Proof.
  intros [[HN ? ? ? ? ? ? ? Htop Hsize] [] ? Hc].
  unfold _advance, bind, gets, modify, raise, ret. simpl.
  rewrite decide_False by lia. simpl.
  pose proof (Z.mod_pos_bound (_top b + 1) (_max_size b) HN) as Hmod.
  unfold cursor_ok in Hc.
  case_decide as Hlt; simpl; eexists; (split; [done|]).
  - split_and!; [split; [by split; simpl; try lia|by split|done|]
                |by split; simpl; try lia|done|simpl; lia].
    unfold cursor_ok. simpl. intros Hlt'. rewrite Hc by done.
    apply Z.mod_small. lia.
  - split_and!; [split; [by split; simpl; try lia|by split|done|]
                |by split; simpl; try lia|done|simpl; lia].
    unfold cursor_ok. simpl. lia.
Qed.

(** The two mask writes of a window (lines 128-132): when the first one
    returns, so does the second, and the mask array they leave has its
    shape and rows of ones followed by zeros. *)
Lemma mask_writes (p : path) n l (m m1 : list (list Z)) top strt e :
  shape2 n l m → Forall mask_row_ok m →
  0 <= strt → strt <= e → e <= path_length p →
  match p_masks p with
  | Some ms => set_rows m top 0 (e - strt) (to_uint8 <$> py_slice ms strt e)
  | None => fill_rows m top 0 (e - strt) 1
  end = inr m1 →
  ∃ m2, fill_rows_tail m1 top (e - strt) 0 = inr m2
      ∧ shape2 n l m2 ∧ Forall mask_row_ok m2.
Proof.
  intros Hsh Hok Hs He Hend Hfirst.
  assert (∃ j row row', index_pos (len m) top = inr j ∧ m !! j = Some row
            ∧ m1 = <[j := row']> m ∧ length row' = length row
            ∧ mask_row_ok (fill_slice row' (e - strt) (len row') 0))
    as (j & row & row' & Hj & Hrow & -> & Hlen & Hrow').
  { destruct (p_masks p) as [ms|] eqn:Hms.
    - apply set_rows_inr in Hfirst as (j & row & row' & Hj & Hrow & Hassign & ->).
      exists j, row, row'. split_and!; try done.
      + by eapply length_assign_slice.
      + eapply mask_rows_assign; [|done].
        by apply (mask_slice_all_ones p).
    - apply fill_rows_inr in Hfirst as (j & row & Hj & Hrow & ->).
      exists j, row, (fill_slice row 0 (e - strt) 1). split_and!; try done.
      + apply length_fill_slice.
      + apply mask_rows_fill. }
  apply lookup_lt_Some in Hrow as Hlt.
  exists (<[j := fill_slice row' (e - strt) (len row') 0]> m).
  split_and!.
  - unfold fill_rows_tail, len. rewrite length_insert. fold (len m). rewrite Hj.
    rewrite list_lookup_insert_eq by done. by rewrite list_insert_insert_eq.
  - apply shape2_insert; [done|]. unfold len.
    rewrite length_fill_slice, Hlen.
    destruct Hsh as [_ Hrows]. by apply (Forall_lookup_1 _ _ _ _ Hrows Hrow).
  - by apply Forall_insert.
Qed.

Lemma extends_with (b b' : buffer) :
  _max_size b' = _max_size b → _lookback b' = _lookback b →
  _starts b' = _starts b → _size b' = _size b → extends b b'.
Proof. intros ? ? ? Hs. split; try done. rewrite Hs. lia. Qed.

(** One window write, on any path: whether it returns or raises, and
    wherever it raises, the state it leaves is sound and extends the state
    it found. *)
Lemma write_window_sound (p : path) strt (b : buffer) :
  sound act0 rew0 b →
  0 <= strt <= Z.max (path_length p - _lookback b) 0 →
  sound act0 rew0 (write_window p (path_length p) strt b).1
  ∧ extends b (write_window p (path_length p) strt b).1.
Proof.
  intros Hb Hs.
  pose proof Hb
    as [[HN HL Ho Hn Ha Hr Ht Hm Htop Hsize] [Hpa Hpr] Hmask Hc].
  pose proof (path_length_nonneg p) as Hlen.
  unfold write_window, bind, gets, lift, modify. simpl.
  rewrite min_add_l.
  set (e := Z.min (_lookback b) (path_length p)).
  replace (strt + e - strt + 1) with (e + 1) by lia.
  replace (strt + e - strt) with e by lia.
  destruct (set_rows (_actions b) _ _ _ _) as [?|a'] eqn:Ea; simpl;
    [split; [done|apply extends_refl]|].
  pose proof (sound_with_actions b a' Hb (set_rows_shape _ _ _ _ _ _ _ _ Ha Ea)
                (set_rows_head _ _ _ _ _ _ Hpa Ea)) as Hb1.
  destruct (set_rows (_rewards b) _ _ _ _) as [?|r'] eqn:Er; simpl;
    [split; [done|by apply extends_with]|].
  pose proof (sound_with_rewards _ r' Hb1 (set_rows_shape _ _ _ _ _ _ _ _ Hr Er)
                (set_rows_head _ _ _ _ _ _ Hpr Er)) as Hb2.
  destruct (set_rows (_observations b) _ _ _ _) as [?|o'] eqn:Eo; simpl;
    [split; [done|by apply extends_with]|].
  pose proof (sound_with_observations _ o' Hb2
                (set_rows_shape _ _ _ _ _ _ _ _ Ho Eo)) as Hb3.
  destruct (set_rows (_next_observations b) _ _ _ _) as [?|n'] eqn:En; simpl;
    [split; [done|by apply extends_with]|].
  pose proof (sound_with_next_observations _ n' Hb3
                (set_rows_shape _ _ _ _ _ _ _ _ Hn En)) as Hb4.
  destruct (set_rows (_terminals b) _ _ _ _) as [?|t'] eqn:Et; simpl;
    [split; [done|by apply extends_with]|].
  pose proof (sound_with_terminals _ t' Hb4
                (set_rows_shape _ _ _ _ _ _ _ _ Ht Et)) as Hb5.
  assert (0 <= e) as He by (unfold e; lia).
  assert (strt + e <= path_length p) as Hend by (unfold e; lia).
  match goal with |- context [match ?x with inl _ => _ | inr _ => _ end] =>
    destruct x as [?|m1] eqn:Em
  end; simpl; [split; [done|by apply extends_with]|].
  destruct (mask_writes p (_max_size b) (_lookback b) (_masks b) m1 (_top b)
              strt (strt + e) Hm Hmask) as (m2 & Em2 & Hsh2 & Hok2);
    [lia|lia|lia|by replace (strt + e - strt) with e by lia|].
  replace (strt + e - strt) with e in Em2 by lia. rewrite Em2. simpl.
  match goal with |- context [_advance ?b1] => set (b' := b1) end.
  assert (sound act0 rew0 b') as Hb'.
  { assert (b' = with_masks m2 (with_terminals t' (with_next_observations n'
              (with_observations o' (with_rewards r' (with_actions a' b))))))
      as -> by done.
    by apply sound_with_masks. }
  destruct (sound__advance b' Hb') as (b'' & -> & Hsound & [? ? ? ?] & _).
  simpl. split; [done|]. by split.
Qed.

Lemma extends_trans (b1 b2 b3 : buffer) :
  extends b1 b2 → extends b2 b3 → extends b1 b3.
Proof.
  intros [H1 H2 H3 H4] [H5 H6 H7 H8]. split; [congruence|congruence|congruence|lia].
Qed.

Lemma for_inv {X} (xs : list X) (body : X → M Obs Act Rew unit)
    (I : buffer → Prop) :
  (∀ x b, x ∈ xs → I b → I (body x b).1) →
  ∀ b, I b → I (for_ xs body b).1.
Proof.
  induction xs as [|x xs IH]; intros Hbody b Hb; [done|].
  simpl. unfold bind.
  pose proof (Hbody x b ltac:(left) Hb) as Hx.
  destruct (body x b) as [b' [e|[]]]; [done|].
  apply IH; [|done]. intros y b'' Hy. apply Hbody. by right.
Qed.

Lemma add_path_sound (p : path) (b : buffer) :
  sound act0 rew0 b →
  sound act0 rew0 (add_path p b).1 ∧ extends b (add_path p b).1.
Proof.
  intros Hb. unfold add_path, bind, gets. simpl.
  apply (for_inv _ _ (λ b', sound act0 rew0 b' ∧ extends b b'));
    [|split; [done|apply extends_refl]].
  intros strt b' Hstrt [Hb' Hext].
  unfold py_range in Hstrt. apply elem_of_seqZ in Hstrt.
  destruct (write_window_sound p strt b' Hb') as [Hs He].
  { rewrite (ext_lookback _ _ Hext). lia. }
  split; [done|by eapply extends_trans].
Qed.

Lemma add_paths_sound (arg : paths_arg) (b : buffer) :
  sound act0 rew0 b →
  sound act0 rew0 (add_paths arg b).1 ∧ extends b (add_paths arg b).1.
Proof.
  intros Hb. unfold add_paths.
  apply (for_inv _ _ (λ b', sound act0 rew0 b' ∧ extends b b'));
    [|split; [done|apply extends_refl]].
  intros pidx b' _ [Hb' Hext]. unfold bind, lift.
  destruct (get_path _ pidx) as [e|p]; [done|].
  destruct (add_path_sound p b' Hb') as [Hs He].
  split; [done|by eapply extends_trans].
Qed.

Lemma fresh_sound n l : 0 < n → 0 <= l → sound act0 rew0 (fresh obs0 act0 rew0 n l).
Proof.
  intros Hn Hl. split; [by apply fresh_shaped|by apply fresh_padded
                       |apply fresh_masks_ok|apply fresh_cursor].
Qed.

Lemma history_sound (calls : list paths_arg) (b : buffer) :
  sound act0 rew0 b →
  sound act0 rew0 (history calls b) ∧ extends b (history calls b).
Proof.
  intros Hb. unfold history.
  induction calls as [|arg calls IH] using rev_ind;
    [split; [done|apply extends_refl]|].
  rewrite foldl_app. simpl. destruct IH as [Hs He].
  destruct (add_paths_sound arg _ Hs) as [Hs' He'].
  split; [done|by eapply extends_trans].
Qed.

(** X1. On a buffer that the constructor returned, after any calls of
    [add_paths], with any arguments and whether they returned or raised,
    one more call leaves the storage in its allocated shape with the cursor
    inside the ring, position 0 of every action and reward row zero, every
    mask row a run of ones followed by zeros, the cursor equal to the size
    until the ring is full, the capacity and the lookback as constructed,
    and a size that did not decrease and is at most the capacity. *)
Theorem add_paths_never_corrupts (n l : Z) (calls : list paths_arg)
    (arg : paths_arg) :
  0 < n → 0 <= l →
  let b := history calls (fresh obs0 act0 rew0 n l) in
  let b' := (add_paths arg b).1 in
  init obs0 act0 rew0 n l = inr (fresh obs0 act0 rew0 n l)
  ∧ shaped b' ∧ padded act0 rew0 b' ∧ masks_ok b' ∧ cursor_ok b'
  ∧ _max_size b' = n ∧ _lookback b' = l ∧ _starts b' = None
  ∧ _size b <= _size b' <= n.
Proof.
  intros Hn Hl b b'. subst b' b.
  destruct (history_sound calls _ (fresh_sound n l Hn Hl)) as [Hs He].
  destruct (add_paths_sound arg _ Hs) as [[Hsh Hpad Hmask Hcur] He'].
  pose proof (extends_trans _ _ _ He He') as [Hn' Hl' Hst' _].
  pose proof (shaped_size _ Hsh) as Hsz. rewrite Hn' in Hsz.
  pose proof (ext_size _ _ He') as Hmono. simpl in Hn', Hl', Hst'.
  split; [by apply init_fresh; lia|].
  split; [done|]. split; [done|]. split; [done|]. split; [done|].
  split; [done|]. split; [done|]. split; [done|].
  change (_max_size (fresh obs0 act0 rew0 n l)) with n in Hsz. lia.
Qed.

(** ** Edge cases of the constructor and of [add_paths] *)

Lemma clear_buffer_fresh (b : buffer) :
  0 <= _max_size b → 0 <= _lookback b →
  clear_buffer obs0 act0 rew0 b
  = (with_starts (_starts b) (fresh obs0 act0 rew0 (_max_size b) (_lookback b)),
     inr tt).
Proof.
  intros Hn Hl. unfold clear_buffer, bind, gets, lift, modify. simpl.
  unfold np_zeros2. rewrite !decide_False by lia. done.
Qed.

(** X3. [clear_buffer] undoes every history: on a constructed buffer,
    after any calls of [add_paths], returned or raised, it raises nothing
    and gives back the state that the constructor returned. *)
Theorem clear_buffer_after_history (n l : Z) (calls : list paths_arg) :
  0 < n → 0 <= l →
  clear_buffer obs0 act0 rew0 (history calls (fresh obs0 act0 rew0 n l))
  = (fresh obs0 act0 rew0 n l, inr tt).
Proof.
  intros Hn Hl.
  destruct (history_sound calls _ (fresh_sound n l Hn Hl)) as [_ [Hn' Hl' Hs' _]].
  simpl in Hn', Hl', Hs'.
  rewrite clear_buffer_fresh by lia. by rewrite Hn', Hl', Hs'.
Qed.

Lemma range_first hi : 1 <= hi → py_range 0 hi = 0 :: py_range 1 hi.
Proof.
  intros H. unfold py_range.
  replace (hi - 0) with (Z.succ (hi - 1)) by lia.
  rewrite seqZ_cons by lia. do 2 f_equal; lia.
Qed.

(** X4. A buffer of capacity 0 can be constructed, and stores nothing:
    [add_paths] of any single path raises [IndexError] at its first write
    and leaves the buffer as it was. *)
Theorem add_paths_capacity_zero (l : Z) (ep : path_arrays) :
  0 <= l →
  init obs0 act0 rew0 0 l = inr (fresh obs0 act0 rew0 0 l)
  ∧ add_paths (OnePath ep) (fresh obs0 act0 rew0 0 l)
    = (fresh obs0 act0 rew0 0 l, inl IndexError).
Proof.
  intros Hl. split; [apply init_fresh; lia|].
  rewrite add_paths_one. unfold add_path, bind, gets. simpl.
  rewrite range_first by lia. simpl. unfold bind at 1.
  unfold write_window, bind, gets, lift. simpl. done.
Qed.

Lemma for_first_raises {X} (x : X) (xs : list X)
    (body : X → M Obs Act Rew unit) (b b' : buffer) e :
  body x b = (b', inl e) → for_ (x :: xs) body b = (b', inl e).
Proof. intros H. simpl. unfold bind. by rewrite H. Qed.

(** X5. A call that raises is not rolled back.  When the rewards of an
    unmasked episode are missing (an empty array) while its actions are
    there, [add_paths] raises [ValueError] at the rewards assignment of the
    first window: by then the action row under the cursor has been
    overwritten with the first actions of the episode, and nothing else has
    changed; the cursor and the size have not moved, so the next write lands
    on the same slot. *)
Theorem add_paths_partial_write (ep : path_arrays) (b : buffer) :
  shaped b → 1 <= _lookback b →
  masks ep = None → rewards ep = [] → 0 < len (actions ep) →
  add_paths (OnePath ep) b
  = (with_actions
       (alter (overwrite 1 (py_slice (actions ep) 0
                              (extent (_lookback b) (len (actions ep)))))
          (Z.to_nat (_top b)) (_actions b)) b,
     inl ValueError).
Proof.
  intros [HN HL Ho Hn Ha Hr Ht Hm Htop Hsize] Hl Hmask Hrew Hact.
  rewrite add_paths_one. unfold add_path, bind, gets.
  assert (path_length (split_path ep) = len (actions ep)) as ->.
  { unfold path_length. simpl. by rewrite Hmask. }
  rewrite range_first by lia. apply for_first_raises.
  unfold write_window, bind, gets, lift, modify. simpl.
  remember (extent (_lookback b) (len (actions ep))) as e eqn:He.
  assert (Z.min (0 + _lookback b) (0 + len (actions ep)) = e) as ->
    by (subst e; unfold extent; lia).
  assert (1 <= e <= _lookback b) as Hbound by (subst e; unfold extent; lia).
  assert (e <= len (actions ep)) as Hbound' by (subst e; unfold extent; lia).
  rewrite (set_rows_in _ (_max_size b) (_lookback b + 1)); [|done|done|lia|lia|].
  2:{ rewrite length_py_slice_in by lia. f_equal. lia. }
  simpl.
  destruct (shape2_lookup _ _ _ _ Hr Htop) as (row & Hrow & Hlen).
  unfold set_rows. destruct Hr as [Hlr _].
  rewrite index_pos_in by lia. rewrite Hrow.
  unfold assign_slice. rewrite slice_range_in by lia.
  rewrite Hrew. cbn [py_slice]. unfold py_slice.
  destruct (slice_range (len []) 0 e) as [a k]. rewrite drop_nil, take_nil.
  rewrite decide_False by (simpl; lia). done.
Qed.

(** ** Batches and sequences of calls *)

(** X6. A batch is ingested path by path: for episodes that meet the input
    contract and carry no masks, one call of [add_paths] on the stacked
    batch leaves the buffer that the calls on the single episodes leave,
    one after another in the order of the batch, and neither raises. *)
Theorem add_paths_batch_is_sequence (eps : list path_arrays) (b : buffer) :
  shaped b → Forall arrays_ok eps → Forall (λ ep, masks ep = None) eps →
  add_paths (Batch (stack eps)) b = for_ (OnePath <$> eps) add_paths b
  ∧ (add_paths (Batch (stack eps)) b).2 = inr tt.
Proof.
  intros Hb Hok Hnone.
  rewrite (add_paths_steps _ (split_path <$> eps)) by (done || by apply ingests_batch).
  split; [|done].
  rewrite (ingestions_steps _ ((λ ep, [split_path ep]) <$> eps)); [|done|].
  - match goal with
    | |- (foldl _ _ (windows_of _ ?x), _) = (foldl _ _ (windows_of _ ?y), _) =>
        assert (y = x) as ->; [|done]
    end.
    clear. induction eps as [|ep eps IH]; [done|].
    rewrite !fmap_cons. simpl. by f_equal.
  - clear -Hok. induction Hok as [|ep eps Hep _ IH]; [constructor|].
    simpl. constructor; [by apply ingests_one|done].
Qed.

(** ** Sampling *)

Lemma reads_only_ret {A} (a : A) : reads_only (ret a : M Obs Act Rew A).
Proof. done. Qed.

Lemma reads_only_raise {A} e : reads_only (raise e : M Obs Act Rew A).
Proof. done. Qed.

Lemma reads_only_gets {A} (f : buffer → A) : reads_only (gets f).
Proof. done. Qed.

Lemma reads_only_lift {A} (r : exn + A) : reads_only (lift r : M Obs Act Rew A).
Proof. intros b. unfold lift. by destruct r. Qed.

Lemma reads_only_bind {A B} (m : M Obs Act Rew A) (k : A → M Obs Act Rew B) :
  reads_only m → (∀ a, reads_only (k a)) → reads_only (bind m k).
Proof.
  intros Hm Hk b. unfold bind. specialize (Hm b).
  destruct (m b) as [b' [e|a]]; simpl in *; [done|].
  rewrite Hk. done.
Qed.

Ltac reads :=
  repeat first
    [ apply reads_only_ret | apply reads_only_raise | apply reads_only_gets
    | apply reads_only_lift | apply reads_only_bind; [|intros ?] ].

(** X7. The three samplers only read: [sample_batch] and both
    [sample_starts] leave every field of the buffer as it was, for every
    state, count and entropy, whether they return or raise. *)
Theorem samplers_read_only rnd (n : Z) :
  reads_only (sample_batch rnd n : M Obs Act Rew batch)
  ∧ reads_only (sample_starts rnd n : M Obs Act Rew (list Obs))
  ∧ reads_only (offline_sample_starts rnd n : M Obs Act Rew (list Obs)).
Proof.
  split_and!.
  - unfold sample_batch. reads.
  - unfold sample_starts. reads.
  - unfold offline_sample_starts. reads. destruct a; reads.
Qed.

Lemma ingested_sources_ok l (calls : list paths_arg) (pss : list (list path)) :
  0 <= l → Forall2 ingests calls pss →
  Forall (source_ok l) (windows_of l (concat pss)).
Proof.
  intros Hl Hcalls. apply windows_of_ok; [done|]. apply Forall_concat.
  induction Hcalls as [|???? Harg]; constructor; [|done].
  by eapply ingests_paths_ok.
Qed.

(** X8. [sample_batch] never returns a slot that was not written.  On a
    constructed buffer of capacity [n], after calls of [add_paths] that
    wrote [m >= 1] windows in all, whether or not the ring has wrapped: the
    size is [min m n]; every slot below the size was last written by one of
    the last [min m n] windows, and holds it laid over what the slot held
    before; the slots from [m] on, which exist while the ring has not
    wrapped, are still the zeros of the constructor; and every window of
    every batch drawn is the slot at the index drawn, which is below the
    size, so it is a written slot and never one of the zero slots. *)
Theorem sample_batch_returns_written (n l : Z) (calls : list paths_arg)
    (pss : list (list path)) :
  0 < n → 0 <= l → Forall2 ingests calls pss →
  let log := windows_of l (concat pss) in
  0 < len log →
  ∃ b, for_ calls add_paths (fresh obs0 act0 rew0 n l) = (b, inr tt)
     ∧ _size b = Z.min (len log) n
     ∧ (∀ d, 0 <= d < Z.min (len log) n →
          ∃ w, slot b (Z.to_nat d) = Some w
             ∧ slot_holds obs0 act0 rew0 n l log d w)
     ∧ (∀ d, len log <= d < n →
          slot b (Z.to_nat d) = Some (zero_window obs0 act0 rew0 l))
     ∧ ∀ rnd c, 0 < c →
         ∃ bt, sample_batch rnd c b = (b, inr bt)
             ∧ len (b_observations bt) = c
             ∧ ∀ j : nat, Z.of_nat j < c →
                 ∃ d w, draws rnd (Z.min (len log) n) c !! j = Some d
                      ∧ 0 <= d < Z.min (len log) n
                      ∧ slot b (Z.to_nat d) = Some w
                      ∧ batch_window bt j = Some w
                      ∧ slot_holds obs0 act0 rew0 n l log d w.
Proof.
  intros Hn Hl Hcalls log Hlog.
  pose proof (fresh_shaped n l Hn Hl) as Hb0.
  pose proof (ingested_sources_ok l calls pss Hl Hcalls) as Hok.
  pose proof (ring_steps l log [] (fresh obs0 act0 rew0 n l)
                (ring_fresh n l Hn Hl) eq_refl Hok)
    as [Hb Hpad Htop Hsize Hslots].
  destruct (foldl_step_fixed log (fresh obs0 act0 rew0 n l)) as (Hlb & Hnb & _).
  simpl in Hlb, Hnb, Htop, Hsize, Hslots. rewrite Hnb in *. rewrite Hlb in *.
  exists (foldl step (fresh obs0 act0 rew0 n l) log). split_and!.
  - by rewrite (ingestions_steps calls pss).
  - done.
  - intros d Hd. by apply written_slot_holds.
  - intros d Hd. by apply unwritten_slot.
  - intros rnd c Hc.
    destruct (sample_batch_draws rnd c _ Hb Hc) as (bt & Hbt & Hlen & Hwin);
      [lia|].
    exists bt. split_and!; [done|done|]. intros j Hj.
    destruct (Hwin j Hj) as (d & w & Hd & Hrange & Hw & Hbw).
    rewrite Hsize in Hd, Hrange.
    destruct (written_slot_holds n l log d Hn Hl Hok Hrange)
      as (w' & Hw' & Hholds).
    rewrite Hw in Hw'. injection Hw' as <-.
    exists d, w. split_and!; (done || lia).
Qed.

Lemma column0_lookup (ws : list (list Obs)) (st : list Obs) :
  column0 ws = inr st →
  ∀ (j : nat) row, ws !! j = Some row → st !! j = row !! 0%nat.
Proof.
  revert st. induction ws as [|r ws IH]; intros st Hst j row Hj; [done|].
  simpl in Hst.
  destruct (py_index r 0) as [e|x] eqn:Hx; [done|].
  destruct (column0 ws) as [e|xs] eqn:Hxs; [done|].
  injection Hst as <-. destruct j as [|j]; simpl in *.
  - injection Hj as <-. unfold py_index, index_pos in Hx.
    repeat case_decide; try done.
    change (Z.to_nat 0) with 0%nat in Hx.
    destruct (r !! 0%nat); [|done]. by injection Hx as ->.
  - by apply IH.
Qed.

(** X9. [sample_starts] of the online buffer returns, for a lookback of at
    least 1, the observation at position 0 of each window that
    [sample_batch] returns for the same draws: the start of a stored window,
    which is the start of an episode only for the window of offset 0. *)
Theorem sample_starts_window_heads rnd (n : Z) (b : buffer) :
  shaped b → 0 < n → 0 < _size b → 0 < _lookback b →
  ∃ bt st, sample_batch rnd n b = (b, inr bt)
         ∧ sample_starts rnd n b = (b, inr st)
         ∧ len st = n
         ∧ ∀ (j : nat) w, batch_window bt j = Some w →
             st !! j = w_observations w !! 0%nat.
Proof.
  intros Hb Hn Hsize Hl.
  destruct (sample_batch_slots rnd n b Hb Hn Hsize) as (bt & Hbt & Hlen & Hwin).
  pose proof Hb as [_ _ Ho _ _ _ _ _ _ Hsz].
  assert (Forall (λ i, 0 <= i < len (_observations b)) (draws rnd (_size b) n))
    as Hin.
  { destruct Ho as [Hlo _]. apply Forall_lookup_2. intros j i Hj.
    apply draws_lookup in Hj; [|done]. lia. }
  destruct (gather_in _ _ Hin) as (o & Heo & Hlo & Hko).
  assert (Forall (λ row, 0 < len row) o) as Hrows.
  { apply Forall_lookup_2. intros j row Hj.
    destruct (lookup_lt_is_Some_2 (draws rnd (_size b) n) j) as [i Hi].
    { rewrite <- Hlo. by eapply lookup_lt_Some. }
    rewrite (Hko j i Hi) in Hj. destruct Ho as [_ Ho].
    rewrite (Forall_lookup_1 _ _ _ _ Ho Hj). done. }
  destruct (column0_in o Hrows) as (st & Hst & Hlst).
  exists bt, st. split_and!.
  - done.
  - unfold sample_starts, bind, gets, lift. simpl.
    rewrite randint_draws by done. simpl. rewrite Heo.
    unfold first_rows. rewrite index_pos_in by lia. by rewrite Hst.
  - unfold len. rewrite Hlst, Hlo, length_draws. lia.
  - intros j w Hw.
    destruct (lookup_lt_is_Some_2 (draws rnd (_size b) n) j) as [i Hi].
    { rewrite length_draws. unfold batch_window in Hw.
      destruct (b_observations bt !! j) eqn:Hoj; [|done].
      apply lookup_lt_Some in Hoj. unfold len in Hlen. lia. }
    rewrite (Hwin j i Hi) in Hw. unfold slot in Hw.
    destruct (_observations b !! Z.to_nat i) as [ow|] eqn:How; [|done].
    assert (w_observations w = ow) as ->.
    { repeat case_match; try done. by injection Hw as <-. }
    apply (column0_lookup o st Hst j ow). by rewrite (Hko j i Hi).
Qed.

(** ** The slots that one call touches *)

(** X10. One call of [add_paths] on an episode of true length [T] that
    meets the input contract, on any well-formed buffer, writes
    [c = max (T - L + 1) 1] windows: the cursor advances by [c] modulo the
    capacity, the size grows by [c] up to the capacity, and every slot other
    than the [c] slots from the cursor on (modulo the capacity) is exactly
    as it was. *)
Theorem add_paths_touches_cursor_slots (ep : path_arrays) (b : buffer) :
  shaped b → arrays_ok ep →
  let c := Z.max (true_length ep - _lookback b + 1) 1 in
  ∃ b', add_paths (OnePath ep) b = (b', inr tt)
      ∧ _top b' = (_top b + c) `mod` _max_size b
      ∧ _size b' = Z.min (_size b + c) (_max_size b)
      ∧ ∀ j : nat,
          (∀ k, 0 <= k < c → (_top b + k) `mod` _max_size b ≠ Z.of_nat j) →
          slot b' j = slot b j.
Proof.
  intros Hb Hep c.
  pose proof Hb as [_ _ _ _ _ _ _ _ Htop Hsize].
  exists (foldl step b (sources (_lookback b) (split_path ep))).
  assert (len (sources (_lookback b) (split_path ep)) = c) as Hlen.
  { unfold sources, len. rewrite length_fmap.
    apply (length_window_starts (_lookback b) (split_path ep)). }
  split_and!.
  - rewrite add_paths_one. apply add_path_steps; [done|by apply split_path_ok].
  - by rewrite steps_top, Hlen.
  - by rewrite steps_size, Hlen.
  - intros j Hj. apply steps_frame; [done|]. by rewrite Hlen.
Qed.

(** ** Masks *)

Lemma written_slices_eq (p p' : path) (t s : Z) (b : buffer) :
  let e := extent (_lookback b) t in
  py_slice (p_observations p) s (s + e) = py_slice (p_observations p') s (s + e) →
  py_slice (p_next_observations p) s (s + e)
  = py_slice (p_next_observations p') s (s + e) →
  py_slice (p_actions p) s (s + e) = py_slice (p_actions p') s (s + e) →
  py_slice (p_rewards p) s (s + e) = py_slice (p_rewards p') s (s + e) →
  py_slice (p_terminals p) s (s + e) = py_slice (p_terminals p') s (s + e) →
  written p t s b = written p' t s b.
Proof.
  intros e Ho Hn Ha Hr Ht. unfold written. fold e.
  by rewrite Ho, Hn, Ha, Hr, Ht.
Qed.

Lemma truncate_ok (t : Z) (ep : path_arrays) :
  arrays_ok ep → 0 <= t <= len (actions ep) → arrays_ok (truncate t ep).
Proof.
  intros [Ho Hr Ht _] Hb. unfold len in *.
  split; simpl; unfold len; rewrite ?length_take; (done || lia).
Qed.

Lemma truncate_length (t : Z) (ep : path_arrays) :
  0 <= t <= len (actions ep) → true_length (truncate t ep) = t.
Proof.
  intros Hb. unfold true_length, path_length. simpl.
  unfold len in *. rewrite length_take. lia.
Qed.

(** X11. Masking an episode from step [T] on is the same as handing over
    only its first [T] steps: for an episode that meets the input contract
    and whose first mask other than one is at [T] (its true length),
    [add_paths] leaves exactly the buffer that it leaves for the episode cut
    to [T] steps and [T + 1] observations without masks; nothing behind the
    mask reaches the storage. *)
Theorem masked_episode_is_truncated (ep : path_arrays) (b : buffer) :
  shaped b → arrays_ok ep →
  add_paths (OnePath ep) b
  = add_paths (OnePath (truncate (true_length ep) ep)) b
  ∧ (add_paths (OnePath ep) b).2 = inr tt.
Proof.
  intros Hb Hep.
  pose proof (path_length_bounds _ (split_path_ok ep Hep)) as Ht.
  change (path_length (split_path ep)) with (true_length ep) in Ht.
  simpl in Ht. remember (true_length ep) as t eqn:Hlen.
  pose proof (truncate_ok t ep Hep Ht) as Hep'.
  pose proof (truncate_length t ep Ht) as Hlen'.
  rewrite !add_paths_one.
  rewrite !add_path_steps by (done || by apply split_path_ok).
  split; [|done]. f_equal.
  unfold sources, window_starts.
  change (path_length (split_path ep)) with (true_length ep).
  change (path_length (split_path (truncate t ep)))
    with (true_length (truncate t ep)).
  rewrite Hlen', <- Hlen.
  pose proof Hb as [_ HL _ _ _ _ _ _ _ _].
  assert (Forall (λ s, 0 <= s ∧ s + extent (_lookback b) t <= t)
            (py_range 0 (Z.max (t - _lookback b + 1) 1))) as Hstarts.
  { apply Forall_lookup_2. intros k s Hk. unfold py_range in Hk.
    apply lookup_seqZ in Hk. unfold extent. lia. }
  remember (_lookback b) as l eqn:Hl.
  clear Hb. revert b Hl.
  induction Hstarts as [|s starts [Hs Hse] _ IH]; intros b Hl; [done|].
  rewrite !fmap_cons. simpl.
  assert (step b (split_path ep, s) = step b (split_path (truncate t ep), s))
    as ->.
  { unfold step. simpl.
    change (path_length (split_path ep)) with (true_length ep).
    change (path_length (split_path (truncate t ep)))
      with (true_length (truncate t ep)).
    rewrite Hlen', <- Hlen.
    destruct Hep as [Ho Hr Htm _].
    assert (0 <= extent l t) as He by (unfold extent; lia).
    apply written_slices_eq; rewrite <- Hl; simpl.
    - rewrite !py_slice_init, length_take, take_take.
      replace (length (observations ep) - 1)%nat
        with (Z.to_nat (len (actions ep))) by (unfold len in *; lia).
      replace ((Z.to_nat (t + 1) `min` length (observations ep) - 1)
                 `min` Z.to_nat (t + 1))%nat
        with (Z.to_nat t) by (unfold len in *; lia).
      rewrite !py_slice_take by (unfold len in *; lia). done.
    - rewrite !py_slice_tail.
      rewrite skipn_firstn_comm.
      replace (Z.to_nat (t + 1) - 1)%nat with (Z.to_nat t) by lia.
      rewrite py_slice_take; [done|done|done|done|].
      unfold len in *. rewrite length_drop. lia.
    - by rewrite py_slice_take by lia.
    - by rewrite py_slice_take by lia.
    - by rewrite py_slice_take by lia. }
  apply IH. by destruct (split_path (truncate t ep)).
Qed.

(** ** The offline constructor *)

Lemma ring_with_starts (log : list source) (b : buffer) s :
  ring_inv act0 rew0 log b → ring_inv act0 rew0 log (with_starts s b).
Proof.
  intros [[] Hpad Htop Hsize Hslots]. by split.
Qed.

Lemma offline_path_ok (tr : dataset) :
  trajectory_ok tr → arrays_ok (offline_path tr).
Proof.
  intros [Hpos Ho Hn Hr Ht]. split; simpl; try done.
  unfold len in *. rewrite length_app, length_take. lia.
Qed.

Lemma gather_row0 {A} (xs : list A) : 0 < len xs → gather xs [0] = inr (take 1 xs).
Proof.
  destruct xs as [|x xs]; [unfold len; simpl; lia|]. intros _.
  cbn [gather]. by rewrite (py_index_in _ 0 x).
Qed.

Lemma offline_loop_steps (trs : list dataset) (b : buffer) :
  shaped b → Forall trajectory_ok trs →
  for_ trs
    (λ tr,
       bind (lift (gather (d_next_observations tr) [0]))
         (λ nxt0,
            add_paths (OnePath (PathArrays (d_observations tr ++ nxt0)
                                  (d_actions tr) (d_rewards tr)
                                  (d_terminals tr) None)))) b
  = (foldl step b
       (windows_of (_lookback b) (split_path ∘ offline_path <$> trs)),
     inr tt).
Proof.
  intros Hb Htrs. revert b Hb.
  induction Htrs as [|tr trs Htr _ IH]; intros b Hb; [done|].
  pose proof (offline_path_ok tr Htr) as Hep.
  cbn [for_]. unfold bind at 1. unfold bind at 1.
  rewrite gather_row0 by (destruct Htr; lia). unfold lift at 1.
  fold (offline_path tr).
  rewrite (add_paths_steps _ [split_path (offline_path tr)])
    by (done || by apply ingests_one).
  assert (shaped (foldl step b (windows_of (_lookback b)
                                  [split_path (offline_path tr)]))) as Hb'.
  { apply (steps_shaped (_lookback b)); [done|done|].
    apply windows_of_ok; [by destruct Hb|].
    constructor; [by apply split_path_ok|constructor]. }
  rewrite IH by done.
  destruct (foldl_step_fixed (windows_of (_lookback b)
                                [split_path (offline_path tr)]) b)
    as (-> & _ & _).
  unfold windows_of. rewrite fmap_cons. simpl.
  by rewrite app_nil_r, foldl_app.
Qed.

Lemma offline_windows_count l (trs : list dataset) :
  1 <= l → Forall trajectory_ok trs →
  len (windows_of l (split_path ∘ offline_path <$> trs))
  <= len (concat (d_actions <$> trs)).
Proof.
  intros Hl Htrs. induction Htrs as [|tr trs [Hpos _ _ _ _] _ IH].
  - done.
  - assert (len (sources l (split_path (offline_path tr)))
            <= len (d_actions tr)) as Hc.
    { pose proof (length_window_starts l (split_path (offline_path tr))) as Hc.
      unfold path_length in Hc. simpl in Hc.
      unfold sources, len in *. rewrite length_fmap. lia. }
    unfold windows_of in *. rewrite !fmap_cons. simpl.
    unfold len in *. rewrite !length_app. lia.
Qed.

(** X12. The offline constructor stores every window of every trajectory
    and evicts none.  For a lookback of at least 1 and whatever trajectories
    [parse_into_trajectories] returns, as long as each has at least one
    transition, one row per transition in each array, and together they
    have no more transitions than the dataset: the constructor raises
    nothing, the capacity is the number of transitions of the dataset, the
    size is the number of windows written, and window [i] in the order of
    writing is stored in slot [i]. *)
Theorem offline_init_stores_all (parse : dataset → list dataset)
    (data : dataset) (l : Z) :
  1 <= l → Forall trajectory_ok (parse data) →
  len (concat (d_actions <$> parse data)) <= len (d_actions data) →
  let log := windows_of l (split_path ∘ offline_path <$> parse data) in
  ∃ b, offline_init obs0 act0 rew0 parse data l = inr b
     ∧ _max_size b = len (d_actions data)
     ∧ _lookback b = l
     ∧ _starts b = Some (d_observations data)
     ∧ _size b = len log
     ∧ ∀ (i : nat) src, log !! i = Some src →
         ∃ w, slot b i = Some w ∧ stores act0 rew0 l src w.
Proof.
  intros Hl Htrs Hsum log.
  pose proof (offline_windows_count l _ Hl Htrs) as Hcount. fold log in Hcount.
  pose proof (len_nonneg (d_actions data)) as HN.
  remember (len (d_actions data)) as n eqn:Hn.
  remember (with_starts (Some (d_observations data)) (fresh obs0 act0 rew0 n l))
    as b1 eqn:Hb1.
  assert (offline_init obs0 act0 rew0 parse data l
          = match for_ (parse data)
                    (λ tr,
                       bind (lift (gather (d_next_observations tr) [0]))
                         (λ nxt0,
                            add_paths
                              (OnePath (PathArrays (d_observations tr ++ nxt0)
                                          (d_actions tr) (d_rewards tr)
                                          (d_terminals tr) None)))) b1 with
            | (b, inr _) => inr b
            | (_, inl e) => inl e
            end) as ->.
  { unfold offline_init, offline_init_self. rewrite <- Hn.
    pose proof (init_fresh n l HN ltac:(lia)) as Hinit. unfold init in Hinit.
    unfold bind at 1.
    destruct (init_self obs0 act0 rew0 n l blank) as [b0 [e|[]]]; [done|].
    injection Hinit as ->. unfold bind at 1. unfold modify at 1.
    by rewrite Hb1. }
  destruct (decide (0 < n)) as [Hpos|Hzero].
  - assert (ring_inv act0 rew0 [] b1) as Hring.
    { subst b1. apply ring_with_starts, ring_fresh; lia. }
    pose proof Hring as [Hshaped _ _ _ _].
    rewrite offline_loop_steps by done.
    assert (_lookback b1 = l) as Hlb by (by subst b1).
    assert (_max_size b1 = n) as Hnb by (by subst b1).
    assert (_starts b1 = Some (d_observations data)) as Hsb by (by subst b1).
    rewrite Hlb. fold log.
    assert (Forall (source_ok l) log) as Hok.
    { apply windows_of_ok; [lia|]. apply Forall_fmap.
      eapply Forall_impl; [done|]. intros tr Htr. simpl.
      by apply split_path_ok, offline_path_ok. }
    pose proof (ring_steps l log [] b1 Hring Hlb Hok)
      as [Hb Hpad Htop Hsize Hslots].
    destruct (foldl_step_fixed log b1) as (Hl' & Hn' & Hs').
    simpl in Hsize, Hslots. rewrite Hn', Hnb in *. rewrite Hl', Hlb in *.
    exists (foldl step b1 log). split_and!; try done.
    + by rewrite Hs'.
    + lia.
    + intros i src Hi. apply lookup_lt_Some in Hi as Hlt.
      destruct (Hslots i src Hi) as (w & Hw & Hst); [lia|].
      rewrite Z.mod_small, Nat2Z.id in Hw by (unfold len in *; lia).
      by exists w.
  - assert (parse data = []) as Hnil.
    { destruct (parse data) as [|tr trs]; [done|]. exfalso.
      apply Forall_cons in Htrs as [[Htr _ _ _ _] _].
      rewrite fmap_cons in Hsum. simpl in Hsum. unfold len in *.
      rewrite length_app in Hsum. lia. }
    subst log. rewrite Hnil in *. simpl.
    exists b1. subst b1. by split_and!.
Qed.

(** ** A batch handed over twice *)

Lemma for_app {X} (xs ys : list X) (body : X → M Obs Act Rew unit) (b : buffer) :
  for_ (xs ++ ys) body b = bind (for_ xs body) (λ _, for_ ys body) b.
Proof.
  revert b. induction xs as [|x xs IH]; intros b; [done|].
  simpl. unfold bind in *. destruct (body x b) as [b' [e|[]]]; [done|].
  apply IH.
Qed.

(** A slice that runs one row past the end of its array is one row short. *)
Lemma length_py_slice_short {A} (xs : list A) (s e : Z) :
  0 <= s → 1 <= e → len xs = s + e - 1 →
  length (py_slice xs s (s + e)) = Z.to_nat (e - 1).
Proof.
  intros Hs He Hlen. unfold py_slice, slice_range, slice_bound.
  repeat case_decide; try lia.
  rewrite length_take, length_drop. unfold len in *. lia.
Qed.

(** The write of the window that ends at the last step, for a path whose
    observations are one row short: the action and reward rows are written,
    then the observation assignment raises. *)
Lemma write_window_short_observations (p : path) (t s : Z) (b : buffer) :
  shaped b → p_masks p = None →
  len (p_actions p) = t → len (p_rewards p) = t →
  len (p_observations p) = t - 1 →
  0 <= s → s + extent (_lookback b) t = t →
  1 <= extent (_lookback b) t → extent (_lookback b) t ≠ 2 →
  ∃ b', write_window p t s b = (b', inl ValueError).
Proof.
  intros [HN HL Ho Hn Ha Hr Ht Hm Htop Hsize] Hmask Hla Hlr Hlo Hs Hend He1 He2.
  remember (extent (_lookback b) t) as e eqn:He.
  assert (e <= _lookback b) as Hel by (subst e; unfold extent; lia).
  unfold write_window, bind, gets, lift, modify. simpl.
  assert (Z.min (s + _lookback b) (s + t) = s + e) as ->
    by (subst e; unfold extent; lia).
  replace (s + e - s + 1) with (e + 1) by lia.
  replace (s + e - s) with e by lia.
  rewrite (set_rows_in _ (_max_size b) (_lookback b + 1));
    [|done|done|lia|lia|].
  2:{ rewrite length_py_slice_in by lia. f_equal. lia. }
  simpl.
  rewrite (set_rows_in _ (_max_size b) (_lookback b + 1));
    [|done|done|lia|lia|].
  2:{ rewrite length_py_slice_in by lia. f_equal. lia. }
  simpl.
  destruct (shape2_lookup _ _ _ _ Ho Htop) as (row & Hrow & Hlen).
  unfold set_rows. destruct Ho as [Hlo' _].
  rewrite index_pos_in by lia. rewrite Hrow.
  unfold assign_slice. rewrite slice_range_in by lia.
  pose proof (length_py_slice_short (p_observations p) s e Hs He1
                ltac:(lia)) as Hsrc.
  rewrite decide_False by lia.
  destruct (py_slice (p_observations p) s (s + e)) as [|x [|y src]].
  - by eexists.
  - simpl in Hsrc. lia.
  - by eexists.
Qed.

(** The loop over [strt] for such a path: every window but the last is
    written, and the last raises. *)
Lemma add_path_short_observations (p : path) (b : buffer) :
  shaped b → p_masks p = None →
  len (p_rewards p) = len (p_actions p) →
  len (p_terminals p) = len (p_actions p) →
  len (p_observations p) = len (p_actions p) - 1 →
  len (p_next_observations p) = len (p_actions p) - 1 →
  1 <= extent (_lookback b) (len (p_actions p)) →
  extent (_lookback b) (len (p_actions p)) ≠ 2 →
  ∃ b', add_path p b = (b', inl ValueError).
Proof.
  intros Hb Hmask Hlr Hlt Hlo Hln He1 He2.
  unfold add_path, bind, gets.
  assert (path_length p = len (p_actions p)) as ->
    by (unfold path_length; by rewrite Hmask).
  remember (len (p_actions p)) as t eqn:Ht.
  remember (_lookback b) as l eqn:Hl.
  remember (Z.max (t - l + 1) 1) as c eqn:Hc.
  unfold py_range. replace (c - 0) with ((c - 1) + 1) by lia.
  rewrite seqZ_app by lia. rewrite for_app. unfold bind.
  destruct (for_foldl (seqZ 0 (c - 1)) (write_window p t)
              (λ b s, written p t s b)
              (λ b, shaped b ∧ _lookback b = l)
              (λ s, 0 <= s < c - 1)) with (b := b)
    as [Hrun [Hb' Hl']].
  - apply Forall_lookup_2. intros k s Hk. apply lookup_seqZ in Hk. lia.
  - intros s b0 Hs [Hb0 Hl0].
    assert (slices_ok (_lookback b0) p t s) as Hslices.
    { rewrite Hl0. unfold extent in *.
      split; unfold extent; try (rewrite length_py_slice_in by lia; f_equal; lia).
      - lia.
      - intros ms Hms. by rewrite Hmask in Hms. }
    split; [by apply write_window_slices|].
    split; [by apply shaped_written_slices|done].
  - done.
  - rewrite Hrun. simpl.
    destruct (write_window_short_observations p t (0 + (c - 1))
                (foldl (λ b s, written p t s b) b (seqZ 0 (c - 1))))
      as (b' & Hlast);
      [done|done|lia|lia|lia|lia
      |rewrite Hl'; unfold extent in *; lia
      |by rewrite Hl'|by rewrite Hl'|].
    change (Z.of_nat 0 + (0 + (c - 1))) with (0 + (c - 1)).
    unfold bind. rewrite Hlast. by eexists.
Qed.

(** X15. [add_paths] uses up a batch.  It assigns the observations
    without their last step to the dictionary it is given, so a caller who
    passes the same batch again passes other data.  For a batch of
    episodes that meet the input contract and carry no masks, with at least
    one step and a lookback of at least 1, and with [min (L, T)] other than
    2 for the first episode: the first call returns, and the second call
    with the same dictionary raises [ValueError]. *)
Theorem add_paths_consumes_batch (ep : path_arrays) (eps : list path_arrays)
    (b : buffer) :
  shaped b → Forall arrays_ok (ep :: eps) →
  Forall (λ ep, masks ep = None) (ep :: eps) →
  1 <= extent (_lookback b) (len (actions ep)) →
  extent (_lookback b) (len (actions ep)) ≠ 2 →
  ∃ b1 b2,
    add_paths (Batch (stack (ep :: eps))) b = (b1, inr tt)
    ∧ add_paths (paths_after (Batch (stack (ep :: eps)))) b1
      = (b2, inl ValueError).
Proof.
  intros Hb Hok Hnone He1 He2.
  pose proof (ingests_batch _ Hok Hnone) as Hing.
  exists (foldl step b (windows_of (_lookback b) (split_path <$> ep :: eps))).
  destruct (foldl_step_fixed
              (windows_of (_lookback b) (split_path <$> ep :: eps)) b)
    as (Hl1 & _ & _).
  assert (shaped (foldl step b
                    (windows_of (_lookback b) (split_path <$> ep :: eps))))
    as Hb1.
  { apply (steps_shaped (_lookback b)); [done|done|].
    apply windows_of_ok; [by destruct Hb|by eapply ingests_paths_ok]. }
  remember (foldl step b (windows_of (_lookback b) (split_path <$> ep :: eps)))
    as b1 eqn:Hb1eq.
  apply Forall_cons in Hok as [[Ho Hr Ht _] _].
  apply Forall_cons in Hnone as [Hmask _].
  destruct (add_path_short_observations
              (Path (py_slice (py_slice (observations ep) 0 (-1)) 0 (-1))
                 (py_slice (py_slice (observations ep) 0 (-1)) 1
                    (len (py_slice (observations ep) 0 (-1))))
                 (actions ep) (rewards ep) (terminals ep) None) b1)
    as (b2 & Hrun2); simpl; try done.
  - rewrite !py_slice_init. unfold extent, len in *. rewrite !length_take. lia.
  - rewrite py_slice_tail, py_slice_init. unfold extent, len in *.
    rewrite length_drop, length_take. lia.
  - by rewrite Hl1.
  - by rewrite Hl1.
  - exists b2. split; [by rewrite Hb1eq; apply add_paths_steps|].
    unfold add_paths. simpl.
    rewrite range_first by (unfold len; simpl; lia).
    apply for_first_raises. unfold bind, lift.
    unfold get_path. simpl.
    exact Hrun2.
Qed.

End Properties.

(** * Properties of the fully connected network *)

Section NetworkProperties.

Context {Tensor Params : Type}.
Context (draw : nat → Params).
Context (linear_call : FCNetwork.Linear Params → Tensor
                       → FCNetwork.error + Tensor).

#[local] Abbreviation Linear := (FCNetwork.Linear Params).
#[local] Abbreviation building := (FCNetwork.building Params).
#[local] Abbreviation network := (FCNetwork.network Tensor Params).
#[local] Abbreviation layer_name := FCNetwork.layer_name.
#[local] Abbreviation sizes := FCNetwork.sizes.
#[local] Abbreviation layers_upto := (FCNetwork.layers_upto draw).
#[local] Abbreviation has_layer := (FCNetwork.has_layer draw).

Lemma layer_name_inj (k k' : Z) : layer_name k = layer_name k' → k = k'.
Proof.
  unfold FCNetwork.layer_name. intros H.
  apply (inj (String.app "linear_")) in H. by apply (inj pretty) in H.
Qed.

Lemma item_lookup {A} (l : list A) (i : nat) x :
  l !! i = Some x → FCNetwork.item l (Z.of_nat i) = inr x.
Proof.
  intros H. unfold FCNetwork.item.
  rewrite (py_index_in l (Z.of_nat i) x); [done|lia|by rewrite Nat2Z.id].
Qed.

Lemma item_last {A} (l : list A) x : FCNetwork.item (l ++ [x]) (-1) = inr x.
Proof.
  unfold FCNetwork.item, py_index, index_pos, len.
  rewrite length_app. simpl. repeat case_decide; try lia.
  replace (Z.to_nat (-1 + Z.of_nat (length l + 1))) with (length l) by lia.
  by rewrite lookup_app_r, Nat.sub_diag by lia.
Qed.

(** Registering layer [n] after layers [0 .. n - 1]. *)
Lemma add_linear_layer_next (szs : list Z) (n : nat) (i o : Z) (s : building) :
  0 <= i → 0 <= o → szs !! n = Some i → szs !! S n = Some o →
  layers_upto (FCNetwork.b_modules s) szs n → FCNetwork.b_drawn s = n →
  ∃ s', FCNetwork._add_linear_layer draw i o (Z.of_nat n) s = inr s'
      ∧ layers_upto (FCNetwork.b_modules s') szs (S n)
      ∧ FCNetwork.b_drawn s' = S n.
Proof.
  intros Hi Ho Hsi Hso [Hhas Hdom] Hdrawn.
  unfold FCNetwork._add_linear_layer, FCNetwork.new_linear.
  rewrite decide_False by lia. simpl. eexists. split; [done|]. simpl.
  split; [|by rewrite Hdrawn]. split.
  - intros k Hk. destruct (decide (k = n)) as [->|Hne].
    + exists i, o. split_and!; [done|done|].
      by rewrite lookup_insert_eq, Hdrawn.
    + destruct (Hhas k ltac:(lia)) as (i' & o' & Hi' & Ho' & Hl).
      exists i', o'. split_and!; [done|done|].
      rewrite lookup_insert_ne; [done|].
      intros Heq. apply layer_name_inj in Heq. lia.
  - intros name Hname.
    destruct (decide (name = layer_name (Z.of_nat n))) as [->|Hne].
    + exists n. split; [lia|done].
    + rewrite lookup_insert_ne in Hname by done.
      destruct (Hdom name Hname) as (k & Hk & ->). exists k. split; [lia|done].
Qed.

(** The loop over the hidden layers, from layer [a + 1] on. *)
Lemma add_hidden_layers_run (input_dim output_dim : Z) (hs : list Z) (m a : nat)
    (s : building) :
  Forall (λ h, 0 <= h) hs → (a + m < length hs)%nat →
  layers_upto (FCNetwork.b_modules s) (sizes input_dim output_dim hs) (S a) →
  FCNetwork.b_drawn s = S a →
  ∃ s', FCNetwork.add_hidden_layers draw hs (seqZ (Z.of_nat a) (Z.of_nat m)) s
        = inr s'
      ∧ layers_upto (FCNetwork.b_modules s') (sizes input_dim output_dim hs)
          (S (a + m))
      ∧ FCNetwork.b_drawn s' = S (a + m).
Proof.
  intros Hpos. revert a s. induction m as [|m IH]; intros a s Hlen Hs Hdrawn.
  - exists s. rewrite Nat.add_0_r. by split_and!.
  - rewrite seqZ_cons by lia. cbn [FCNetwork.add_hidden_layers].
    destruct (lookup_lt_is_Some_2 hs a) as [i Hi]; [lia|].
    destruct (lookup_lt_is_Some_2 hs (S a)) as [o Ho]; [lia|].
    rewrite (item_lookup hs a i Hi). cbn [FCNetwork.ebind].
    replace (Z.of_nat a + 1) with (Z.of_nat (S a)) by lia.
    rewrite (item_lookup hs (S a) o Ho). cbn [FCNetwork.ebind].
    destruct (add_linear_layer_next (sizes input_dim output_dim hs) (S a) i o s)
      as (s1 & Hrun & Hs1 & Hd1); try done.
    + by eapply (Forall_lookup_1 _ _ _ _ Hpos).
    + by eapply (Forall_lookup_1 _ _ _ _ Hpos).
    + unfold FCNetwork.sizes. simpl. by rewrite lookup_app_l by lia.
    + unfold FCNetwork.sizes. simpl. by rewrite lookup_app_l by lia.
    + rewrite Hrun. cbn [FCNetwork.ebind].
      replace (Z.succ (Z.of_nat a)) with (Z.of_nat (S a)) by lia.
      replace (Z.pred (Z.of_nat (S m))) with (Z.of_nat m) by lia.
      destruct (IH (S a) s1) as (s2 & Hrun2 & Hs2 & Hd2); [lia|done|done|].
      exists s2. rewrite Hrun2.
      replace (S (a + S m)) with (S (S a + m)) by lia. by split_and!.
Qed.

(** The constructor builds the layers [0 .. len(hidden_sizes)] of the chain. *)
Lemma init_layers_upto (input_dim output_dim : Z) (hidden_sizes : list Z)
    (hidden_activation : Tensor → FCNetwork.error + Tensor)
    (out_activation : option (Tensor → FCNetwork.error + Tensor)) :
  0 <= input_dim → 0 <= output_dim → Forall (λ h, 0 <= h) hidden_sizes →
  ∃ net : network,
    FCNetwork.init draw input_dim output_dim hidden_sizes hidden_activation
      out_activation = inr net
    ∧ FCNetwork.n_layers net = len hidden_sizes + 1
    ∧ layers_upto (FCNetwork._modules net)
        (sizes input_dim output_dim hidden_sizes) (S (length hidden_sizes))
    ∧ FCNetwork._hidden_activation net = hidden_activation
    ∧ FCNetwork._out_activation net = out_activation.
Proof.
  intros Hin Hout Hpos.
  assert (layers_upto (FCNetwork.b_modules (FCNetwork.Building ∅ 0))
            (sizes input_dim output_dim hidden_sizes) 0) as H0.
  { split; [lia|]. simpl. intros name [x Hx]. by rewrite lookup_empty in Hx. }
  unfold FCNetwork.init.
  destruct hidden_sizes as [|h0 hs _] using rev_ind.
  - rewrite decide_True by done.
    destruct (add_linear_layer_next (sizes input_dim output_dim []) 0
                input_dim output_dim (FCNetwork.Building ∅ 0))
      as (s & Hrun & Hs & _); try done.
    change (Z.of_nat 0) with 0 in Hrun. rewrite Hrun. cbn [FCNetwork.ebind].
    eexists. by split_and!.
  - assert (len (hs ++ [h0]) = Z.of_nat (length hs) + 1) as Hlen.
    { unfold len. rewrite length_app. simpl. lia. }
    rewrite decide_False by lia.
    destruct (lookup_lt_is_Some_2 (hs ++ [h0]) 0) as [h Hh].
    { rewrite length_app. simpl. lia. }
    pose proof (item_lookup _ 0 h Hh) as Hitem.
    change (Z.of_nat 0) with 0 in Hitem. rewrite Hitem. cbn [FCNetwork.ebind].
    destruct (add_linear_layer_next (sizes input_dim output_dim (hs ++ [h0])) 0
                input_dim h (FCNetwork.Building ∅ 0))
      as (s1 & Hrun1 & Hs1 & Hd1); try done.
    { by eapply (Forall_lookup_1 _ _ _ _ Hpos). }
    { unfold FCNetwork.sizes. simpl. by rewrite lookup_app_l
        by (rewrite length_app; simpl; lia). }
    change (Z.of_nat 0) with 0 in Hrun1. rewrite Hrun1. cbn [FCNetwork.ebind].
    destruct (add_hidden_layers_run input_dim output_dim (hs ++ [h0])
                (length hs) 0 s1) as (s2 & Hrun2 & Hs2 & Hd2); try done.
    { rewrite length_app. simpl. lia. }
    unfold py_range. rewrite Hlen.
    replace (Z.of_nat (length hs) + 1 - 1 - 0) with (Z.of_nat (length hs)) by lia.
    change 0 with (Z.of_nat 0) at 1. rewrite Hrun2. cbn [FCNetwork.ebind].
    rewrite item_last. cbn [FCNetwork.ebind].
    destruct (add_linear_layer_next (sizes input_dim output_dim (hs ++ [h0]))
                (S (length hs)) h0 output_dim s2)
      as (s3 & Hrun3 & Hs3 & Hd3); try done.
    { apply Forall_app in Hpos as [_ Hh0]. by inversion Hh0. }
    { unfold FCNetwork.sizes. simpl.
      rewrite <- app_assoc. by rewrite lookup_app_r, Nat.sub_diag by lia. }
    { unfold FCNetwork.sizes. simpl.
      rewrite lookup_app_r by (rewrite length_app; simpl; lia).
      rewrite length_app. simpl.
      by replace (S (length hs) - (length hs + 1))%nat with 0%nat by lia. }
    replace (Z.of_nat (S (length hs))) with (Z.of_nat (length hs) + 1) in Hrun3
      by lia.
    rewrite Hrun3. cbn [FCNetwork.ebind].
    eexists. split; [done|]. simpl. split_and!; [lia| |done|done].
    rewrite length_app. simpl.
    by replace (length hs + 1)%nat with (S (length hs)) by lia.
Qed.

Lemma getattr_layer (net : network) (szs : list Z) (n k : nat) :
  layers_upto (FCNetwork._modules net) szs n → (k < n)%nat →
  ∃ i o, szs !! k = Some i ∧ szs !! S k = Some o
       ∧ FCNetwork.getattr net (layer_name (Z.of_nat k))
         = inr (FCNetwork.LinearOf i o (draw k)).
Proof.
  intros [Hhas _] Hk. destruct (Hhas k Hk) as (i & o & Hi & Ho & Hl).
  exists i, o. unfold FCNetwork.getattr. by rewrite Hl.
Qed.

(** The hidden layers [a .. a + m - 1] take a tensor of size [a] of the
    chain to a tensor of size [a + m]. *)
Lemma hidden_pass_dims (dim : Tensor → Z) (net : network) (szs : list Z)
    (n m a : nat) (x : Tensor) :
  layers_upto (FCNetwork._modules net) szs n → Forall (λ h, 0 <= h) szs →
  (∀ ly x, 0 <= FCNetwork.out_features ly → dim x = FCNetwork.in_features ly →
     ∃ y, linear_call ly x = inr y ∧ dim y = FCNetwork.out_features ly) →
  (∀ x, ∃ y, FCNetwork._hidden_activation net x = inr y ∧ dim y = dim x) →
  (a + m <= n)%nat → szs !! a = Some (dim x) →
  ∃ y, FCNetwork.hidden_pass linear_call net
         (seqZ (Z.of_nat a) (Z.of_nat m)) x = inr y
     ∧ szs !! (a + m)%nat = Some (dim y).
Proof.
  intros Hnet Hpos Hcall Hact. revert a x.
  induction m as [|m IH]; intros a x Ham Hx.
  - exists x. by rewrite Nat.add_0_r.
  - rewrite seqZ_cons by lia. cbn [FCNetwork.hidden_pass].
    destruct (getattr_layer net szs n a Hnet ltac:(lia))
      as (i & o & Hi & Ho & ->).
    cbn [FCNetwork.ebind].
    destruct (Hcall (FCNetwork.LinearOf i o (draw a)) x) as (y1 & -> & Hy1).
    { simpl. by eapply (Forall_lookup_1 _ _ _ _ Hpos). }
    { simpl. congruence. }
    cbn [FCNetwork.ebind]. destruct (Hact y1) as (y2 & -> & Hy2).
    cbn [FCNetwork.ebind].
    replace (Z.succ (Z.of_nat a)) with (Z.of_nat (S a)) by lia.
    replace (Z.pred (Z.of_nat (S m))) with (Z.of_nat m) by lia.
    destruct (IH (S a) y2) as (y & Hy & Hdim); [lia| |].
    + rewrite Hy2, Hy1. done.
    + exists y. split; [done|].
      by replace (a + S m)%nat with (S a + m)%nat by lia.
Qed.

(** X14. The layers that the constructor builds fit together.  Let torch's
    layer call accept exactly the tensors whose last extent is the layer's
    [in_features], returning one of extent [out_features], and let the
    activations keep the extent.  Then on a network built from positive
    sizes, [forward] finds every layer it looks up by name,
    returns a tensor of extent [output_dim] for every input of extent
    [input_dim], and raises torch's [RuntimeError] for every other input. *)
Theorem forward_dimensions (dim : Tensor → Z)
    (input_dim output_dim : Z) (hidden_sizes : list Z)
    (hidden_activation : Tensor → FCNetwork.error + Tensor)
    (out_activation : option (Tensor → FCNetwork.error + Tensor)) :
  0 < input_dim → 0 < output_dim → Forall (λ h, 0 < h) hidden_sizes →
  (∀ ly x, 0 <= FCNetwork.out_features ly → dim x = FCNetwork.in_features ly →
     ∃ y, linear_call ly x = inr y ∧ dim y = FCNetwork.out_features ly) →
  (∀ ly x, dim x ≠ FCNetwork.in_features ly →
     linear_call ly x = inl FCNetwork.RuntimeError) →
  (∀ x, ∃ y, hidden_activation x = inr y ∧ dim y = dim x) →
  (∀ f, out_activation = Some f → ∀ x, ∃ y, f x = inr y ∧ dim y = dim x) →
  ∃ net : network,
    FCNetwork.init draw input_dim output_dim hidden_sizes hidden_activation
      out_activation = inr net
    ∧ ∀ x,
        (dim x = input_dim →
           ∃ y, FCNetwork.forward linear_call net x = inr y
              ∧ dim y = output_dim)
        ∧ (dim x ≠ input_dim →
             FCNetwork.forward linear_call net x = inl FCNetwork.RuntimeError).
Proof.
  intros Hin' Hout' Hpos' Hcall Hbad Hact Hoact.
  assert (0 <= input_dim) as Hin by lia.
  assert (0 <= output_dim) as Hout by lia.
  assert (Forall (λ h, 0 <= h) hidden_sizes) as Hpos.
  { eapply Forall_impl; [done|]. simpl. lia. }
  destruct (init_layers_upto input_dim output_dim hidden_sizes
              hidden_activation out_activation Hin Hout Hpos)
    as (net & Hnet & Hn & Hlayers & Ha & Ho).
  exists net. split; [done|]. intros x.
  unfold FCNetwork.n_layers in Hn.
  remember (sizes input_dim output_dim hidden_sizes) as szs eqn:Hszs.
  assert (Forall (λ h, 0 <= h) szs) as Hszs_pos.
  { subst szs. unfold FCNetwork.sizes. constructor; [done|].
    apply Forall_app. split; [done|]. by constructor. }
  assert (szs !! 0%nat = Some input_dim) as Hfirst by (by subst szs).
  assert (szs !! S (length hidden_sizes) = Some output_dim) as Hlast.
  { subst szs. unfold FCNetwork.sizes. simpl.
    by rewrite lookup_app_r, Nat.sub_diag by lia. }
  unfold FCNetwork.forward, py_range. rewrite Hn.
  replace (len hidden_sizes + 1 - 1 - 0) with (Z.of_nat (length hidden_sizes))
    by (unfold len; lia).
  replace (len hidden_sizes + 1 - 1) with (Z.of_nat (length hidden_sizes))
    by (unfold len; lia).
  change (seqZ 0) with (seqZ (Z.of_nat 0)).
  split.
  - intros Hx.
    destruct (hidden_pass_dims dim net szs (S (length hidden_sizes))
                (length hidden_sizes) 0 x) as (y1 & -> & Hy1);
      [done|done|done|by rewrite Ha|lia|by rewrite Hx|].
    cbn [FCNetwork.ebind]. simpl in Hy1.
    destruct (getattr_layer net szs _ (length hidden_sizes) Hlayers ltac:(lia))
      as (i & o & Hi & Ho' & ->).
    cbn [FCNetwork.ebind].
    destruct (Hcall (FCNetwork.LinearOf i o (draw (length hidden_sizes))) y1)
      as (y2 & -> & Hy2).
    { simpl. congruence. }
    { simpl. congruence. }
    cbn [FCNetwork.ebind]. simpl in Hy2.
    assert (dim y2 = output_dim) as Hy2' by congruence.
    rewrite Ho. destruct out_activation as [f|].
    + destruct (Hoact f eq_refl y2) as (y & Hy & Hdim).
      exists y. split; [done|congruence].
    + by exists y2.
  - intros Hx. destruct (length hidden_sizes) as [|m] eqn:Hm.
    + change (seqZ (Z.of_nat 0) (Z.of_nat 0)) with (@nil Z).
      cbn [FCNetwork.hidden_pass FCNetwork.ebind].
      destruct (getattr_layer net szs _ 0 Hlayers ltac:(lia))
        as (i & o & Hi & Ho' & ->).
      cbn [FCNetwork.ebind]. rewrite Hbad; [done|].
      simpl. congruence.
    + rewrite seqZ_cons by lia. cbn [FCNetwork.hidden_pass].
      destruct (getattr_layer net szs _ 0 Hlayers ltac:(lia))
        as (i & o & Hi & Ho' & ->).
      cbn [FCNetwork.ebind]. rewrite Hbad; [done|].
      simpl. congruence.
Qed.


End NetworkProperties.

(** * Concrete runs *)

Lemma wrapped_full_run :
  add_paths (OnePath ep_full) (fresh 0 0 0 1 2) = (wrapped_full, inr tt).
Proof. vm_compute. reflexivity. Qed.

Lemma wrapped_short_run :
  add_paths (OnePath ep_short) wrapped_full = (wrapped_short, inr tt).
Proof. vm_compute. reflexivity. Qed.

Lemma arrays_ok_ep_long : arrays_ok ep_long.
Proof. split; try reflexivity. intros ms [=]. Defined.

Lemma arrays_ok_ep_full : arrays_ok ep_full.
Proof. split; try reflexivity. intros ms [=]. Defined.

Lemma arrays_ok_ep_short : arrays_ok ep_short.
Proof. split; try reflexivity. intros ms [=]. Defined.

Lemma shaped_fresh_2_2 : shaped fresh_2_2.
Proof. apply fresh_shaped; lia. Defined.

Lemma shaped_wrapped_full : shaped wrapped_full.
Proof.
  split; simpl; try lia; (split; [reflexivity|repeat constructor]).
Defined.

Lemma padded_wrapped_full : padded 0 0 wrapped_full.
Proof. split; repeat constructor. Defined.

(** The premises of C1 hold for [ep_long] (true length 3) on a fresh buffer
    of lookback 2, and the loop visits the two offsets 0 and 1. *)
Lemma add_paths_coverage_witness :
  shaped fresh_2_2 ∧ arrays_ok ep_long
  ∧ _lookback fresh_2_2 <= true_length ep_long
  ∧ window_starts 2 (split_path ep_long) = [0; 1]
  ∧ len (window_starts 2 (split_path ep_long)) = 3 - 2 + 1
  ∧ add_paths (OnePath ep_long) fresh_2_2
    = (after (split_path ep_long) 2 fresh_2_2, inr tt).
Proof.
  assert (_lookback fresh_2_2 <= true_length ep_long) as Hl
    by (vm_compute; discriminate).
  pose proof (add_paths_coverage ep_long fresh_2_2 shaped_fresh_2_2
                arrays_ok_ep_long Hl) as (H1 & H2 & H3 & _).
  split_and!; [exact shaped_fresh_2_2|exact arrays_ok_ep_long|exact Hl
              |exact H1|exact H2|exact H3].
Defined.

(** The premises of the amended C2 hold for a ring of one slot, lookback 2,
    into which [ep_full] and then [ep_short] are ingested: [1 + 1] windows.
    The constructor and both calls return, the size is 1, the cursor is back
    at [2 mod 1], and slot 0 holds the window of [ep_short] laid over what
    the write found. *)
Lemma ring_overwrite_witness :
  0 < 1 ∧ 0 <= 2 ∧ 0 < 1
  ∧ Forall2 ingests [OnePath ep_full; OnePath ep_short]
      [[split_path ep_full]; [split_path ep_short]]
  ∧ len (windows_of 2 (concat [[split_path ep_full]; [split_path ep_short]]))
    = 1 + 1
  ∧ ∃ b0 b : buffer Z Z Z,
      init 0 0 0 1 2 = inr b0
      ∧ for_ [OnePath ep_full; OnePath ep_short] add_paths b0 = (b, inr tt)
      ∧ _size b = 1
      ∧ _top b = (1 + 1) `mod` 1
      ∧ ∃ w, slot b 0%nat = Some w
           ∧ slot_holds 0 0 0 1 2
               (windows_of 2
                  (concat [[split_path ep_full]; [split_path ep_short]])) 0 w.
Proof.
  assert (Forall2 ingests [OnePath ep_full; OnePath ep_short]
            [[split_path ep_full]; [split_path ep_short]]) as Hcalls.
  { constructor; [apply ingests_one; exact arrays_ok_ep_full|].
    constructor; [apply ingests_one; exact arrays_ok_ep_short|].
    constructor. }
  assert (len (windows_of 2 (concat [[split_path ep_full]; [split_path ep_short]]))
          = 1 + 1) as Hlog by reflexivity.
  destruct (ring_overwrite 0 0 0 1 2 1 _ _ ltac:(lia) ltac:(lia) ltac:(lia)
              Hcalls Hlog) as (b0 & b & H0 & Hrun & Hsize & Htop & Hslot & _).
  destruct (Hslot 0 ltac:(lia)) as (w & Hw & Hholds & _).
  split_and!; [lia|lia|lia|exact Hcalls|exact Hlog|].
  exists b0, b. split_and!; [exact H0|exact Hrun|exact Hsize|exact Htop|].
  exists w. split; [exact Hw|exact Hholds].
Defined.

(** C2 as stated fails: in a ring of one slot and lookback 2, [ep_full] is
    ingested and then [ep_short], [1 + 1] windows.  The window of [ep_full]
    is the oldest one and has been evicted, yet the batch that [sample_batch]
    returns holds, past the extent 1 of the window of [ep_short], the
    observation [11], the next observation [12], the action [2], the reward
    [22] and the terminal [1] of the evicted window. *)
Lemma evicted_rows_sampled :
  init 0 0 0 1 2 = inr (fresh 0 0 0 1 2)
  ∧ for_ [OnePath ep_full; OnePath ep_short] add_paths (fresh 0 0 0 1 2)
    = (wrapped_short, inr tt)
  ∧ len (windows_of 2 [split_path ep_full; split_path ep_short]) = 1 + 1
  ∧ sample_batch (λ _, 0) 1 wrapped_short
    = (wrapped_short,
       inr (BatchOf [[50; 11]] [[51; 12]] [[0; 5; 2]] [[0; 25; 22]] [[1; 1]]
              [[1; 0]]))
  ∧ observations ep_full = [10; 11; 12]
  ∧ observations ep_short = [50; 51]
  ∧ [50; 11] !! 1%nat = observations ep_full !! 1%nat
  ∧ [50; 11] !! 1%nat ≠ observations ep_short !! 1%nat
  ∧ [0; 5; 2] !! 2%nat = actions ep_full !! 1%nat
  ∧ [0; 25; 22] !! 2%nat = rewards ep_full !! 1%nat.
Proof.
  split_and!;
    [vm_compute; reflexivity|vm_compute; reflexivity|reflexivity
    |vm_compute; reflexivity|reflexivity|reflexivity|reflexivity
    |discriminate|reflexivity|reflexivity].
Qed.

(** The premises of the amended C4 hold for [ep_short] (true length 1) on a
    fresh buffer of lookback 2: one window, into slot 0, with mask [1; 0]
    and zero rows from position 1 on. *)
Lemma add_paths_short_episode_witness :
  shaped fresh_2_2 ∧ arrays_ok ep_short
  ∧ true_length ep_short < _lookback fresh_2_2
  ∧ window_starts 2 (split_path ep_short) = [0]
  ∧ ∃ b' w,
      add_paths (OnePath ep_short) fresh_2_2 = (b', inr tt)
      ∧ slot b' 0%nat = Some w
      ∧ w_masks w = [1; 0]
      ∧ drop 1 (w_observations w) = [0]
      ∧ drop 1 (w_next_observations w) = [0]
      ∧ drop 1 (w_terminals w) = [0].
Proof.
  assert (true_length ep_short < _lookback fresh_2_2) as Hl by reflexivity.
  destruct (add_paths_short_episode 0 0 0 ep_short fresh_2_2 shaped_fresh_2_2
              arrays_ok_ep_short Hl)
    as (Hstarts & b' & old & w & Hrun & _ & _ & _ & Hold & Hw & Hm & _ & _ & _
        & _ & _ & _ & Hzero).
  assert (old = zero_window 0 0 0 2) as Hfresh.
  { assert (Some old = Some (zero_window 0 0 0 2)) as H
      by (rewrite <- Hold; reflexivity).
    injection H as ->. reflexivity. }
  destruct (Hzero Hfresh) as (Ho & Hn & Ht).
  split_and!; [exact shaped_fresh_2_2|exact arrays_ok_ep_short|exact Hl
              |exact Hstarts|].
  exists b', w. split_and!; [exact Hrun|exact Hw|exact Hm|exact Ho|exact Hn
                            |exact Ht].
Defined.

(** C4 as stated fails on a ring that has wrapped: [ep_short] (true length
    1, lookback 2) is written over the window of [ep_full], and position 1
    of its observation, next-observation and terminal rows then holds
    [11], [12] and [1], the rows of the overwritten window, not zero. *)
Lemma short_episode_stale_tail :
  shaped wrapped_full ∧ arrays_ok ep_short
  ∧ true_length ep_short = 1 ∧ _lookback wrapped_full = 2
  ∧ add_paths (OnePath ep_full) (fresh 0 0 0 1 2) = (wrapped_full, inr tt)
  ∧ add_paths (OnePath ep_short) wrapped_full = (wrapped_short, inr tt)
  ∧ slot wrapped_short 0%nat
    = Some (Window [50; 11] [51; 12] [0; 5; 2] [0; 25; 22] [1; 1] [1; 0])
  ∧ [50; 11] !! 1%nat ≠ Some 0
  ∧ [51; 12] !! 1%nat ≠ Some 0
  ∧ [1; 1] !! 1%nat ≠ Some 0.
Proof.
  split_and!;
    [exact shaped_wrapped_full|exact arrays_ok_ep_short|reflexivity
    |reflexivity|exact wrapped_full_run|exact wrapped_short_run|reflexivity
    |discriminate|discriminate|discriminate].
Qed.

(** The premises of C5 hold for the second window of [ep_long] on a fresh
    buffer of lookback 2: the stored mask is [1; 1]. *)
Lemma add_paths_mask_prefix_witness :
  shaped fresh_2_2 ∧ masks_ok fresh_2_2 ∧ arrays_ok ep_long
  ∧ 0 <= 1 < len (window_starts (_lookback fresh_2_2) (split_path ep_long))
  ∧ ∃ w,
      slot (after (split_path ep_long) (1 + 1) fresh_2_2)
        (Z.to_nat (_top (after (split_path ep_long) 1 fresh_2_2))) = Some w
      ∧ w_masks w = [1; 1]
      ∧ masks_ok (after (split_path ep_long) (1 + 1) fresh_2_2).
Proof.
  assert (0 <= 1 < len (window_starts (_lookback fresh_2_2) (split_path ep_long)))
    as Hk by (split; [discriminate|reflexivity]).
  destruct (add_paths_mask_prefix ep_long fresh_2_2 1 shaped_fresh_2_2
              (fresh_masks_ok 0 0 0 2 2) arrays_ok_ep_long Hk)
    as (w & _ & Hw & Hm & _ & Hok).
  split; [exact shaped_fresh_2_2|].
  split; [exact (fresh_masks_ok 0 0 0 2 2)|].
  split; [exact arrays_ok_ep_long|]. split; [exact Hk|].
  exists w. split_and!; [exact Hw|exact Hm|exact Hok].
Defined.

(** The premises of the amended C6 hold for the window of [ep_short]
    written over the window of [ep_full] in a ring of one slot: position 0
    is zero, position 1 holds the action and the reward of the episode, and
    position 2 is left as the slot had it. *)
Lemma add_paths_action_padding_witness :
  shaped wrapped_full ∧ padded 0 0 wrapped_full ∧ arrays_ok ep_short
  ∧ 0 <= 0 < len (window_starts (_lookback wrapped_full) (split_path ep_short))
  ∧ ∃ old w,
      slot wrapped_full 0%nat = Some old
      ∧ slot (after (split_path ep_short) (0 + 1) wrapped_full) 0%nat = Some w
      ∧ w_actions w !! 0%nat = Some 0
      ∧ w_rewards w !! 0%nat = Some 0
      ∧ take 1 (drop 1 (w_actions w)) = [5]
      ∧ take 1 (drop 1 (w_rewards w)) = [25]
      ∧ drop 2 (w_actions w) = drop 2 (w_actions old)
      ∧ drop 2 (w_rewards w) = drop 2 (w_rewards old).
Proof.
  assert (0 <= 0 < len (window_starts (_lookback wrapped_full)
                          (split_path ep_short))) as Hk
    by (split; [discriminate|reflexivity]).
  destruct (add_paths_action_padding 0 0 ep_short wrapped_full 0
              shaped_wrapped_full padded_wrapped_full arrays_ok_ep_short Hk)
    as (old & w & Hold & _ & Hw & Ha0 & Hr0 & Ha & Hr & Hta & Htr).
  split; [exact shaped_wrapped_full|].
  split; [exact padded_wrapped_full|].
  split; [exact arrays_ok_ep_short|]. split; [exact Hk|].
  exists old, w.
  split_and!; [exact Hold|exact Hw|exact Ha0|exact Hr0|exact Ha|exact Hr
              |exact Hta|exact Htr].
Defined.

(** C6 as stated fails on a ring that has wrapped: after [ep_short] is
    written over the window of [ep_full], the tail position 2 of the
    actions and of the rewards holds [2] and [22], not zero. *)
Lemma action_tail_stale :
  shaped wrapped_full ∧ padded 0 0 wrapped_full ∧ arrays_ok ep_short
  ∧ extent (_lookback wrapped_full) (true_length ep_short) = 1
  ∧ add_paths (OnePath ep_short) wrapped_full = (wrapped_short, inr tt)
  ∧ _actions wrapped_short = [[0; 5; 2]]
  ∧ _rewards wrapped_short = [[0; 25; 22]]
  ∧ [0; 5; 2] !! 2%nat ≠ Some 0
  ∧ [0; 25; 22] !! 2%nat ≠ Some 0.
Proof.
  split_and!;
    [exact shaped_wrapped_full|exact padded_wrapped_full
    |exact arrays_ok_ep_short|reflexivity|exact wrapped_short_run
    |reflexivity|reflexivity|discriminate|discriminate].
Qed.

(** The premises of the amended C7 hold for a draw of 3 on a fresh buffer:
    its size is 0 and both sampling methods raise [ValueError]. *)
Lemma sample_empty_iff_witness :
  shaped fresh_2_2 ∧ 0 < 3 ∧ _size fresh_2_2 = 0
  ∧ sample_batch (λ i, Z.of_nat i) 3 fresh_2_2 = (fresh_2_2, inl ValueError)
  ∧ sample_starts (λ i, Z.of_nat i) 3 fresh_2_2 = (fresh_2_2, inl ValueError).
Proof.
  assert (0 < 3) as Hn by reflexivity.
  destruct (sample_empty_iff (λ i, Z.of_nat i) 3 fresh_2_2 shaped_fresh_2_2 Hn)
    as (Hempty & _ & _).
  destruct (Hempty eq_refl) as [Hb Hs].
  split; [exact shaped_fresh_2_2|]. split; [exact Hn|].
  split; [reflexivity|]. split; [exact Hb|exact Hs].
Defined.

(** C7 as stated fails for a sample count of 0: on an empty buffer
    [sample_batch] and [sample_starts] return an empty result, and raise
    nothing. *)
Lemma sample_zero_from_empty :
  shaped fresh_2_2 ∧ _size fresh_2_2 = 0
  ∧ sample_batch (λ _, 0) 0 fresh_2_2
    = (fresh_2_2, inr (BatchOf [] [] [] [] [] []))
  ∧ sample_starts (λ _, 0) 0 fresh_2_2 = (fresh_2_2, inr []).
Proof.
  split; [exact shaped_fresh_2_2|]. split; [reflexivity|].
  split; reflexivity.
Qed.

Lemma offline_full_run :
  offline_init 0 0 0 parse_into_trajectories (flat [ep_full]) 2
  = inr offline_full.
Proof. vm_compute. reflexivity. Qed.

(** The premises of the amended C9 hold for the offline buffer of
    [ep_full]: it retains both observations of the dataset, and a draw of
    index 1 returns the second one. *)
Lemma offline_starts_witness :
  offline_init 0 0 0 parse_into_trajectories (flat [ep_full]) 2
  = inr offline_full
  ∧ _starts offline_full = Some [10; 11]
  ∧ offline_sample_starts (λ _, 1) 1 offline_full = (offline_full, inr [11]).
Proof.
  destruct (offline_starts 0 0 0 parse_into_trajectories (flat [ep_full]) 2
              offline_full offline_full_run) as (Hst & _ & _ & _ & _ & Hdraw).
  split; [exact offline_full_run|]. split; [exact Hst|].
  exact (Hdraw 1 11 ltac:(discriminate) eq_refl).
Defined.

(** C9 as stated fails on the dataset of the one episode [ep_full]: its
    only episode-start observation is [10], and the retained array is
    [10; 11], the observation of every transition. *)
Lemma offline_starts_all_observations :
  offline_init 0 0 0 parse_into_trajectories (flat [ep_full]) 2
  = inr offline_full
  ∧ episode_starts [ep_full] = [10]
  ∧ _starts offline_full = Some [10; 11]
  ∧ _starts offline_full ≠ Some (episode_starts [ep_full]).
Proof.
  split; [exact offline_full_run|]. split; [reflexivity|].
  split; [reflexivity|discriminate].
Qed.

Lemma cursor_fresh_2_2 : cursor_ok fresh_2_2.
Proof. intros _. reflexivity. Defined.

(** The premises of C10 hold for [ep_masked] on a fresh buffer: one window
    is written, its mask is all zeros, the cursor and the size advance to
    1, and slot 0 is below the size. *)
Lemma add_paths_empty_episode_witness :
  shaped fresh_2_2 ∧ cursor_ok fresh_2_2
  ∧ masks ep_masked = Some [0; 0] ∧ [0; 0] !! 0%nat = Some 0
  ∧ true_length ep_masked = 0
  ∧ ∃ b', add_paths (OnePath ep_masked) fresh_2_2 = (b', inr tt)
        ∧ _observations b' = _observations fresh_2_2
        ∧ _actions b' = _actions fresh_2_2
        ∧ _masks b' !! 0%nat = Some [0; 0]
        ∧ _top b' = 1 ∧ _size b' = 1.
Proof.
  destruct (add_paths_empty_episode ep_masked fresh_2_2 [0; 0]
              shaped_fresh_2_2 cursor_fresh_2_2 eq_refl eq_refl)
    as (Hlen & _ & b' & Hrun & Ho & _ & Ha & _ & _ & Hm & _ & Htop & Hsize & _).
  split; [exact shaped_fresh_2_2|]. split; [exact cursor_fresh_2_2|].
  split; [reflexivity|]. split; [reflexivity|]. split; [exact Hlen|].
  exists b'. split; [exact Hrun|]. split; [exact Ho|]. split; [exact Ha|].
  split; [exact Hm|]. split; [exact Htop|exact Hsize].
Defined.

(** C3: the offline constructor on the flat dataset of the one episode
    [ep_full], against [add_paths] on that episode.  The trajectory is
    reconstructed as the episode was, but the observation appended to it is
    row 0 of its next observations, [11], where the episode ends in [12]:
    the window of the offline buffer has the next observations [11; 11],
    the window of the online buffer [11; 12]. *)
Theorem offline_appends_first_next_observation :
  parse_into_trajectories (flat [ep_full]) = [flat_episode ep_full]
  ∧ offline_init 0 0 0 parse_into_trajectories (flat [ep_full]) 2
    = inr offline_full
  ∧ (∃ b0, init 0 0 0 2 2 = inr b0
         ∧ add_paths (OnePath ep_full) b0 = (online_full, inr tt))
  ∧ slot offline_full 0%nat
    = Some (Window [10; 11] [11; 11] [0; 1; 2] [0; 21; 22] [0; 1] [1; 1])
  ∧ slot online_full 0%nat
    = Some (Window [10; 11] [11; 12] [0; 1; 2] [0; 21; 22] [0; 1] [1; 1])
  ∧ slot offline_full 0%nat ≠ slot online_full 0%nat.
Proof.
  split; [reflexivity|]. split; [exact offline_full_run|].
  split; [exists fresh_2_2; split; reflexivity|].
  split; [reflexivity|]. split; [reflexivity|discriminate].
Qed.

(** ** Runs for the further properties *)

Lemma arrays_ok_ep_other : arrays_ok ep_other.
Proof. split; try reflexivity. intros ms [=]. Defined.

Lemma arrays_ok_ep_cut : arrays_ok ep_cut.
Proof. split; try reflexivity. intros ms [= <-]. reflexivity. Defined.

(** The premises of X1 hold for a ring of two slots and lookback 2 on which
    [ep_long] was ingested, then a call for [ep_no_rewards] raised, and
    [ep_short] is ingested: the state still meets every invariant. *)
Lemma add_paths_never_corrupts_witness :
  0 < 2 ∧ 0 <= 2
  ∧ shaped (add_paths (OnePath ep_short)
              (history [OnePath ep_long; OnePath ep_no_rewards]
                 (fresh 0 0 0 2 2))).1
  ∧ masks_ok (add_paths (OnePath ep_short)
                (history [OnePath ep_long; OnePath ep_no_rewards]
                   (fresh 0 0 0 2 2))).1
  ∧ (add_paths (OnePath ep_no_rewards)
       (history [OnePath ep_long] (fresh 0 0 0 2 2))).2 = inl ValueError.
Proof.
  pose proof (add_paths_never_corrupts 0 0 0 2 2
                [OnePath ep_long; OnePath ep_no_rewards] (OnePath ep_short)
                ltac:(lia) ltac:(lia)) as H.
  cbv zeta in H. destruct H as (_ & Hsh & _ & Hm & _).
  split_and!; [lia|lia|exact Hsh|exact Hm|reflexivity].
Defined.

(** The premises of X3 hold for the same history: [clear_buffer] gives the
    constructed state back. *)
Lemma clear_buffer_after_history_witness :
  0 < 2 ∧ 0 <= 2
  ∧ clear_buffer 0 0 0
      (history [OnePath ep_long; OnePath ep_no_rewards] (fresh 0 0 0 2 2))
    = (fresh 0 0 0 2 2, inr tt).
Proof.
  split_and!; [lia|lia|].
  exact (clear_buffer_after_history 0 0 0 2 2
           [OnePath ep_long; OnePath ep_no_rewards] ltac:(lia) ltac:(lia)).
Defined.

(** The premise of X4 holds for lookback 2: the buffer of capacity 0 is
    constructed and rejects [ep_full]. *)
Lemma add_paths_capacity_zero_witness :
  0 <= 2
  ∧ init 0 0 0 0 2 = inr (fresh 0 0 0 0 2)
  ∧ add_paths (OnePath ep_full) (fresh 0 0 0 0 2)
    = (fresh 0 0 0 0 2, inl IndexError).
Proof.
  split; [lia|].
  exact (add_paths_capacity_zero 0 0 0 2 ep_full ltac:(lia)).
Defined.

(** The premises of X5 hold for [ep_no_rewards] on a fresh buffer: the call
    raises, and the actions 1 and 2 are in the row under the cursor. *)
Lemma add_paths_partial_write_witness :
  shaped fresh_2_2 ∧ 1 <= _lookback fresh_2_2
  ∧ masks ep_no_rewards = None ∧ rewards ep_no_rewards = []
  ∧ 0 < len (actions ep_no_rewards)
  ∧ add_paths (OnePath ep_no_rewards) fresh_2_2
    = (with_actions [[0; 1; 2]; [0; 0; 0]] fresh_2_2, inl ValueError).
Proof.
  assert (1 <= _lookback fresh_2_2) as Hl by (vm_compute; discriminate).
  assert (0 < len (actions ep_no_rewards)) as Ha by reflexivity.
  split_and!; [exact shaped_fresh_2_2|exact Hl|reflexivity|reflexivity|exact Ha|].
  exact (add_paths_partial_write ep_no_rewards fresh_2_2
           shaped_fresh_2_2 Hl eq_refl eq_refl Ha).
Defined.

(** The premises of X6 hold for the batch of [ep_full] and [ep_other]. *)
Lemma add_paths_batch_is_sequence_witness :
  shaped fresh_2_2 ∧ Forall arrays_ok [ep_full; ep_other]
  ∧ Forall (λ ep : path_arrays Z Z Z, masks ep = None) [ep_full; ep_other]
  ∧ add_paths (Batch (stack [ep_full; ep_other])) fresh_2_2
    = for_ (OnePath <$> [ep_full; ep_other]) add_paths fresh_2_2
  ∧ (add_paths (Batch (stack [ep_full; ep_other])) fresh_2_2).2 = inr tt.
Proof.
  assert (Forall arrays_ok [ep_full; ep_other]) as Hok.
  { constructor; [exact arrays_ok_ep_full|].
    constructor; [exact arrays_ok_ep_other|constructor]. }
  assert (Forall (λ ep : path_arrays Z Z Z, masks ep = None)
            [ep_full; ep_other]) as Hnone.
  { constructor; [reflexivity|]. constructor; [reflexivity|constructor]. }
  split_and!; [exact shaped_fresh_2_2|exact Hok|exact Hnone| |];
    apply (add_paths_batch_is_sequence [ep_full; ep_other] fresh_2_2
             shaped_fresh_2_2 Hok Hnone).
Defined.

(** The premises of X8 hold for a ring of two slots after [ep_short]: one
    window was written, the ring has not wrapped, the size is 1, slot 0 is
    the written one and slot 1 is still zero. *)
Lemma sample_batch_returns_written_witness :
  0 < 2 ∧ 0 <= 2
  ∧ Forall2 ingests [OnePath ep_short] [[split_path ep_short]]
  ∧ 0 < len (windows_of 2 (concat [[split_path ep_short]]))
  ∧ ∃ b : buffer Z Z Z,
      for_ [OnePath ep_short] add_paths (fresh 0 0 0 2 2) = (b, inr tt)
      ∧ _size b = Z.min (len (windows_of 2 (concat [[split_path ep_short]]))) 2
      ∧ (∃ w, slot b 0%nat = Some w
            ∧ slot_holds 0 0 0 2 2
                (windows_of 2 (concat [[split_path ep_short]])) 0 w)
      ∧ slot b 1%nat = Some (zero_window 0 0 0 2).
Proof.
  assert (Forall2 ingests [OnePath ep_short] [[split_path ep_short]]) as Hcalls.
  { constructor; [apply ingests_one; exact arrays_ok_ep_short|constructor]. }
  assert (0 < len (windows_of 2 (concat [[split_path ep_short]]))) as Hlog
    by reflexivity.
  destruct (sample_batch_returns_written 0 0 0 2 2 _ _ ltac:(lia) ltac:(lia)
              Hcalls Hlog) as (b & Hrun & Hsize & Hwritten & Hzero & _).
  split_and!; [lia|lia|exact Hcalls|exact Hlog|].
  exists b. split_and!; [exact Hrun|exact Hsize| |].
  - apply (Hwritten 0). split; [lia|reflexivity].
  - apply (Hzero 1). split; [vm_compute; discriminate|lia].
Defined.

(** The premises of X9 hold for [wrapped_full] and one draw. *)
Lemma sample_starts_window_heads_witness :
  shaped wrapped_full ∧ 0 < 1 ∧ 0 < _size wrapped_full
  ∧ 0 < _lookback wrapped_full
  ∧ ∃ (bt : batch Z Z Z) (st : list Z),
      sample_batch (λ _, 0) 1 wrapped_full = (wrapped_full, inr bt)
      ∧ sample_starts (λ _, 0) 1 wrapped_full = (wrapped_full, inr st)
      ∧ len st = 1.
Proof.
  assert (0 < _size wrapped_full) as Hs by reflexivity.
  assert (0 < _lookback wrapped_full) as Hl by reflexivity.
  destruct (sample_starts_window_heads (λ _, 0) 1 wrapped_full
              shaped_wrapped_full ltac:(lia) Hs Hl)
    as (bt & st & Hbt & Hst & Hlen & _).
  split_and!; [exact shaped_wrapped_full|lia|exact Hs|exact Hl|].
  exists bt, st. split_and!; [exact Hbt|exact Hst|exact Hlen].
Defined.

(** The premises of X10 hold for [ep_long] on a fresh buffer of two slots:
    two windows are written and the cursor is back at 0. *)
Lemma add_paths_touches_cursor_slots_witness :
  shaped fresh_2_2 ∧ arrays_ok ep_long
  ∧ ∃ b' : buffer Z Z Z,
      add_paths (OnePath ep_long) fresh_2_2 = (b', inr tt)
      ∧ _top b'
        = (_top fresh_2_2
           + Z.max (true_length ep_long - _lookback fresh_2_2 + 1) 1)
          `mod` _max_size fresh_2_2
      ∧ _size b'
        = Z.min (_size fresh_2_2
                 + Z.max (true_length ep_long - _lookback fresh_2_2 + 1) 1)
            (_max_size fresh_2_2).
Proof.
  pose proof (add_paths_touches_cursor_slots ep_long fresh_2_2
                shaped_fresh_2_2 arrays_ok_ep_long) as H.
  cbv zeta in H. destruct H as (b' & Hrun & Htop & Hsize & _).
  split_and!; [exact shaped_fresh_2_2|exact arrays_ok_ep_long|].
  exists b'. split_and!; [exact Hrun|exact Htop|exact Hsize].
Defined.

(** The premises of X11 hold for [ep_cut], whose true length is 2. *)
Lemma masked_episode_is_truncated_witness :
  shaped fresh_2_2 ∧ arrays_ok ep_cut
  ∧ true_length ep_cut = 2
  ∧ add_paths (OnePath ep_cut) fresh_2_2
    = add_paths (OnePath (truncate (true_length ep_cut) ep_cut)) fresh_2_2
  ∧ (add_paths (OnePath ep_cut) fresh_2_2).2 = inr tt.
Proof.
  split_and!; [exact shaped_fresh_2_2|exact arrays_ok_ep_cut|reflexivity| |];
    apply (masked_episode_is_truncated ep_cut fresh_2_2 shaped_fresh_2_2
             arrays_ok_ep_cut).
Defined.

(** The premises of X12 hold for the dataset of [ep_full] taken as one
    trajectory, with lookback 2: the capacity is 2 and one window is
    stored. *)
Lemma offline_init_stores_all_witness :
  1 <= 2
  ∧ Forall trajectory_ok (one_trajectory (flat [ep_full]))
  ∧ len (concat (d_actions <$> one_trajectory (flat [ep_full])))
    <= len (d_actions (flat [ep_full]))
  ∧ ∃ b : buffer Z Z Z,
      offline_init 0 0 0 one_trajectory (flat [ep_full]) 2 = inr b
      ∧ _max_size b = len (d_actions (flat [ep_full]))
      ∧ _size b
        = len (windows_of 2
                 (split_path ∘ offline_path
                    <$> one_trajectory (flat [ep_full]))).
Proof.
  assert (Forall trajectory_ok (one_trajectory (flat [ep_full]))) as Htrs.
  { constructor; [|constructor]. split; reflexivity. }
  assert (len (concat (d_actions <$> one_trajectory (flat [ep_full])))
          <= len (d_actions (flat [ep_full]))) as Hsum
    by (vm_compute; discriminate).
  pose proof (offline_init_stores_all 0 0 0 one_trajectory (flat [ep_full]) 2
                ltac:(lia) Htrs Hsum) as H.
  cbv zeta in H. destruct H as (b & Hrun & Hn & _ & _ & Hsize & _).
  split_and!; [lia|exact Htrs|exact Hsum|].
  exists b. split_and!; [exact Hrun|exact Hn|exact Hsize].
Defined.

(** ** Runs of the network *)


(** The premises of X14 hold for the same network and [zero_call]: an
    input of extent 3 gives an output of extent 1. *)
Lemma forward_dimensions_witness :
  0 < 3 ∧ 0 < 1 ∧ Forall (λ h, 0 < h) [4; 2]
  ∧ (∀ ly x, 0 <= FCNetwork.out_features ly →
       len x = FCNetwork.in_features ly →
       ∃ y, zero_call ly x = inr y ∧ len y = FCNetwork.out_features ly)
  ∧ (∀ ly x, len x ≠ FCNetwork.in_features ly →
       zero_call ly x = inl FCNetwork.RuntimeError)
  ∧ (∀ x, ∃ y, relu x = inr y ∧ len y = len x)
  ∧ ∃ net : FCNetwork.network (list Z) unit,
      FCNetwork.init no_params 3 1 [4; 2] relu None = inr net
      ∧ (∃ y, FCNetwork.forward zero_call net [1; 2; 3] = inr y ∧ len y = 1)
      ∧ FCNetwork.forward zero_call net [1; 2]
        = inl FCNetwork.RuntimeError.
Proof.
  assert (Forall (λ h, 0 < h) [4; 2]) as Hpos.
  { constructor; [lia|]. constructor; [lia|constructor]. }
  assert (∀ ly x, 0 <= FCNetwork.out_features ly →
            len x = FCNetwork.in_features ly →
            ∃ y, zero_call ly x = inr y ∧ len y = FCNetwork.out_features ly)
    as Hcall.
  { intros ly x Ho Hx. unfold zero_call. rewrite decide_True by exact Hx.
    eexists. split; [reflexivity|]. unfold len. rewrite length_replicate. lia. }
  assert (∀ ly x, len x ≠ FCNetwork.in_features ly →
            zero_call ly x = inl FCNetwork.RuntimeError) as Hbad.
  { intros ly x Hx. unfold zero_call. rewrite decide_False by exact Hx.
    reflexivity. }
  assert (∀ x, ∃ y, relu x = inr y ∧ len y = len x) as Hact.
  { intros x. eexists. split; [reflexivity|]. unfold len.
    rewrite length_fmap. reflexivity. }
  destruct (forward_dimensions no_params zero_call len 3 1 [4; 2] relu None
              ltac:(lia) ltac:(lia) Hpos Hcall Hbad Hact
              ltac:(intros f [=])) as (net & Hnet & Hfw).
  split_and!; [lia|lia|exact Hpos|exact Hcall|exact Hbad|exact Hact|].
  exists net. split_and!; [exact Hnet| |].
  - apply (Hfw [1; 2; 3]). reflexivity.
  - apply (Hfw [1; 2]). discriminate.
Defined.

(** The premises of X15 hold for the batch of [ep_long] alone on a fresh
    buffer of lookback 3: the first call returns, the second call with the
    dictionary that the first one left raises. *)
Lemma add_paths_consumes_batch_witness :
  shaped (fresh 0 0 0 4 3) ∧ Forall arrays_ok [ep_long]
  ∧ Forall (λ ep : path_arrays Z Z Z, masks ep = None) [ep_long]
  ∧ 1 <= extent (_lookback (fresh 0 0 0 4 3)) (len (actions ep_long))
  ∧ extent (_lookback (fresh 0 0 0 4 3)) (len (actions ep_long)) ≠ 2
  ∧ ∃ b1 b2 : buffer Z Z Z,
      add_paths (Batch (stack [ep_long])) (fresh 0 0 0 4 3) = (b1, inr tt)
      ∧ add_paths (paths_after (Batch (stack [ep_long]))) b1
        = (b2, inl ValueError).
Proof.
  assert (shaped (fresh 0 0 0 4 3)) as Hb by (apply fresh_shaped; lia).
  assert (Forall arrays_ok [ep_long]) as Hok.
  { constructor; [exact arrays_ok_ep_long|constructor]. }
  assert (Forall (λ ep : path_arrays Z Z Z, masks ep = None) [ep_long])
    as Hnone.
  { constructor; [reflexivity|constructor]. }
  assert (1 <= extent (_lookback (fresh 0 0 0 4 3)) (len (actions ep_long)))
    as He1 by (vm_compute; discriminate).
  assert (extent (_lookback (fresh 0 0 0 4 3)) (len (actions ep_long)) ≠ 2)
    as He2 by (vm_compute; discriminate).
  destruct (add_paths_consumes_batch ep_long [] (fresh 0 0 0 4 3)
              Hb Hok Hnone He1 He2) as (b1 & b2 & H1 & H2).
  split_and!; [exact Hb|exact Hok|exact Hnone|exact He1|exact He2|].
  exists b1, b2. split; [exact H1|exact H2].
Defined.
